(** * liftoff: flight-profile conditioning, drag model and rocket dynamics

    A shallow embedding of the computational core of the [liftoff]
    sources ([liftoff-physics/drag.cpp] and [liftoff-cli/main.cpp]) and the
    properties proved about it.

    Numbers.  The program computes with C++ [double].  Every function is
    written once, over an interface [Arith] of the operations the sources
    use, and the properties are stated of [float_arith], IEEE-754 binary64
    (Rocq's primitive floats) with NaN, signed zeros, overflow and
    rounding, or of every instance of the interface.  [pow] and [exp] come
    from the C library; they form the interface [Libm], which is left
    abstract on [double]: a statement that mentions them holds for every
    [pow] and [exp].

    The real numbers [R_arith] and [R_libm] are a second instance.  It is
    not the arithmetic of the program: it has no rounding, no overflow and
    no NaN, and [x / 0] is [0] there.  Its only use is the sign of the
    troposphere formula in one example. *)

From Stdlib Require Import ZArith List Bool Lia Floats Reals Lra QArith Sorted.
From stdpp Require Import base option countable gmap.

Local Open Scope Z_scope.

(** ** The arithmetic of [double] *)

Declare Scope dbl_scope.
Delimit Scope dbl_scope with dbl.

(** The operations on [double] that the sources use.  [of_int] is the
    implicit conversion of an [int], [to_int] is [static_cast<int>], [M_PI]
    is the constant of [<cmath>]. *)
Class Arith (D : Type) : Type := {
  M_PI : D;
  of_int : Z -> D;
  to_int : D -> Z;
  Dadd : D -> D -> D;
  Dsub : D -> D -> D;
  Dmul : D -> D -> D;
  Ddiv : D -> D -> D;
  Dopp : D -> D;
  Dabs : D -> D;
  Dsqrt : D -> D;
  Dltb : D -> D -> bool;
  Dleb : D -> D -> bool;
  Deqb : D -> D -> bool
}.

(** [pow] and [exp] of the C math library. *)
Class Libm (D : Type) : Type := {
  Dpow : D -> D -> D;
  Dexp : D -> D
}.

(** The quiet NaN used as the "no sample" value of a time series. *)
Class HasNaN (D : Type) : Type := nan_value : D.

Infix "+" := Dadd : dbl_scope.
Infix "-" := Dsub : dbl_scope.
Infix "*" := Dmul : dbl_scope.
Infix "/" := Ddiv : dbl_scope.
Notation "- x" := (Dopp x) : dbl_scope.
Notation "x <? y" := (Dltb x y) : dbl_scope.
Notation "x <=? y" := (Dleb x y) : dbl_scope.
Notation "x >? y" := (Dltb y x) : dbl_scope.
Notation "x >=? y" := (Dleb y x) : dbl_scope.
Notation "x =? y" := (Deqb x y) : dbl_scope.
Notation "x !=? y" := (negb (Deqb x y)) (at level 70) : dbl_scope.

(** A decimal literal of the source, such as [.00299]: the quotient of two
    integers that [double] holds exactly, so that the IEEE division rounds
    it as the compiler rounds the literal. *)
Definition lit {D} `{Arith D} (q : Q) : D :=
  (of_int (Qnum q) / of_int (Zpos (Qden q)))%dbl.

(** [std::isnan]. *)
Definition isnan {D} `{Arith D} (x : D) : bool := negb (x =? x)%dbl.

(** *** IEEE binary64 *)

Definition float_of_int (z : Z) : float :=
  match z with
  | Z0 => PrimFloat.zero
  | Zpos _ => PrimFloat.of_uint63 (Uint63.of_Z z)
  | Zneg p => PrimFloat.opp (PrimFloat.of_uint63 (Uint63.of_Z (Zpos p)))
  end.

(** Truncation toward zero; the conversion of a NaN or an infinity is not
    defined by C++ and reads 0 here. *)
Definition float_to_int (x : float) : Z :=
  match Prim2SF x with
  | S754_finite s m e =>
      let a := if 0 <=? e then Zpos m * 2 ^ e else Zpos m / 2 ^ (- e) in
      if s then - a else a
  | _ => 0
  end.

#[export] Instance float_arith : Arith float := {|
  M_PI := 0x1.921fb54442d18p+1%float;
  of_int := float_of_int;
  to_int := float_to_int;
  Dadd := PrimFloat.add;
  Dsub := PrimFloat.sub;
  Dmul := PrimFloat.mul;
  Ddiv := PrimFloat.div;
  Dopp := PrimFloat.opp;
  Dabs := PrimFloat.abs;
  Dsqrt := PrimFloat.sqrt;
  Dltb := PrimFloat.ltb;
  Dleb := PrimFloat.leb;
  Deqb := PrimFloat.eqb
|}.

#[export] Instance float_nan : HasNaN float := PrimFloat.nan.

(** *** Real numbers *)

Definition R_to_int (x : R) : Z :=
  if Rle_dec 0 x then Int_part x else - Int_part (- x).

#[export] Instance R_arith : Arith R := {|
  M_PI := PI;
  of_int := IZR;
  to_int := R_to_int;
  Dadd := Rplus;
  Dsub := Rminus;
  Dmul := Rmult;
  Ddiv := Rdiv;
  Dopp := Ropp;
  Dabs := Rabs;
  Dsqrt := sqrt;
  Dltb := fun x y => if Rlt_dec x y then true else false;
  Dleb := fun x y => if Rle_dec x y then true else false;
  Deqb := fun x y => if Req_dec_T x y then true else false
|}.

#[export] Instance R_libm : Libm R := {|
  Dpow := Rpower;
  Dexp := exp
|}.

(** ** [liftoff-physics/drag.cpp] *)

Section Drag.
Context {D : Type} `{Arith D} `{Libm D}.
Local Open Scope dbl_scope.

Definition calc_drag (cd rho v a : D) : D :=
  cd * rho * v * v / of_int 2 * a.

Definition calc_rho_ideal_state (p T : D) : D :=
  p / (lit 0.2869 * (T + lit 273.1)).

Definition calc_pressure_earth (alt : D) : D :=
  if alt >=? of_int 25000 then
    let T := - lit 131.21 + lit 0.00299 * alt in
    lit 2.488 * Dpow ((T + lit 273.1) / lit 216.6) (- lit 11.388)
  else if (alt >=? of_int 11000) && (alt <? of_int 25000) then
    lit 22.65 * Dexp (lit 1.73 - lit 0.000157 * alt)
  else if alt <? of_int 11000 then
    let T := lit 15.04 - lit 0.00649 * alt in
    lit 101.29 * Dpow ((T + lit 273.1) / lit 288.08) (lit 5.256)
  else
    of_int (-1).

Definition calc_rho_earth (alt : D) : D :=
  if alt >=? of_int 25000 then
    let T := - lit 131.21 + lit 0.00299 * alt in
    let p := lit 2.488 * Dpow ((T + lit 273.1) / lit 216.6) (- lit 11.388) in
    calc_rho_ideal_state p T
  else if (alt >=? of_int 11000) && (alt <? of_int 25000) then
    let T := - lit 56.46 in
    let p := lit 22.65 * Dexp (lit 1.73 - lit 0.000157 * alt) in
    calc_rho_ideal_state p T
  else if alt <? of_int 11000 then
    let T := lit 15.04 - lit 0.00649 * alt in
    let p := lit 101.29 * Dpow ((T + lit 273.1) / lit 288.08) (lit 5.256) in
    calc_rho_ideal_state p T
  else
    of_int (-1).

Definition calc_drag_earth (cd alt v a : D) : D :=
  calc_drag cd (calc_rho_earth alt) v a.

(** The drag of the documentation, [0.5 * Cd * rho * v^2 * A], with its
    products taken from left to right in the arithmetic [D], to compare
    with [calc_drag]. *)
Definition calc_drag_as_claimed (cd rho v a : D) : D :=
  lit 0.5 * cd * rho * (v * v) * a.

(** The altitude band that the chain of comparisons shared by
    [calc_pressure_earth] and [calc_rho_earth] selects; [no_band] is the
    fall-through that returns the sentinel. *)
Inductive band : Set :=
  | upper_stratosphere
  | lower_stratosphere
  | troposphere
  | no_band.

Definition band_of (alt : D) : band :=
  if alt >=? of_int 25000 then upper_stratosphere
  else if (alt >=? of_int 11000) && (alt <? of_int 25000) then lower_stratosphere
  else if alt <? of_int 11000 then troposphere
  else no_band.

(** The value that each band gives, as [calc_pressure_earth] and
    [calc_rho_earth] compute it. *)
Definition band_pressure (b : band) (alt : D) : D :=
  match b with
  | upper_stratosphere =>
      let T := - lit 131.21 + lit 0.00299 * alt in
      lit 2.488 * Dpow ((T + lit 273.1) / lit 216.6) (- lit 11.388)
  | lower_stratosphere => lit 22.65 * Dexp (lit 1.73 - lit 0.000157 * alt)
  | troposphere =>
      let T := lit 15.04 - lit 0.00649 * alt in
      lit 101.29 * Dpow ((T + lit 273.1) / lit 288.08) (lit 5.256)
  | no_band => of_int (-1)
  end.

Definition band_temperature (b : band) (alt : D) : D :=
  match b with
  | upper_stratosphere => - lit 131.21 + lit 0.00299 * alt
  | lower_stratosphere => - lit 56.46
  | troposphere => lit 15.04 - lit 0.00649 * alt
  | no_band => of_int 0
  end.

Definition band_density (b : band) (alt : D) : D :=
  match b with
  | no_band => of_int (-1)
  | _ => calc_rho_ideal_state (band_pressure b alt) (band_temperature b alt)
  end.

End Drag.

(** ** Keys of [std::map<double, double>]

    The time series are finite maps keyed by [double].  Primitive floats
    are countable through their IEEE decomposition, which makes them keys
    of [gmap]. *)

#[export] Instance spec_float_eq_dec : EqDecision spec_float.
Proof. solve_decision. Defined.

Definition spec_float_enc (f : spec_float) : bool + bool + unit + bool * positive * Z :=
  match f with
  | S754_zero s => inl (inl (inl s))
  | S754_infinity s => inl (inl (inr s))
  | S754_nan => inl (inr tt)
  | S754_finite s m e => inr (s, m, e)
  end.

Definition spec_float_dec (c : bool + bool + unit + bool * positive * Z) : spec_float :=
  match c with
  | inl (inl (inl s)) => S754_zero s
  | inl (inl (inr s)) => S754_infinity s
  | inl (inr _) => S754_nan
  | inr (s, m, e) => S754_finite s m e
  end.

#[export] Instance spec_float_countable : Countable spec_float.
Proof.
  refine (inj_countable' spec_float_enc spec_float_dec _).
  intros []; reflexivity.
Defined.

#[export] Instance float_eq_dec : EqDecision float := fun x y =>
  match decide (Prim2SF x = Prim2SF y) with
  | left e => left (Prim2SF_inj x y e)
  | right n => right (fun e => n (f_equal Prim2SF e))
  end.

#[export] Instance float_countable : Countable float :=
  inj_countable' Prim2SF SF2Prim SF2Prim_Prim2SF.

(** ** [telemetry_flight_profile]

    The fields are those of [telemetry_flight_profile.h].  The bodies of
    the accessors that [main.cpp] calls are not among the sources. *)

Section Profile.
Context {D : Type} `{Arith D} `{HasNaN D} `{Countable D}.
Local Open Scope dbl_scope.

Record telemetry_flight_profile : Type := mk_profile {
  time_step : D;
  current_time : D;
  ballistic_range : D;
  velocity : gmap D D;
  altitude : gmap D D
}.

(** The constructor [telemetry_flight_profile{time_step}]: no samples. *)
Definition new_profile (ts : D) : telemetry_flight_profile :=
  mk_profile ts (of_int 0) (of_int 0) ∅ ∅.

(** Modelled from the spec: [telemetry_flight_profile::get_time_step], the
    getter of the "fixed time step" of the profile. *)
Definition get_time_step (f : telemetry_flight_profile) : D := time_step f.

(** Modelled from the spec: [telemetry_flight_profile::get_velocity(t)],
    whose body is missing; "[get(time)] returns the exact value if present,
    else NaN". *)
Definition get_velocity (f : telemetry_flight_profile) (t : D) : D :=
  default nan_value (velocity f !! t).

(** Modelled from the spec: [telemetry_flight_profile::get_altitude(t)],
    whose body is missing; as [get_velocity] above. *)
Definition get_altitude (f : telemetry_flight_profile) (t : D) : D :=
  default nan_value (altitude f !! t).

(** Modelled from the spec: [telemetry_flight_profile::put_altitude], whose
    body is missing; "[put(time, value)] inserts/overwrites". *)
Definition put_altitude (t a : D) (f : telemetry_flight_profile)
  : telemetry_flight_profile :=
  mk_profile (time_step f) (current_time f) (ballistic_range f)
             (velocity f) (<[t := a]> (altitude f)).

(** [get_velocities()] and [get_altitudes()] hand out the two maps by
    reference; a routine that fills the map it receives is read as the
    profile with that map replaced. *)
Definition set_velocities (m : gmap D D) (f : telemetry_flight_profile)
  : telemetry_flight_profile :=
  mk_profile (time_step f) (current_time f) (ballistic_range f) m (altitude f).

Definition set_altitudes (m : gmap D D) (f : telemetry_flight_profile)
  : telemetry_flight_profile :=
  mk_profile (time_step f) (current_time f) (ballistic_range f) (velocity f) m.

End Profile.

Arguments telemetry_flight_profile D {_ _}.

(** ** The routines of [liftoff-physics/telem_proc.h]

    [setup_flight_profile] calls these; their bodies are not among the
    sources, so they are the operations of an interface.  An
    iterator into a map is an abstract position: [it_second m] is
    [++m.cbegin()] and [it_first it] is [it->first]. *)
Class TelemProc (D : Type) `{Countable D} : Type := {
  polynomial : Type;
  val : polynomial -> D -> D;
  map_iterator : Type;
  it_second : gmap D D -> map_iterator;
  it_first : map_iterator -> D;
  interp_lin : gmap D D -> gmap D D -> gmap D D;
  find_event_time : map_iterator -> gmap D D -> bool -> map_iterator;
  collect : gmap D D -> list D -> list (list D) * list (list D);
  force : list (D * D) -> gmap D D -> list D -> Z -> list (D * D);
  fit : nat -> list D -> list D -> list (D * D) -> polynomial;
  lip : list (D * D) -> polynomial
}.

(** ** [main.cpp]: [setup_flight_profile] *)

Section Setup.
Context {D : Type} `{Arith D} `{HasNaN D} `{Countable D} {T : TelemProc D}.
Local Open Scope dbl_scope.

(** [times[l]] and [legs[l]]. *)
Definition leg (l : nat) (ls : list (list D)) : list D := nth l ls [].

(** The forced points of leg [l] in the first fitting loop. *)
Definition leg_force_points (alt_fitted : gmap D D) (times : list (list D)) (l : nat)
  : list (D * D) :=
  if (l =? 0)%nat then force [] alt_fitted (leg 1 times) 1
  else if (l =? 2)%nat then force [] alt_fitted (leg 1 times) (-1)
  else [].

(** One iteration of [for (int l = 0; l < n_events; ++l)]: the polynomial
    pushed on [alt_fit]. *)
Definition fit_leg (alt_fitted : gmap D D) (times legs : list (list D)) (l : nat)
  : polynomial :=
  let force_points := leg_force_points alt_fitted times l in
  fit (4 + length force_points) (leg l times) (leg l legs) force_points.

Definition fit_legs (alt_fitted : gmap D D) (times legs : list (list D)) (n_events : nat)
  : list polynomial :=
  map (fit_leg alt_fitted times legs) (seq 0 n_events).

(** The inner loop [for (int i = 0; i < n_events; ++i)] of the rewrite:
    the first [i] with [t < events[i]], counted from [i]. *)
Fixpoint first_leg (t : D) (events : list D) (i : nat) : option nat :=
  match events with
  | [] => None
  | e :: events' => if t <? e then Some i else first_leg t events' (S i)
  end.

(** The value that the rewrite loop stores at time [t], if it stores one:
    nothing for the middle leg ([i == 1]) and past the last event. *)
Definition leg_rewrite (events : list D) (alt_fit : list polynomial) (t : D) : option D :=
  match first_leg t events 0 with
  | Some i =>
      if (i =? 1)%nat then None
      else match alt_fit !! i with
           | Some P =>
               let alt := val P t in
               let alt := if alt <? of_int 0 then of_int 0 else alt in
               Some alt
           | None => None
           end
  | None => None
  end.

(** [for (const auto &it : alt_fitted)]: every entry is visited once and
    [put_altitude(t, alt)] overwrites the entry being visited. *)
Definition rewrite_legs (events : list D) (alt_fit : list polynomial)
    (fitted : telemetry_flight_profile D) : telemetry_flight_profile D :=
  set_altitudes
    (map_imap (fun t alt => Some (default alt (leg_rewrite events alt_fit t)))
              (altitude fitted))
    fitted.

(** The forced points of the middle leg (step 2). *)
Definition middle_force_points (alt_fitted : gmap D D) (times : list (list D))
  : list (D * D) :=
  let force_points := force [] alt_fitted (leg 0 times) (-3) in
  force force_points alt_fitted (leg 2 times) 3.

(** [for (const auto &t : times[1]) fitted.put_altitude(t, lip_fit.val(t))]. *)
Definition rewrite_middle (lip_fit : polynomial) (times1 : list D)
    (fitted : telemetry_flight_profile D) : telemetry_flight_profile D :=
  fold_left (fun f t => put_altitude t (val lip_fit t) f) times1 fitted.

(** The intermediate values of [setup_flight_profile], kept for the
    statements about it. *)
Record setup_trace : Type := mk_setup_trace {
  st_events : list D;
  st_times : list (list D);
  st_legs : list (list D);
  st_interpolated : telemetry_flight_profile D;
  st_alt_fit : list polynomial;
  st_rewritten : telemetry_flight_profile D;
  st_lip_fit : polynomial;
  st_result : telemetry_flight_profile D
}.

(** [raw] holds the records that [parse_telem] read from the file.
    [alt_fitted] is a reference to the altitude map of [fitted]: each use
    reads the map as it is at that point. *)
Definition setup_flight_profile_trace (raw fitted : telemetry_flight_profile D)
  : setup_trace :=
  let fitted := set_velocities (interp_lin (velocity fitted) (velocity raw)) fitted in
  let v_fitted := velocity fitted in
  let meco_ptr := find_event_time (it_second v_fitted) v_fitted true in
  let ses_1_ptr := find_event_time meco_ptr v_fitted false in
  let seco_1_ptr := find_event_time ses_1_ptr v_fitted true in
  let events := [it_first meco_ptr; it_first ses_1_ptr; it_first seco_1_ptr] in
  let n_events := length events in
  let fitted := set_altitudes (interp_lin (altitude fitted) (altitude raw)) fitted in
  let '(times, legs) := collect (altitude fitted) events in
  let alt_fit := fit_legs (altitude fitted) times legs n_events in
  let rewritten := rewrite_legs events alt_fit fitted in
  let force_points := middle_force_points (altitude rewritten) times in
  let lip_fit := lip force_points in
  mk_setup_trace events times legs fitted alt_fit rewritten lip_fit
                 (rewrite_middle lip_fit (leg 1 times) rewritten).

Definition setup_flight_profile (raw fitted : telemetry_flight_profile D)
  : telemetry_flight_profile D :=
  st_result (setup_flight_profile_trace raw fitted).

End Setup.

(** ** Vectors and the PIDF controller *)

Section Controller.
Context {D : Type} `{Arith D}.
Local Open Scope dbl_scope.

(** Modelled from the spec: [liftoff::vector] ([liftoff-physics/linalg.h] is
    missing), a vector of three [double] components built as [{x, y, z}]. *)
Record vector : Type := mk_vector { get_x : D; get_y : D; get_z : D }.

(** Modelled from the spec: the default constructor [liftoff::vector{}]. *)
Definition zero_vector : vector := mk_vector (of_int 0) (of_int 0) (of_int 0).

(** Modelled from the spec: [liftoff::vector::add], the sum of two vectors
    component by component. *)
Definition vector_add (u w : vector) : vector :=
  mk_vector (get_x u + get_x w) (get_y u + get_y w) (get_z u + get_z w).

(** Modelled from the spec: [liftoff::vector::magnitude], the Euclidean
    norm. *)
Definition magnitude (u : vector) : D :=
  Dsqrt (get_x u * get_x u + get_y u * get_y u + get_z u * get_z u).

(** Modelled from the spec: [pidf_controller] ([pidf_controller.h] is
    missing): "setpoint, last observed state, gains, fixed time step". *)
Record pidf_controller : Type := mk_pidf {
  pidf_time_step : D;
  pidf_kp : D;
  pidf_ki : D;
  pidf_kd : D;
  pidf_kf : D;
  get_setpoint : D;
  get_last_state : D
}.

(** Modelled from the spec: [pidf_controller::compute_error], the altitude
    error [setpoint - last_state] of "[v_y = (setpoint - last_state)/dt]". *)
Definition compute_error (pidf : pidf_controller) : D :=
  get_setpoint pidf - get_last_state pidf.

(** [signum]: [(x > 0) - (x < 0)], an [int]. *)
Definition signum (x : D) : Z :=
  Z.b2z (x >? of_int 0) - Z.b2z (x <? of_int 0).

(** [adjust_velocity]; [cur_v] is not read. *)
Definition adjust_velocity (pidf : pidf_controller) (cur_v : vector) (mag_v : D) : vector :=
  if get_setpoint pidf =? of_int 0 then
    mk_vector (of_int 0) mag_v (of_int 0)
  else
    let error := compute_error pidf in
    let target_y_velocity := error / pidf_time_step pidf in
    let target_y_velocity :=
      if Dabs target_y_velocity >? mag_v
      then of_int (signum target_y_velocity) * mag_v
      else target_y_velocity in
    let target_x_velocity :=
      Dsqrt (mag_v * mag_v - target_y_velocity * target_y_velocity) in
    mk_vector target_x_velocity target_y_velocity (of_int 0).

End Controller.

Arguments vector D : clear implicits.
Arguments pidf_controller D : clear implicits.

(** ** Loops *)

(** [for (int i = i0; cond(i); ++i) body], where the body may [break]:
    [body i s] is the state after the iteration and whether it left the
    loop.  [fuel] bounds the number of iterations. *)
Fixpoint for_loop {S : Type} (fuel : nat) (cond : Z -> bool)
    (body : Z -> S -> S * bool) (i : Z) (s : S) : S :=
  match fuel with
  | O => s
  | Datatypes.S fuel' =>
      if cond i then
        let '(s', stop) := body i s in
        if stop then s' else for_loop fuel' cond body (i + 1) s'
      else s
  end.

(** ** [main.cpp]: the reconciliation of altitude and velocity *)

Section Reconcile.
Context {D : Type} `{Arith D} `{HasNaN D} `{Countable D}.
Local Open Scope dbl_scope.

(** The locals of [adjust_altitude] that live across iterations. *)
Record adjust_state : Type := mk_adjust {
  adj_last_t : D;
  adj_last_alt : D;
  adj_v_integral : D;
  adj_fitted : telemetry_flight_profile D
}.

Definition adjust_altitude_body (orig : telemetry_flight_profile D) (break_even : D)
    (i : Z) (s : adjust_state) : adjust_state * bool :=
  let fitted := adj_fitted s in
  let t := of_int i * get_time_step fitted in
  let alt := get_altitude fitted t in
  let v := get_velocity fitted t in
  let dt := get_time_step fitted in
  let v_integral := adj_v_integral s + v * dt in
  if t <? break_even then
    (mk_adjust t v_integral v_integral (put_altitude t v_integral fitted), false)
  else
    let target_error := get_altitude orig t - get_altitude orig (adj_last_t s) in
    let target_alt := adj_last_alt s + target_error in
    if target_alt >=? alt then
      (mk_adjust (adj_last_t s) (adj_last_alt s) v_integral fitted, true)
    else
      (mk_adjust t target_alt v_integral (put_altitude t target_alt fitted), false).

(** [adjust_altitude]: the loop runs while [i < max_time / time_step], a
    bound of at most [(int)(max_time / time_step) + 1] iterations. *)
Definition adjust_altitude (orig fitted : telemetry_flight_profile D)
    (break_even max_time : D) : telemetry_flight_profile D :=
  let bound := max_time / get_time_step fitted in
  adj_fitted
    (for_loop (Datatypes.S (Z.to_nat (to_int bound)))
              (fun i => of_int i <? bound)
              (adjust_altitude_body orig break_even)
              0
              (mk_adjust (of_int 0) (of_int 0) (of_int 0) fitted)).

(** The variables of the final conditioning step of
    [run_telemetry_profile::Calc] that one pass of the scan reads and
    writes.  [rec_log] is not a variable of the program: it records the
    values given to [last_corrected_time], oldest first. *)
Record scan_state : Type := mk_scan {
  scan_valid : bool;
  scan_last_t : D;
  scan_last_alt : D;
  last_corrected_time : D;
  scan_fitted : telemetry_flight_profile D;
  rec_log : list D
}.

Definition scan_body (orig : telemetry_flight_profile D) (time_step max_time : D)
    (i : Z) (s : scan_state) : scan_state * bool :=
  let fitted := scan_fitted s in
  let t := of_int i * time_step in
  let alt := get_altitude fitted t in
  let dt := t - scan_last_t s in
  let target_error := alt - scan_last_alt s in
  let target_v := target_error / dt in
  let v := get_velocity fitted t in
  if (v <? target_v) && (last_corrected_time s <? t) then
    (mk_scan false (scan_last_t s) (scan_last_alt s) t
             (adjust_altitude orig fitted t max_time)
             (rec_log s ++ [t]),
     true)
  else
    (mk_scan (scan_valid s) t alt (last_corrected_time s) fitted (rec_log s), false).

(** One iteration of [while (true)]: the scan [for (int i = 0; i <
    total_steps; ++i)]. *)
Definition scan_pass (orig : telemetry_flight_profile D) (time_step max_time : D)
    (total_steps : Z) (lct : D) (fitted : telemetry_flight_profile D) (log : list D)
  : scan_state :=
  for_loop (Z.to_nat total_steps) (fun i => (i <? total_steps)%Z)
           (scan_body orig time_step max_time) 0
           (mk_scan true (of_int 0) (of_int 0) lct fitted log).

(** [while (true) { ...; if (valid) break; }]: [None] when [fuel] passes
    did not reach a valid one. *)
Fixpoint reconcile_loop (fuel : nat) (orig : telemetry_flight_profile D)
    (time_step max_time : D) (total_steps : Z) (lct : D)
    (fitted : telemetry_flight_profile D) (log : list D)
  : option (telemetry_flight_profile D * list D) :=
  match fuel with
  | O => None
  | Datatypes.S fuel' =>
      let s := scan_pass orig time_step max_time total_steps lct fitted log in
      if scan_valid s then Some (scan_fitted s, rec_log s)
      else reconcile_loop fuel' orig time_step max_time total_steps
                          (last_corrected_time s) (scan_fitted s) (rec_log s)
  end.

(** The final conditioning step of [run_telemetry_profile::Calc], from the
    profile that [setup_flight_profile] returned. *)
Definition Calc_time_step : D := of_int 1.
Definition Calc_max_time : D := of_int 500.
Definition Calc_total_steps : Z := to_int (Calc_max_time / Calc_time_step).

Definition reconcile (fuel : nat) (fitted : telemetry_flight_profile D)
  : option (telemetry_flight_profile D * list D) :=
  let orig := fitted in
  reconcile_loop fuel orig Calc_time_step Calc_max_time Calc_total_steps
                 (of_int 0) fitted [].

(** *** The quantities that the statements about the reconciliation name

    [grid ts i] is the time [i * time_step] of step [i]. *)
Definition grid (ts : D) (i : nat) : D := of_int (Z.of_nat i) * ts.

(** The Euler integral of the fitted velocity up to and including step
    [i], added up in the order of the loop. *)
Fixpoint velocity_integral (f : telemetry_flight_profile D) (ts : D) (i : nat) : D :=
  match i with
  | O => of_int 0 + get_velocity f (grid ts 0) * ts
  | Datatypes.S i' => velocity_integral f ts i' + get_velocity f (grid ts (Datatypes.S i')) * ts
  end.

(** The value that a correction at step [b] writes at step [i]: the
    velocity integral before [b]; from [b] on the last written value plus
    the difference of the original altitudes [orig(t_i) - orig(t_{i-1})]
    (at step 0, [last_alt] and [last_t] are still 0). *)
Fixpoint written (orig f : telemetry_flight_profile D) (ts : D) (b i : nat) : D :=
  match i with
  | O =>
      if (0 <? b)%nat then velocity_integral f ts 0
      else of_int 0 + (get_altitude orig (grid ts 0) - get_altitude orig (of_int 0))
  | Datatypes.S i' =>
      if (Datatypes.S i' <? b)%nat then velocity_integral f ts (Datatypes.S i')
      else written orig f ts b i'
           + (get_altitude orig (grid ts (Datatypes.S i')) - get_altitude orig (grid ts i'))
  end.

(** The step at which the translation stops: the first [i >= b], searched
    from [i] through [m] steps, at which the translated value is [>=] the
    altitude still in the fitted profile; [i + m] when there is none. *)
Fixpoint stop_from (orig f : telemetry_flight_profile D) (ts : D) (b m i : nat) : nat :=
  match m with
  | O => i
  | Datatypes.S m' =>
      if (b <=? i)%nat && (written orig f ts b i >=? get_altitude f (grid ts i))
      then i
      else stop_from orig f ts b m' (Datatypes.S i)
  end.

Definition stop_index (orig f : telemetry_flight_profile D) (ts : D) (b n : nat) : nat :=
  stop_from orig f ts b n 0.

(** The test that ends the translation at step [i]. *)
Definition stops_at (orig f : telemetry_flight_profile D) (ts : D) (b i : nat) : bool :=
  (b <=? i)%nat && (written orig f ts b i >=? get_altitude f (grid ts i)).

(** The profile after the first [k] steps of a correction at step [b]. *)
Fixpoint writes (ts : D) (orig f : telemetry_flight_profile D) (b k : nat)
  : telemetry_flight_profile D :=
  match k with
  | O => f
  | Datatypes.S k' =>
      put_altitude (grid ts k') (written orig f ts b k') (writes ts orig f b k')
  end.

(** What the scan holds in [last_t] and [last_alt] when it reaches step [i]. *)
Definition prev_time (ts : D) (i : nat) : D :=
  match i with O => of_int 0 | Datatypes.S i' => grid ts i' end.

Definition prev_altitude (f : telemetry_flight_profile D) (ts : D) (i : nat) : D :=
  match i with O => of_int 0 | Datatypes.S i' => get_altitude f (grid ts i') end.

(** The test of the scan at step [i]: the fitted velocity is less than the
    slope of the fitted altitude, and the step is later than the last
    corrected time. *)
Definition insufficient_velocity (f : telemetry_flight_profile D) (ts : D) (i : nat) : bool :=
  get_velocity f (grid ts i)
  <? (get_altitude f (grid ts i) - prev_altitude f ts i) / (grid ts i - prev_time ts i).

Definition triggers (f : telemetry_flight_profile D) (ts lct : D) (i : nat) : bool :=
  insufficient_velocity f ts i && (lct <? grid ts i).

(** The state of [adjust_altitude] when its loop reaches step [i]. *)
Definition adjust_state_at (ts : D) (orig f : telemetry_flight_profile D) (b i : nat)
  : adjust_state :=
  mk_adjust (prev_time ts i)
            (match i with O => of_int 0 | Datatypes.S i' => written orig f ts b i' end)
            (match i with O => of_int 0 | Datatypes.S i' => velocity_integral f ts i' end)
            (writes ts orig f b i).

(** The state of the scan when it reaches step [i], and the state in
    which a correction at step [k] leaves it. *)
Definition scan_state_at (ts : D) (f : telemetry_flight_profile D) (lct : D)
    (log : list D) (i : nat) : scan_state :=
  mk_scan true (prev_time ts i) (prev_altitude f ts i) lct f log.

Definition corrected_state (ts max_time : D) (orig f : telemetry_flight_profile D)
    (log : list D) (k : nat) : scan_state :=
  mk_scan false (prev_time ts k) (prev_altitude f ts k) (grid ts k)
          (adjust_altitude orig f (grid ts k) max_time) (log ++ [grid ts k]).

(** The first step of a scan of [n] steps at which the test holds. *)
Definition first_trigger (f : telemetry_flight_profile D) (ts lct : D) (n : nat)
  : option nat :=
  find (triggers f ts lct) (seq 0 n).

End Reconcile.

(** The whole of the conditioning in [run_telemetry_profile::Calc]: [raw]
    holds the parsed records, [fitted] starts empty with the time step of
    [Calc], and [orig] is the copy taken after [setup_flight_profile]. *)
Definition Calc_conditioning {D : Type} `{Arith D} `{HasNaN D} `{Countable D}
    {T : TelemProc D} (fuel : nat) (raw : telemetry_flight_profile D)
  : option (telemetry_flight_profile D * list D) :=
  let fitted := new_profile Calc_time_step in
  let fitted := setup_flight_profile raw fitted in
  reconcile fuel fitted.

(** ** [main.cpp]: the dynamics simulation [run_test_rocket::Calc] *)

Section Dynamics.
Context {D : Type} `{Arith D} `{Libm D} `{HasNaN D} `{Countable D}.
Local Open Scope dbl_scope.

Definition TICKS_PER_SEC : D := of_int 1.
Definition TIME_STEP : D := lit 1.0 / TICKS_PER_SEC.
Definition ACCEL_G : D := lit 9.80665.
Definition F9_CD : D := lit 0.25.
Definition F9_A : D := M_PI * lit 2.6 * lit 2.6.
Definition MERLIN_MAX_THRUST : D := of_int 854000.
Definition MERLIN_ISP : D := of_int 282.

Definition to_ticks (seconds : Z) : D := of_int seconds * TICKS_PER_SEC.

Definition stage_1_dry_mass_kg : D := of_int 25600.
Definition stage_1_fuel_mass_kg : D := of_int 395700.
Definition stage_2_dry_mass_kg : D := of_int 3900.
Definition stage_2_fuel_mass_kg : D := of_int 92670.
Definition payload_mass_kg : D := of_int 6800.

(** Modelled from the spec: [engine] ([engine.h] is missing): "max thrust,
    specific impulse, throttle in [0,1]". *)
Record engine : Type := mk_engine {
  get_max_thrust : D;
  get_isp : D;
  get_throttle : D
}.

(** Modelled from the spec: the constructor [engine{max_thrust, isp}], with
    the throttle shut. *)
Definition new_engine (max_thrust isp : D) : engine :=
  mk_engine max_thrust isp (of_int 0).

(** Modelled from the spec: [engine::set_throttle]; the throttle "stays
    within [0,1] for all commanded values (clamped if the controller
    requests more)". *)
Definition set_throttle (x : D) (e : engine) : engine :=
  let x := if x >? of_int 1 then of_int 1 else if x <? of_int 0 then of_int 0 else x in
  mk_engine (get_max_thrust e) (get_isp e) x.

(** Modelled from the spec: [engine::get_thrust], "instantaneous thrust =
    throttle x max_thrust". *)
Definition get_thrust (e : engine) : D := get_throttle e * get_max_thrust e.

(** Modelled from the spec: [engine::get_prop_flow_rate], "propellant mass
    flow rate = thrust/(isp x g0)". *)
Definition get_prop_flow_rate (e : engine) : D :=
  get_thrust e / (get_isp e * ACCEL_G).

(** The state of a [rocket]: the derivatives of motion [d_mot] (position,
    velocity, acceleration, jerk) and the applied [forces] of the
    force-driven body it extends, the mass that the base class holds, and
    the two fields of [rocket.h]. *)
Record rocket : Type := mk_rocket {
  d_mot : list (vector D);
  prev_d_mot : list (vector D);
  forces : list (vector D);
  mass : D;
  fdb_time_step : D;
  prop_mass : D;
  engines : list engine
}.

Definition get_p (b : rocket) : vector D := default zero_vector (d_mot b !! 0%nat).
Definition get_v (b : rocket) : vector D := default zero_vector (d_mot b !! 1%nat).
Definition get_a (b : rocket) : vector D := default zero_vector (d_mot b !! 2%nat).
Definition get_j (b : rocket) : vector D := default zero_vector (d_mot b !! 3%nat).

Definition set_d_mot (k : nat) (u : vector D) (b : rocket) : rocket :=
  mk_rocket (<[k := u]> (d_mot b)) (prev_d_mot b) (forces b) (mass b)
            (fdb_time_step b) (prop_mass b) (engines b).

(** [forces[k] = u]. *)
Definition set_force (k : nat) (u : vector D) (b : rocket) : rocket :=
  mk_rocket (d_mot b) (prev_d_mot b) (<[k := u]> (forces b)) (mass b)
            (fdb_time_step b) (prop_mass b) (engines b).

Definition set_engines (es : list engine) (b : rocket) : rocket :=
  mk_rocket (d_mot b) (prev_d_mot b) (forces b) (mass b)
            (fdb_time_step b) (prop_mass b) es.

(** Modelled from the spec: [body::set_velocity] ([liftoff-physics/body.h]
    is missing), which imposes the velocity, the second of the derivatives
    of motion. *)
Definition set_velocity (u : vector D) (b : rocket) : rocket := set_d_mot 1 u b.

(** Modelled from the spec: [body::set_mass] ([liftoff-physics/body.h] is
    missing), the setter of the mass that the body holds; [rocket.h] does
    not override it. *)
Definition set_mass (m : D) (b : rocket) : rocket :=
  mk_rocket (d_mot b) (prev_d_mot b) (forces b) m
            (fdb_time_step b) (prop_mass b) (engines b).

(** Modelled from the spec: [rocket::get_mass], which [rocket.h] declares as
    an override and [rocket.cpp] (missing) defines: "Mass = dry mass +
    remaining propellant + payload/upper-stage mass". *)
Definition get_mass (b : rocket) : D := mass b + prop_mass b.

(** Modelled from the spec: [rocket::get_prop_mass], the getter of the
    field [prop_mass] of [rocket.h]. *)
Definition get_prop_mass (b : rocket) : D := prop_mass b.

(** Modelled from the spec: [rocket::drain_propellant] ([rocket.cpp] is
    missing): "remaining propellant mass (monotonically non-increasing,
    floor at 0)". *)
Definition drain_propellant (drain_mass : D) (b : rocket) : rocket :=
  let rest := prop_mass b - drain_mass in
  mk_rocket (d_mot b) (prev_d_mot b) (forces b) (mass b) (fdb_time_step b)
            (if rest <? of_int 0 then of_int 0 else rest) (engines b).

(** Modelled from the spec: [pre_compute] of the force-driven body
    ([liftoff-physics/force_driven_body.h] is missing), "snapshot
    previous-step state". *)
Definition pre_compute (b : rocket) : rocket :=
  mk_rocket (d_mot b) (d_mot b) (forces b) (mass b)
            (fdb_time_step b) (prop_mass b) (engines b).

(** The product of a vector by a number. *)
Definition scale (c : D) (u : vector D) : vector D :=
  mk_vector (c * get_x u) (c * get_y u) (c * get_z u).

(** Modelled from the spec: [compute_forces] of the force-driven body,
    "summed applied forces divided by current mass yield acceleration". *)
Definition compute_forces (b : rocket) : rocket :=
  let net := fold_left vector_add (forces b) zero_vector in
  set_d_mot 2 (scale (of_int 1 / get_mass b) net) b.

(** Modelled from the spec: [compute_motion] of the force-driven body,
    "velocity and position integrate forward via Euler steps". *)
Definition compute_motion (b : rocket) : rocket :=
  let dt := fdb_time_step b in
  let b := set_d_mot 1 (vector_add (get_v b) (scale dt (get_a b))) b in
  set_d_mot 0 (vector_add (get_p b) (scale dt (get_v b))) b.

(** Modelled from the spec: [post_compute] of the force-driven body,
    "commit derived derivatives": "jerk is the finite difference of
    acceleration". *)
Definition post_compute (b : rocket) : rocket :=
  let dt := fdb_time_step b in
  let prev_a := default zero_vector (prev_d_mot b !! 2%nat) in
  set_d_mot 3 (scale (of_int 1 / dt)
                     (vector_add (get_a b) (scale (- of_int 1) prev_a))) b.

(** Modelled from the spec: [velocity_flight_profile]
    ([velocity_flight_profile.h] is missing): the decomposed velocity by
    time; "out-of-domain queries return NaN". *)
Record velocity_flight_profile : Type := mk_vprofile {
  vfp_time_step : D;
  vfp_vx : gmap D D;
  vfp_vy : gmap D D
}.

(** Modelled from the spec: [velocity_flight_profile::get_vx(t)]; NaN
    where the profile has no sample. *)
Definition get_vx (f : velocity_flight_profile) (t : D) : D :=
  default nan_value (vfp_vx f !! t).

(** Modelled from the spec: [velocity_flight_profile::get_vy(t)]; NaN
    where the profile has no sample. *)
Definition get_vy (f : velocity_flight_profile) (t : D) : D :=
  default nan_value (vfp_vy f !! t).

(** What the simulation prints. *)
Inductive report : Type :=
  | No_propellant (cur_time_s : D)
  | MECO (remaining_propellant : D).

(** The engines of the rocket and its state before the first step:
    [rocket body{...}], the weight and normal force pushed on [forces],
    then [forces.resize(4)]. *)
Definition Calc_engines : list engine :=
  replicate 9 (new_engine MERLIN_MAX_THRUST MERLIN_ISP).

Definition Calc_init : rocket :=
  let body :=
    mk_rocket (replicate 4 zero_vector) (replicate 4 zero_vector) []
              (stage_1_dry_mass_kg + stage_2_dry_mass_kg + payload_mass_kg
               + stage_2_fuel_mass_kg)
              TIME_STEP stage_1_fuel_mass_kg Calc_engines in
  let w := mk_vector (of_int 0) (- ACCEL_G * get_mass body) (of_int 0) in
  let n := mk_vector (of_int 0) (ACCEL_G * get_mass body) (of_int 0) in
  mk_rocket (d_mot body) (prev_d_mot body) [w; n; zero_vector; zero_vector]
            (mass body) (fdb_time_step body) (prop_mass body) (engines body).

(** The loop [for (int k = 0; k < forces.size(); ++k)] of the normal force
    computation, from index [k] on. *)
Fixpoint normal_loop (k : nat) (fs : list (vector D)) (new_n : vector D) : vector D :=
  match fs with
  | [] => new_n
  | force :: fs' =>
      let new_n :=
        if (k =? 1)%nat then new_n
        else if get_y force <? of_int 0
             then vector_add new_n (mk_vector (of_int 0) (- get_y force) (of_int 0))
             else new_n in
      normal_loop (Datatypes.S k) fs' new_n
  end.

(** "Normal force computation": [new_n], the ground contact, and
    [forces[1] = new_n]. *)
Definition normal_force_step (body : rocket) : rocket :=
  let new_n := zero_vector in
  let '(new_n, body) :=
    if get_y (get_p body) <? of_int 0 then
      let new_n := normal_loop 0 (forces body) new_n in
      let body :=
        if get_y (get_v body) <? of_int 0 then set_velocity zero_vector body
        else body in
      (new_n, body)
    else (new_n, body) in
  set_force 1 new_n body.

(** "Recompute weight vector" and "Recompute drag for new velocity". *)
Definition weight_drag_step (body : rocket) : rocket :=
  let cur_mass := get_mass body in
  let cur_weight := mk_vector (of_int 0) (- ACCEL_G * cur_mass) (of_int 0) in
  let body := set_force 0 cur_weight body in
  let v := get_v body in
  let p := get_p body in
  let v_mag := magnitude v in
  let cur_drag :=
    if v_mag !=? of_int 0 then
      let drag := calc_drag_earth F9_CD (get_y p) v_mag F9_A in
      mk_vector (- get_x v * drag / v_mag) (- get_y v * drag / v_mag) (of_int 0)
    else zero_vector in
  set_force 2 cur_drag body.

(** The loop [for (const auto &e : cur_engines)]: the net thrust and the
    propellant drained engine by engine. *)
Fixpoint thrust_loop (es : list engine) (thrust_net : D) (body : rocket) : D * rocket :=
  match es with
  | [] => (thrust_net, body)
  | e :: es' =>
      let thrust_net := thrust_net + get_thrust e in
      let rate := get_prop_flow_rate e in
      let mass_flow := rate / ACCEL_G in
      let total_prop_mass := mass_flow * TIME_STEP in
      thrust_loop es' thrust_net (drain_propellant total_prop_mass body)
  end.

(** The step from "Set engine throttle" to [forces[3] = cur_thrust], run
    when propellant remains. *)
Definition thrust_step (profile : velocity_flight_profile) (cur_time_s : D)
    (st : rocket * list report) : rocket * list report :=
  let '(body, out) := st in
  let vx := get_vx profile cur_time_s in
  let vy := get_vy profile cur_time_s in
  let tracking := negb (isnan vx) && negb (isnan vy) in
  let dvx := vx - get_x (get_v body) in
  let dvy := vy - get_y (get_v body) in
  let accel := Dsqrt (dvx * dvx + dvy * dvy) in
  let body :=
    if tracking then
      let f := get_mass body * accel in
      let f_pe := f / of_int (Z.of_nat (length Calc_engines)) in
      set_engines (map (fun e => set_throttle (f_pe / get_max_thrust e) e)
                       (engines body)) body
    else body in
  let '(body, out) :=
    if cur_time_s =? of_int 155 then
      (set_mass (get_mass body - stage_2_dry_mass_kg - stage_2_fuel_mass_kg
                 - payload_mass_kg) body,
       out ++ [MECO (get_prop_mass body)])
    else (body, out) in
  let body :=
    if cur_time_s >? of_int 155 then
      set_engines (map (set_throttle (of_int 0)) (engines body)) body
    else body in
  let '(thrust_net, body) := thrust_loop (engines body) (of_int 0) body in
  let cur_thrust :=
    if tracking then
      let uax := dvx / accel in
      let uay := dvy / accel in
      mk_vector (uax * thrust_net) (uay * thrust_net) (of_int 0)
    else mk_vector (of_int 0) thrust_net (of_int 0) in
  (set_force 3 cur_thrust body, out).

(** [body.compute_forces(); body.compute_motion(); body.post_compute();]. *)
Definition integrate (body : rocket) : rocket :=
  post_compute (compute_motion (compute_forces body)).

(** One iteration of the simulation loop; [continue] ends it at the
    propellant check. *)
Definition Calc_step (profile : velocity_flight_profile) (i : Z)
    (st : rocket * list report) : rocket * list report :=
  let '(body, out) := st in
  let cur_time_s := of_int i * TIME_STEP in
  let body := pre_compute body in
  let body := normal_force_step body in
  let body := weight_drag_step body in
  let prop_rem := get_prop_mass body in
  if prop_rem <=? of_int 0 then
    (body, out ++ [No_propellant cur_time_s])
  else
    let '(body, out) := thrust_step profile cur_time_s (body, out) in
    (integrate body, out).

(** [for (int i = 0; i < sim_duration_ticks; ++i)], the first [n] steps of
    it, and the whole of it. *)
Definition Calc_steps (profile : velocity_flight_profile) (n : nat)
    (st : rocket * list report) : rocket * list report :=
  let sim_duration_ticks : D := to_ticks 400 in
  for_loop n (fun i => of_int i <? sim_duration_ticks)
           (fun i st => (Calc_step profile i st, false)) 0 st.

Definition run_test_rocket_Calc (profile : velocity_flight_profile)
  : rocket * list report :=
  Calc_steps profile (Datatypes.S (Z.to_nat (to_int (to_ticks 400)))) (Calc_init, []).

(** The step that the documentation describes, to compare with
    [Calc_step]: at the propellant check "thrust contribution is skipped for
    that step", which is reported, and the rest of the step (force
    aggregation, motion computation, state commit) goes on. *)
Definition Calc_step_as_claimed (profile : velocity_flight_profile) (i : Z)
    (st : rocket * list report) : rocket * list report :=
  let '(body, out) := st in
  let cur_time_s := of_int i * TIME_STEP in
  let body := pre_compute body in
  let body := normal_force_step body in
  let body := weight_drag_step body in
  let prop_rem := get_prop_mass body in
  if prop_rem <=? of_int 0 then
    (integrate body, out ++ [No_propellant cur_time_s])
  else
    let '(body, out) := thrust_step profile cur_time_s (body, out) in
    (integrate body, out).

(** The terms that the normal force loop adds up: [- force.get_y()] of
    every force but [forces[1]] that points down, in the order of [forces]
    and from index [k] on. *)
Fixpoint downward_others (k : nat) (fs : list (vector D)) : list D :=
  match fs with
  | [] => []
  | force :: fs' =>
      if negb (k =? 1)%nat && (get_y force <? of_int 0)
      then (- get_y force) :: downward_others (Datatypes.S k) fs'
      else downward_others (Datatypes.S k) fs'
  end.

End Dynamics.

Arguments rocket D : clear implicits.
Arguments engine D : clear implicits.
Arguments report D : clear implicits.
Arguments velocity_flight_profile D {_ _}.

(** ** [main.cpp]: the replay loop of [run_telemetry_profile::Calc]

    The body that the replay drives is a [liftoff::velocity_driven_body],
    whose class ([liftoff-physics/velocity_driven_body.h]) is not among the
    sources: its constructor and the methods that the loop calls are the
    operations of an interface. *)
Class VelocityDrivenBody (D : Type) : Type := {
  velocity_driven_body : Type;
  new_velocity_driven_body : D -> Z -> D -> velocity_driven_body;
  vdb_get_d_mot : velocity_driven_body -> list (vector D);
  vdb_pre_compute : velocity_driven_body -> velocity_driven_body;
  vdb_set_velocity : vector D -> velocity_driven_body -> velocity_driven_body;
  vdb_compute_motion : velocity_driven_body -> velocity_driven_body;
  vdb_post_compute : velocity_driven_body -> velocity_driven_body
}.

Section Replay.
Context {D : Type} `{Arith D} `{Libm D} `{HasNaN D} `{Countable D}
        {B : VelocityDrivenBody D}.
Local Open Scope dbl_scope.

(** Modelled from the spec: [pidf_controller::set_last_state], the setter
    of the "last observed state". *)
Definition set_last_state (x : D) (pidf : pidf_controller D) : pidf_controller D :=
  mk_pidf (pidf_time_step pidf) (pidf_kp pidf) (pidf_ki pidf) (pidf_kd pidf)
          (pidf_kf pidf) (get_setpoint pidf) x.

(** Modelled from the spec: [pidf_controller::set_setpoint], the setter of
    the setpoint. *)
Definition set_setpoint (x : D) (pidf : pidf_controller D) : pidf_controller D :=
  mk_pidf (pidf_time_step pidf) (pidf_kp pidf) (pidf_ki pidf) (pidf_kd pidf)
          (pidf_kf pidf) x (get_last_state pidf).

(** Modelled from the spec: the constructor
    [pidf_controller{time_step, kp, ki, kd, kf}], with setpoint and last
    state at zero. *)
Definition new_pidf (time_step kp ki kd kf : D) : pidf_controller D :=
  mk_pidf time_step kp ki kd kf (of_int 0) (of_int 0).

(** Modelled from the spec: [velocity_flight_profile::put_vx], "[put(time,
    value)] inserts/overwrites". *)
Definition put_vx (t vx : D) (f : velocity_flight_profile D) : velocity_flight_profile D :=
  mk_vprofile (vfp_time_step f) (<[t := vx]> (vfp_vx f)) (vfp_vy f).

(** Modelled from the spec: [velocity_flight_profile::put_vy], as [put_vx]
    above. *)
Definition put_vy (t vy : D) (f : velocity_flight_profile D) : velocity_flight_profile D :=
  mk_vprofile (vfp_time_step f) (vfp_vx f) (<[t := vy]> (vfp_vy f)).

(** [p] and [v] are references to [d_mot[0]] and [d_mot[1]] of the body:
    each use reads the body as it is at that point. *)
Definition vdb_p (body : velocity_driven_body) : vector D :=
  default zero_vector (vdb_get_d_mot body !! 0%nat).
Definition vdb_v (body : velocity_driven_body) : vector D :=
  default zero_vector (vdb_get_d_mot body !! 1%nat).

(** The variables of the replay loop; the plot data and the window are
    not part of the state. *)
Record replay_state : Type := mk_replay {
  rp_body : velocity_driven_body;
  rp_pidf : pidf_controller D;
  rp_recorded_drag : list D;
  rp_profile : velocity_flight_profile D
}.

(** One iteration of [for (int i = 0; i < total_steps; ++i)]. *)
Definition replay_step (fitted : telemetry_flight_profile D) (time_step : D)
    (i : Z) (st : replay_state) : replay_state :=
  let cur_time_s := of_int i * time_step in
  let body := vdb_pre_compute (rp_body st) in
  let pidf := set_last_state (get_y (vdb_p body)) (rp_pidf st) in
  let telem_velocity := get_velocity fitted cur_time_s in
  let telem_alt := get_altitude fitted cur_time_s in
  let '(pidf, body) :=
    if negb (isnan telem_velocity) && negb (isnan telem_alt) then
      let pidf := set_setpoint telem_alt pidf in
      let new_velocity := adjust_velocity pidf (vdb_v body) telem_velocity in
      (pidf, vdb_set_velocity new_velocity body)
    else (pidf, body) in
  let drag_x := calc_drag_earth F9_CD (get_y (vdb_p body)) (get_x (vdb_v body)) F9_A in
  let drag_y := calc_drag_earth F9_CD (get_y (vdb_p body)) (get_y (vdb_v body)) F9_A in
  let cur_drag := mk_vector drag_x drag_y (of_int 0) in
  let recorded_drag := rp_recorded_drag st ++ [get_y cur_drag] in
  let body := vdb_compute_motion body in
  let body := vdb_post_compute body in
  let profile := put_vx cur_time_s (get_x (vdb_v body)) (rp_profile st) in
  let profile := put_vy cur_time_s (get_y (vdb_v body)) profile in
  mk_replay body pidf recorded_drag profile.

(** The part of [run_telemetry_profile::Calc] that follows the
    conditioning: the body and the controller are set up and the loop runs
    [total_steps] times on the conditioned profile [fitted], writing the
    decomposed velocity to [profile]. *)
Definition replay_init (profile : velocity_flight_profile D) : replay_state :=
  let total_mass := stage_1_dry_mass_kg + stage_1_fuel_mass_kg
                    + stage_2_dry_mass_kg + stage_2_fuel_mass_kg
                    + payload_mass_kg in
  let time_step := Calc_time_step in
  let body := new_velocity_driven_body total_mass 4 time_step in
  mk_replay body (new_pidf time_step (of_int 0) (of_int 0) (of_int 0) (of_int 0))
            [of_int 0] profile.

Definition replay_steps (fitted : telemetry_flight_profile D) (n : nat)
    (st : replay_state) : replay_state :=
  for_loop n (fun i => (i <? Calc_total_steps)%Z)
           (fun i st => (replay_step fitted Calc_time_step i st, false)) 0 st.

Definition replay (fitted : telemetry_flight_profile D)
    (profile : velocity_flight_profile D) : replay_state :=
  replay_steps fitted (Z.to_nat Calc_total_steps) (replay_init profile).

(** [run_telemetry_profile::Calc]: the conditioning, then the replay;
    [None] when [fuel] passes of the reconciliation did not reach a valid
    one. *)
Definition run_telemetry_profile_Calc {T : TelemProc D} (fuel : nat)
    (raw : telemetry_flight_profile D) (profile : velocity_flight_profile D)
  : option replay_state :=
  match Calc_conditioning fuel raw with
  | Some (fitted, _) => Some (replay fitted profile)
  | None => None
  end.

End Replay.

Arguments replay_state D {_ _ _}.

(** The lengths of the force slots, of the derivatives of motion and of
    the engines of a rocket, which the statements about the indexing of
    [forces] and [d_mot] name. *)
Definition shape {D : Type} (b : rocket D) : nat * nat * nat :=
  (length (forces b), length (d_mot b), length (engines b)).

(** Two states of the rocket used in examples: the rocket of [Calc] on the
    pad with an empty tank, and an empty velocity profile. *)
Definition drained_on_pad : rocket float :=
  mk_rocket (d_mot Calc_init) (prev_d_mot Calc_init) (forces Calc_init)
            (mass Calc_init) (fdb_time_step Calc_init) (of_int 0) (engines Calc_init).

Definition no_velocity_profile : velocity_flight_profile float :=
  mk_vprofile (of_int 1) ∅ ∅.

(** Profiles of four samples, at the times 0 to 3, used in examples. *)
Definition four_samples (v0 a0 v1 a1 v2 a2 v3 a3 : float)
  : telemetry_flight_profile float :=
  mk_profile (of_int 1) (of_int 0) (of_int 0)
    (<[of_int 0 := v0]> (<[of_int 1 := v1]> (<[of_int 2 := v2]> (<[of_int 3 := v3]> ∅))))
    (<[of_int 0 := a0]> (<[of_int 1 := a1]> (<[of_int 2 := a2]> (<[of_int 3 := a3]> ∅)))).

(** Climbing at 10 then 20 m/s through 50 and 100 m, then down to 30 m at
    100 m/s. *)
Definition climb_then_descend : telemetry_flight_profile float :=
  four_samples 0 0 10 50 20 100 100 30.

(** A velocity profile used in an example: at rest at time 0. *)
Definition at_rest_profile : velocity_flight_profile float :=
  mk_vprofile (of_int 1) (<[of_int 0 := of_int 0]> ∅) (<[of_int 0 := of_int 0]> ∅).

(** * Properties *)

(** ** The literals and a few evaluations *)

#[local] Set Warnings "-inexact-float".

(** [lit] gives the [double] that the compiler reads from each decimal
    literal of the sources. *)
Lemma lit_is_the_literal :
  (lit 0.2869 = 0.2869 /\ lit 273.1 = 273.1 /\ lit 131.21 = 131.21 /\
   lit 0.00299 = 0.00299 /\ lit 2.488 = 2.488 /\ lit 216.6 = 216.6 /\
   lit 11.388 = 11.388 /\ lit 22.65 = 22.65 /\ lit 1.73 = 1.73 /\
   lit 0.000157 = 0.000157 /\ lit 15.04 = 15.04 /\ lit 0.00649 = 0.00649 /\
   lit 101.29 = 101.29 /\ lit 288.08 = 288.08 /\ lit 5.256 = 5.256 /\
   lit 56.46 = 56.46 /\ lit 9.80665 = 9.80665 /\ lit 0.25 = 0.25 /\
   lit 2.6 = 2.6 /\ lit 1.0 = 1)%float.
Proof. repeat split; vm_compute; reflexivity. Qed.

Example calc_drag_exact :
  calc_drag (lit 0.25) (lit 1.25) (of_int 100) (of_int 20) = 31250%float.
Proof. vm_compute. reflexivity. Qed.

(** In IEEE arithmetic the drag is the formula up to rounding: here the
    exact value is 30625. *)
Example calc_drag_rounded :
  calc_drag (lit 0.25) (lit 1.225) (of_int 100) (of_int 20)
  = 30625.000000000004%float.
Proof. vm_compute. reflexivity. Qed.

Example signum_values :
  signum (-3)%float = (-1)%Z /\ signum 0%float = 0%Z /\ signum 2.5%float = 1%Z /\
  signum PrimFloat.nan = 0%Z.
Proof. repeat split; vm_compute; reflexivity. Qed.

Example adjust_velocity_liftoff :
  adjust_velocity (mk_pidf 1 0 0 0 0 0 7)%float (mk_vector 3 4 0)%float 30%float
  = (mk_vector 0 30 0)%float.
Proof. vm_compute. reflexivity. Qed.

Example adjust_velocity_clamped :
  adjust_velocity (mk_pidf 1 0 0 0 0 100 0)%float zero_vector 30%float
  = (mk_vector 0 30 0)%float.
Proof. vm_compute. reflexivity. Qed.

Example adjust_velocity_unclamped :
  adjust_velocity (mk_pidf 1 0 0 0 0 18 0)%float zero_vector 30%float
  = (mk_vector 24 18 0)%float.
Proof. vm_compute. reflexivity. Qed.

Example reconcile_climb_then_descend :
  (fun r => map (fun i => get_altitude r.1 (of_int i)) [0; 1; 2; 3; 4])
    <$> reconcile 500 climb_then_descend
  = Some [0; 10; 60; -10; PrimFloat.nan]%float.
Proof. vm_compute. reflexivity. Qed.

Lemma SFcompare_antisym (f1 f2 : spec_float) :
  SFcompare f2 f1 = option_map CompOpp (SFcompare f1 f2).
Proof.
  destruct f1 as [s1|s1| |s1 m1 e1], f2 as [s2|s2| |s2 m2 e2]; simpl;
    try reflexivity; try (destruct s1; reflexivity); try (destruct s2; reflexivity);
    try (destruct s1, s2; reflexivity).
  assert (Hm : PosDef.Pos.compare_cont Eq m2 m1
               = CompOpp (PosDef.Pos.compare_cont Eq m1 m2)).
  { change Eq with (CompOpp Eq) at 1. symmetry. apply Pos.compare_cont_antisym. }
  destruct s1, s2; simpl; try reflexivity;
    rewrite (Z.compare_antisym e1 e2), Hm;
    destruct (e1 ?= e2); simpl; try reflexivity.

Qed.

Lemma SFcompare_refl (f : spec_float) :
  f <> S754_nan -> SFcompare f f = Some Eq.
Proof.
  destruct f as [s|s| |s m e]; simpl; intros Hf; try congruence.
  - destruct s; reflexivity.
  - rewrite Z.compare_refl, Pos.compare_cont_refl. destruct s; reflexivity.
Qed.

Lemma SFcompare_None (f1 f2 : spec_float) :
  SFcompare f1 f2 = None <-> f1 = S754_nan \/ f2 = S754_nan.
Proof.
  destruct f1 as [s1|s1| |s1 m1 e1], f2 as [s2|s2| |s2 m2 e2]; simpl;
    split; intros Hc; try discriminate; try (destruct Hc; discriminate); auto.
Qed.

Lemma float_isnan_spec (x : float) :
  isnan x = true <-> Prim2SF x = S754_nan.
Proof.
  unfold isnan. cbn. rewrite FloatAxioms.eqb_spec. unfold SFeqb.
  split.
  - intros Hx. destruct (Prim2SF x) eqn:E; try reflexivity.
    all: rewrite SFcompare_refl in Hx by discriminate; discriminate.
  - intros ->. reflexivity.
Qed.

Lemma float_ltb_false_leb (x y : float) :
  isnan x = false -> isnan y = false -> (x <? y)%dbl = false -> (y <=? x)%dbl = true.
Proof.
  intros Hx Hy. cbn. rewrite FloatAxioms.ltb_spec, FloatAxioms.leb_spec. unfold SFltb, SFleb.
  rewrite (SFcompare_antisym (Prim2SF x) (Prim2SF y)).
  destruct (SFcompare (Prim2SF x) (Prim2SF y)) as [[]|] eqn:E; simpl; try congruence.
  apply SFcompare_None in E. intros _.
  destruct E as [E|E]; apply float_isnan_spec in E; congruence.
Qed.

Lemma float_nan_ltb (x y : float) :
  isnan x = true \/ isnan y = true -> (x <? y)%dbl = false /\ (x <=? y)%dbl = false.
Proof.
  intros Hn. cbn. rewrite FloatAxioms.ltb_spec, FloatAxioms.leb_spec. unfold SFltb, SFleb.
  assert (SFcompare (Prim2SF x) (Prim2SF y) = None) as ->; [|done].
  apply SFcompare_None. destruct Hn as [Hn|Hn]; apply float_isnan_spec in Hn; auto.
Qed.

Lemma float_below_11000_not_above_25000 (x : float) :
  PrimFloat.ltb x 11000%float = true -> PrimFloat.leb 25000%float x = false.
Proof.
  rewrite FloatAxioms.ltb_spec, FloatAxioms.leb_spec. unfold SFltb, SFleb.
  replace (Prim2SF 11000%float)
    with (S754_finite false 6047313952768000%positive (-39)%Z)
    by (vm_compute; reflexivity).
  replace (Prim2SF 25000%float)
    with (S754_finite false 6871947673600000%positive (-38)%Z)
    by (vm_compute; reflexivity).
  destruct (Prim2SF x) as [s|s| |s m e]; cbv beta iota delta [SFcompare];
    try discriminate; try reflexivity.
  - destruct s; intros; first [discriminate|reflexivity].
  - destruct s; [reflexivity|].
    destruct (Z.compare_spec e (-39)), (Z.compare_spec (-38) e);
      intros; first [discriminate|reflexivity|lia].
Qed.

Section DragFloat.
Context {L : Libm float}.
Local Open Scope dbl_scope.

Lemma band_of_no_band_iff (alt : float) :
  band_of alt = no_band <-> isnan alt = true.
Proof.
  assert (H25 : isnan (of_int 25000 : float) = false) by reflexivity.
  assert (H11 : isnan (of_int 11000 : float) = false) by reflexivity.
  unfold band_of. split.
  - destruct (isnan alt) eqn:Hn; [reflexivity|].
    destruct (alt >=? of_int 25000) eqn:E1; [done|].
    destruct (alt <? of_int 11000) eqn:E3.
    { destruct ((alt >=? of_int 11000) && _); done. }
    rewrite (float_ltb_false_leb _ _ Hn H11 E3). cbn [andb].
    destruct (alt <? of_int 25000) eqn:E2; [done|].
    rewrite (float_ltb_false_leb _ _ Hn H25 E2) in E1. done.
  - intros Hn.
    destruct (float_nan_ltb (of_int 25000) alt) as [_ ->]; [auto|].
    destruct (float_nan_ltb (of_int 11000) alt) as [_ ->]; [auto|].
    destruct (float_nan_ltb alt (of_int 11000)) as [-> _]; [auto|].
    reflexivity.
Qed.

Lemma band_of_troposphere_iff (alt : float) :
  band_of alt = troposphere <-> (alt <? of_int 11000) = true.
Proof.
  unfold band_of. split.
  - destruct (alt >=? of_int 25000); [done|].
    destruct ((alt >=? of_int 11000) && _); [done|].
    destruct (alt <? of_int 11000); done.
  - intros Hlt.
    assert (H25 : (alt >=? of_int 25000) = false)
      by exact (float_below_11000_not_above_25000 alt Hlt).
    assert (H11 : (alt >=? of_int 11000) = false).
    { destruct (alt >=? of_int 11000) eqn:E; [|done].
      revert Hlt E. cbn. rewrite FloatAxioms.ltb_spec, FloatAxioms.leb_spec.
      unfold SFltb, SFleb.
      rewrite (SFcompare_antisym (Prim2SF alt)).
      destruct (SFcompare (Prim2SF alt) _) as [[]|]; done. }
    rewrite H25, H11, Hlt. reflexivity.
Qed.

Lemma calc_pressure_earth_by_band {D} `{Arith D} `{Libm D} (alt : D) :
  calc_pressure_earth alt = band_pressure (band_of alt) alt.
Proof.
  unfold calc_pressure_earth, band_of.
  destruct (alt >=? of_int 25000); [reflexivity|].
  destruct ((alt >=? of_int 11000) && _); [reflexivity|].
  destruct (alt <? of_int 11000); reflexivity.
Qed.

Lemma calc_rho_earth_by_band {D} `{Arith D} `{Libm D} (alt : D) :
  calc_rho_earth alt = band_density (band_of alt) alt.
Proof.
  unfold calc_rho_earth, band_of.
  destruct (alt >=? of_int 25000); [reflexivity|].
  destruct ((alt >=? of_int 11000) && _); [reflexivity|].
  destruct (alt <? of_int 11000); reflexivity.
Qed.

(** C9, as amended.  In IEEE arithmetic the chain of comparisons leaves no
    number without a band: the fall-through that returns the sentinel [-1]
    is taken exactly when the altitude is NaN, and every altitude below
    11000, however low, is in the troposphere band, where both functions
    evaluate the troposphere formula. *)
Theorem sentinel_only_for_nan (alt : float) :
  (band_of alt = no_band <-> isnan alt = true) /\
  (band_of alt = troposphere <-> (alt <? of_int 11000) = true) /\
  calc_pressure_earth alt = band_pressure (band_of alt) alt /\
  calc_rho_earth alt = band_density (band_of alt) alt /\
  band_pressure no_band alt = of_int (-1) /\
  band_density no_band alt = of_int (-1).
Proof.
  split; [apply band_of_no_band_iff|].
  split; [apply band_of_troposphere_iff|].
  split; [apply calc_pressure_earth_by_band|].
  split; [apply calc_rho_earth_by_band|].
  split; reflexivity.
Qed.

End DragFloat.

Lemma calc_pressure_earth_band {D} `{Arith D} `{Libm D} (alt : D) :
  (calc_pressure_earth alt = of_int (-1) /\ band_of alt = no_band) \/ band_of alt <> no_band.
Proof.
  unfold calc_pressure_earth, band_of.
  destruct (alt >=? of_int 25000)%dbl; [right; discriminate|].
  destruct ((alt >=? of_int 11000)%dbl && _); [right; discriminate|].
  destruct (alt <? of_int 11000)%dbl; [right; discriminate|]. left; done.
Qed.

Section DragReal.
Local Open Scope R_scope.

Lemma Rpower_pos (x y : R) : 0 < Rpower x y.
Proof. unfold Rpower. apply exp_pos. Qed.

Lemma calc_pressure_earth_pos (alt : R) : 0 < calc_pressure_earth alt.
Proof.
  unfold calc_pressure_earth, lit. cbn.
  destruct (Rle_dec 25000 alt); [|destruct (Rle_dec 11000 alt); [destruct (Rlt_dec alt 25000)|]; simpl;
     [| |destruct (Rlt_dec alt 11000)]].
  all: try (apply Rmult_lt_0_compat; [lra| first [apply Rpower_pos | apply exp_pos]]).
  all: lra.
Qed.

Lemma calc_rho_earth_pos (alt : R) : 0 < calc_rho_earth alt.
Proof.
  unfold calc_rho_earth, calc_rho_ideal_state, lit. cbn.
  destruct (Rle_dec 25000 alt); [|destruct (Rle_dec 11000 alt); [destruct (Rlt_dec alt 25000)|]; simpl;
     [| |destruct (Rlt_dec alt 11000)]].
  all: try (apply Rdiv_lt_0_compat; [apply Rmult_lt_0_compat; [lra| first [apply Rpower_pos | apply exp_pos]]|lra]).
  all: lra.
Qed.

(** C9, the claim as stated fails: 1000 m below sea level is below every
    band boundary, and there the comparisons select the troposphere band
    (IEEE) and both functions return a positive value, not [-1] (reals). *)
Lemma below_troposphere_is_computed :
  band_of (of_int (-1000) : float) = troposphere /\
  0 < calc_pressure_earth (-1000) /\
  0 < calc_rho_earth (-1000) /\
  calc_pressure_earth (-1000) <> of_int (-1) /\
  calc_rho_earth (-1000) <> of_int (-1).
Proof.
  pose proof (calc_pressure_earth_pos (-1000)) as Hp.
  pose proof (calc_rho_earth_pos (-1000)) as Hr.
  split; [vm_compute; reflexivity|].
  split; [exact Hp|]. split; [exact Hr|].
  split; cbn; lra.
Qed.

End DragReal.

(** ** [adjust_velocity] *)

Lemma adjust_velocity_zero_setpoint {D} `{Arith D} (pidf : pidf_controller D)
    (cur_v : vector D) (mag_v : D) :
  (get_setpoint pidf =? of_int 0)%dbl = true ->
  adjust_velocity pidf cur_v mag_v = mk_vector (of_int 0) mag_v (of_int 0).
Proof. unfold adjust_velocity. intros ->. reflexivity. Qed.

(** ** Loops *)

Lemma for_loop_fold {S : Type} (cond : Z -> bool) (f : Z -> S -> S)
    (n fuel : nat) (i : Z) (s : S) :
  (forall k, i <= k < i + Z.of_nat n -> cond k = true) ->
  cond (i + Z.of_nat n) = false ->
  (n < fuel)%nat ->
  for_loop fuel cond (fun k s => (f k s, false)) i s
  = fold_left (fun s k => f k s) (map (fun k => i + Z.of_nat k) (seq 0 n)) s.
Proof.
  revert fuel i s. induction n as [|n IH]; intros fuel i s Hc Hn Hf.
  - destruct fuel; [lia|]. simpl. rewrite Z.add_0_r in Hn. rewrite Hn. reflexivity.
  - destruct fuel; [lia|]. simpl.
    rewrite Hc by lia. rewrite IH.
    + rewrite Z.add_0_r. rewrite <- seq_shift, map_map.
      f_equal. apply map_ext. intros k. lia.
    + intros k Hk. apply Hc. lia.
    + rewrite <- Hn. f_equal. lia.
    + lia.
Qed.

Lemma below_bound_by_computation (cond : Z -> bool) (n : nat) :
  forallb (fun k => cond (Z.of_nat k)) (seq 0 n) = true ->
  forall k, 0 <= k < 0 + Z.of_nat n -> cond k = true.
Proof.
  intros Hall k Hk. rewrite forallb_forall in Hall.
  specialize (Hall (Z.to_nat k)). rewrite Z2Nat.id in Hall by lia.
  apply Hall. apply in_seq. lia.
Qed.

(** ** The dynamics simulation *)

Section DynamicsFacts.
Context {D : Type} `{Arith D} `{Libm D} `{HasNaN D} `{Countable D}.
Local Open Scope dbl_scope.

Lemma normal_loop_y (k : nat) (fs : list (vector D)) (new_n : vector D) :
  get_y (normal_loop k fs new_n) = fold_left Dadd (downward_others k fs) (get_y new_n).
Proof.
  revert k new_n. induction fs as [|force fs IH]; intros k new_n; [reflexivity|].
  simpl. rewrite IH. destruct (k =? 1)%nat; simpl; [reflexivity|].
  destruct (get_y force <? of_int 0); reflexivity.
Qed.

Lemma get_v_set_velocity_zero (b : rocket D) :
  get_v (set_velocity zero_vector b) = zero_vector.
Proof.
  unfold get_v, set_velocity, set_d_mot. simpl.
  destruct (decide (1 < length (d_mot b))%nat) as [Hl|Hl].
  - rewrite list_lookup_insert_eq by exact Hl. reflexivity.
  - rewrite list_insert_ge by lia. rewrite lookup_ge_None_2 by lia. reflexivity.
Qed.

Lemma normal_force_step_forces (b : rocket D) :
  forces (normal_force_step b)
  = <[1%nat := if get_y (get_p b) <? of_int 0
               then normal_loop 0 (forces b) zero_vector else zero_vector]> (forces b).
Proof.
  unfold normal_force_step.
  destruct (get_y (get_p b) <? of_int 0); [|reflexivity].
  destruct (get_y (get_v b) <? of_int 0); reflexivity.
Qed.

Lemma normal_force_step_velocity (b : rocket D) :
  get_v (normal_force_step b)
  = if (get_y (get_p b) <? of_int 0) && (get_y (get_v b) <? of_int 0)
    then zero_vector else get_v b.
Proof.
  unfold normal_force_step.
  destruct (get_y (get_p b) <? of_int 0); [|reflexivity].
  destruct (get_y (get_v b) <? of_int 0); simpl; [|reflexivity].
  apply get_v_set_velocity_zero.
Qed.

Lemma weight_drag_step_forces (b : rocket D) (k : nat) :
  k <> 0%nat -> k <> 2%nat -> forces (weight_drag_step b) !! k = forces b !! k.
Proof.
  intros Hk0 Hk2. unfold weight_drag_step. simpl.
  rewrite !list_lookup_insert_ne by congruence. reflexivity.
Qed.

Lemma thrust_loop_frame (es : list (engine D)) (t : D) (b : rocket D) :
  let b' := (thrust_loop es t b).2 in
  d_mot b' = d_mot b /\ prev_d_mot b' = prev_d_mot b /\ forces b' = forces b /\
  mass b' = mass b /\ fdb_time_step b' = fdb_time_step b /\ engines b' = engines b.
Proof.
  revert t b. induction es as [|e es IH]; intros t b; simpl; [done|].
  specialize (IH (t + get_thrust e)
    (drain_propellant (get_prop_flow_rate e / ACCEL_G * TIME_STEP) b)).
  simpl in IH. exact IH.
Qed.

Lemma thrust_step_forces (profile : velocity_flight_profile D) (t : D)
    (b : rocket D) (out : list (report D)) (k : nat) :
  k <> 3%nat -> forces (thrust_step profile t (b, out)).1 !! k = forces b !! k.
Proof.
  intros Hk. unfold thrust_step.
  set (tracking := negb (isnan (get_vx profile t)) && negb (isnan (get_vy profile t))).
  set (b1 := if tracking then _ else b).
  assert (Hb1 : forces b1 = forces b) by (subst b1; destruct tracking; reflexivity).
  destruct (t =? of_int 155).
  - set (b2 := set_mass _ b1).
    set (b3 := if t >? of_int 155 then _ else b2).
    assert (Hb3 : forces b3 = forces b)
      by (subst b3 b2; destruct (t >? of_int 155); simpl; exact Hb1).
    pose proof (thrust_loop_frame (engines b3) (of_int 0) b3) as Hf.
    destruct (thrust_loop (engines b3) (of_int 0) b3) as [tn b4]. simpl in Hf.
    destruct Hf as (_ & _ & Hf & _). simpl.
    rewrite list_lookup_insert_ne by congruence. rewrite Hf, Hb3. reflexivity.
  - set (b3 := if t >? of_int 155 then _ else b1).
    assert (Hb3 : forces b3 = forces b)
      by (subst b3; destruct (t >? of_int 155); simpl; exact Hb1).
    pose proof (thrust_loop_frame (engines b3) (of_int 0) b3) as Hf.
    destruct (thrust_loop (engines b3) (of_int 0) b3) as [tn b4]. simpl in Hf.
    destruct Hf as (_ & _ & Hf & _). simpl.
    rewrite list_lookup_insert_ne by congruence. rewrite Hf, Hb3. reflexivity.
Qed.

Lemma integrate_forces (b : rocket D) : forces (integrate b) = forces b.
Proof. reflexivity. Qed.

Lemma Calc_step_normal_slot (profile : velocity_flight_profile D) (i : Z)
    (body : rocket D) (out : list (report D)) :
  forces (Calc_step profile i (body, out)).1 !! 1%nat
  = forces (normal_force_step (pre_compute body)) !! 1%nat.
Proof.
  unfold Calc_step.
  destruct (get_prop_mass _ <=? of_int 0).
  - simpl. apply weight_drag_step_forces; congruence.
  - destruct (thrust_step _ _ _) as [b' out'] eqn:E. cbn [fst].
    rewrite integrate_forces.
    change b' with (b', out').1. rewrite <- E.
    rewrite thrust_step_forces by congruence.
    apply weight_drag_step_forces; congruence.
Qed.

(** C5, as amended.  In every step the normal force slot [forces[1]] is
    rewritten: when the altitude is below zero ([p.y < 0], strictly) with
    the vector whose y component adds up [- force.y] over the other forces
    that point down, and with the zero vector otherwise (altitude zero or
    positive, or NaN); the velocity is reset to the zero vector exactly
    when moreover [v.y < 0]. *)
Theorem normal_force_below_ground (profile : velocity_flight_profile D) (i : Z)
    (body : rocket D) (out : list (report D)) :
  let below := get_y (get_p body) <? of_int 0 in
  let new_n := if below then normal_loop 0 (forces body) zero_vector else zero_vector in
  forces (Calc_step profile i (body, out)).1 !! 1%nat
    = <[1%nat := new_n]> (forces body) !! 1%nat /\
  get_y (normal_loop 0 (forces body) zero_vector)
    = fold_left Dadd (downward_others 0 (forces body)) (of_int 0) /\
  get_v (normal_force_step (pre_compute body))
    = if below && (get_y (get_v body) <? of_int 0) then zero_vector else get_v body.
Proof.
  intros below new_n. split; [|split].
  - rewrite Calc_step_normal_slot, normal_force_step_forces. reflexivity.
  - apply normal_loop_y.
  - rewrite normal_force_step_velocity. reflexivity.
Qed.

Lemma weight_drag_step_frame (b : rocket D) :
  let b' := weight_drag_step b in
  d_mot b' = d_mot b /\ mass b' = mass b /\ prop_mass b' = prop_mass b /\
  engines b' = engines b.
Proof. done. Qed.

Lemma normal_force_step_frame (b : rocket D) :
  let b' := normal_force_step b in
  get_p b' = get_p b /\ get_a b' = get_a b /\ get_j b' = get_j b /\
  mass b' = mass b /\ prop_mass b' = prop_mass b /\ engines b' = engines b.
Proof.
  unfold normal_force_step.
  destruct (get_y (get_p b) <? of_int 0); [|done].
  destruct (get_y (get_v b) <? of_int 0); [|done].
  unfold get_p, get_a, get_j. simpl.
  rewrite !list_lookup_insert_ne by congruence. done.
Qed.

Lemma Calc_step_cases (profile : velocity_flight_profile D) (i : Z)
    (body : rocket D) (out : list (report D)) :
  let after := weight_drag_step (normal_force_step (pre_compute body)) in
  Calc_step profile i (body, out)
    = (if get_prop_mass body <=? of_int 0
       then (after, out ++ [No_propellant (of_int i * TIME_STEP)])
       else let '(b, o) := thrust_step profile (of_int i * TIME_STEP) (after, out) in
            (integrate b, o)) /\
  (get_p after = get_p body /\ get_a after = get_a body /\ get_j after = get_j body /\
   mass after = mass body /\ prop_mass after = prop_mass body /\
   engines after = engines body /\ forces after !! 3%nat = forces body !! 3%nat).
Proof.
  intros after.
  pose proof (normal_force_step_frame (pre_compute body)) as (Hp & Ha & Hj & Hm & Hpm & He).
  pose proof (weight_drag_step_frame (normal_force_step (pre_compute body)))
    as (Hd & Hm' & Hpm' & He').
  fold after in Hd, Hm', Hpm', He'.
  assert (Hprop : get_prop_mass after = get_prop_mass body).
  { unfold get_prop_mass. rewrite Hpm', Hpm. reflexivity. }
  split.
  - unfold Calc_step. fold after. rewrite Hprop. reflexivity.
  - unfold get_p, get_a, get_j in *. rewrite Hd, Hm', Hpm', He'.
    repeat split; try assumption.
    subst after. rewrite weight_drag_step_forces by congruence.
    rewrite normal_force_step_forces.
    rewrite list_lookup_insert_ne by congruence. reflexivity.
Qed.

End DynamicsFacts.

Lemma run_test_rocket_Calc_steps {L : Libm float} (profile : velocity_flight_profile float) :
  run_test_rocket_Calc profile
  = fold_left (fun st k => Calc_step profile k st) (map Z.of_nat (seq 0 400))
              (Calc_init, []).
Proof.
  unfold run_test_rocket_Calc, Calc_steps.
  replace (Z.to_nat (to_int (to_ticks 400 : float))) with 400%nat
    by (vm_compute; reflexivity).
  rewrite (for_loop_fold _ (Calc_step profile) 400 401 0).
  - reflexivity.
  - apply below_bound_by_computation. vm_compute. reflexivity.
  - vm_compute. reflexivity.
  - lia.
Qed.

(** C4, as amended.  A step of the dynamics simulation refreshes the
    normal force, the weight and the drag; if then the remaining propellant
    is [<= 0], the step reports it and ends there: what follows in the loop
    body (throttle, stage separation, thrust and propellant flow, and also
    force aggregation, motion computation and state commit) is not run, so
    position, acceleration, jerk, mass, propellant, engines and the thrust
    slot are those the step started with.  The loop itself runs its 400
    steps whatever the propellant. *)
Theorem depleted_step_ends_at_the_check {L : Libm float}
    (profile : velocity_flight_profile float) (i : Z)
    (body : rocket float) (out : list (report float)) :
  let after := weight_drag_step (normal_force_step (pre_compute body)) in
  Calc_step profile i (body, out)
    = (if (get_prop_mass body <=? of_int 0)%dbl
       then (after, out ++ [No_propellant (of_int i * TIME_STEP)%dbl])
       else let '(b, o) := thrust_step profile (of_int i * TIME_STEP)%dbl (after, out) in
            (integrate b, o)) /\
  (get_p after = get_p body /\ get_a after = get_a body /\ get_j after = get_j body /\
   mass after = mass body /\ prop_mass after = prop_mass body /\
   engines after = engines body /\ forces after !! 3%nat = forces body !! 3%nat) /\
  run_test_rocket_Calc profile
    = fold_left (fun st k => Calc_step profile k st) (map Z.of_nat (seq 0 400))
                (Calc_init, []).
Proof.
  intros after.
  destruct (Calc_step_cases profile i body out) as [Hstep Hframe].
  split; [exact Hstep|]. split; [exact Hframe|].
  apply run_test_rocket_Calc_steps.
Qed.

(** C4, the claim as stated fails: with an empty tank on the pad the step
    of the program leaves the acceleration at zero, where a step that went
    on to aggregate the forces and compute the motion gives the rocket the
    downward acceleration of its weight. *)
Lemma depleted_step_does_not_integrate :
  (get_prop_mass drained_on_pad <=? of_int 0)%dbl = true /\
  (forall L : Libm float,
     get_a (Calc_step no_velocity_profile 0 (drained_on_pad, [])).1 = zero_vector /\
     get_p (Calc_step no_velocity_profile 0 (drained_on_pad, [])).1 = zero_vector) /\
  (forall L : Libm float,
     (get_y (get_a (Calc_step_as_claimed no_velocity_profile 0 (drained_on_pad, [])).1)
        <? of_int 0)%dbl = true /\
     (get_y (get_p (Calc_step_as_claimed no_velocity_profile 0 (drained_on_pad, [])).1)
        <? of_int 0)%dbl = true).
Proof.
  split; [vm_compute; reflexivity|].
  split; intros L; split; vm_compute; reflexivity.
Qed.

(** C5, the claim as stated fails: the rocket of [Calc] before the first
    step stands at altitude zero under its weight, and the normal force
    slot is set to the zero vector, not to the opposite of the weight. *)
Lemma no_normal_force_at_altitude_zero :
  (get_y (get_p (Calc_init : rocket float)) <=? of_int 0)%dbl = true /\
  (get_y (get_p (Calc_init : rocket float)) <? of_int 0)%dbl = false /\
  forces (normal_force_step (pre_compute (Calc_init : rocket float))) !! 1%nat
    = Some zero_vector /\
  (get_y (normal_loop 0 (forces (Calc_init : rocket float)) zero_vector)
     >? of_int 0)%dbl = true.
Proof. repeat split; vm_compute; reflexivity. Qed.

(** ** [setup_flight_profile] *)

Section SetupFacts.
Context {D : Type} `{Arith D} `{HasNaN D} `{Countable D} {T : TelemProc D}.
Local Open Scope dbl_scope.

Lemma get_altitude_put (f : telemetry_flight_profile D) (t t' a : D) :
  get_altitude (put_altitude t a f) t' = if decide (t = t') then a else get_altitude f t'.
Proof.
  unfold get_altitude, put_altitude. simpl.
  destruct (decide (t = t')) as [->|Hne].
  - rewrite lookup_insert_eq. reflexivity.
  - rewrite lookup_insert_ne by exact Hne. reflexivity.
Qed.

Lemma rewrite_middle_snoc (P : polynomial) (ts : list D) (t : D)
    (f : telemetry_flight_profile D) :
  rewrite_middle P (ts ++ [t]) f = put_altitude t (val P t) (rewrite_middle P ts f).
Proof. unfold rewrite_middle. rewrite fold_left_app. reflexivity. Qed.


Lemma rewrite_legs_lookup (events : list D) (alt_fit : list polynomial)
    (f : telemetry_flight_profile D) (t : D) :
  altitude (rewrite_legs events alt_fit f) !! t
  = (fun alt => default alt (leg_rewrite events alt_fit t)) <$> altitude f !! t.
Proof.
  unfold rewrite_legs. simpl. rewrite map_lookup_imap.
  destruct (altitude f !! t); reflexivity.
Qed.


End SetupFacts.

(** ** The reconciliation loop *)

Section ReconcileFacts.
Context {D : Type} `{Arith D} `{HasNaN D} `{Countable D}.
Local Open Scope dbl_scope.

Lemma get_velocity_put (f : telemetry_flight_profile D) (t t' a : D) :
  get_velocity (put_altitude t a f) t' = get_velocity f t'.
Proof. reflexivity. Qed.

(** The time step [ts], the horizon [max_time] and the number [n] of steps
    of the two loops, with what the proofs need of the arithmetic on the
    grid of times: the order of the times is the order of the steps, and
    [i < max_time / ts] holds for the steps below [n] only. *)
Variables (ts max_time : D) (n : nat).
Hypothesis grid_lt : forall i j : nat,
  (i < n)%nat -> (j < n)%nat -> (grid ts i <? grid ts j) = (i <? j)%nat.

Lemma grid_inj (i j : nat) :
  (i < n)%nat -> (j < n)%nat -> grid ts i = grid ts j -> i = j.
Proof.
  intros Hi Hj Heq.
  pose proof (grid_lt i j Hi Hj) as Hij. pose proof (grid_lt j i Hj Hi) as Hji.
  rewrite Heq in Hij, Hji. rewrite (grid_lt j j Hj Hj), Nat.ltb_irrefl in Hij, Hji.
  destruct (Nat.ltb_spec i j); [done|]. destruct (Nat.ltb_spec j i); [done|]. lia.
Qed.

Variables (orig f : telemetry_flight_profile D) (b : nat).
Hypothesis f_time_step : time_step f = ts.
Hypothesis b_lt : (b < n)%nat.

Lemma writes_time_step (k : nat) : time_step (writes ts orig f b k) = ts.
Proof. induction k; simpl; assumption. Qed.

Lemma writes_velocity (k : nat) : velocity (writes ts orig f b k) = velocity f.
Proof. induction k; simpl; [reflexivity|assumption]. Qed.

Lemma get_velocity_writes (k : nat) (t : D) :
  get_velocity (writes ts orig f b k) t = get_velocity f t.
Proof. unfold get_velocity. rewrite writes_velocity. reflexivity. Qed.

Lemma writes_lookup (k i : nat) :
  (i < n)%nat -> (k <= n)%nat ->
  get_altitude (writes ts orig f b k) (grid ts i)
  = if (i <? k)%nat then written orig f ts b i else get_altitude f (grid ts i).
Proof.
  clear b_lt f_time_step.
  intros Hi. induction k as [|k IH]; intros Hk; [reflexivity|].
  simpl writes. rewrite get_altitude_put.
  destruct (decide (grid ts k = grid ts i)) as [Heq|Hne].
  - apply grid_inj in Heq; [|lia|lia]. subst k.
    destruct (Nat.ltb_spec i (Datatypes.S i)); [reflexivity|lia].
  - rewrite IH by lia.
    destruct (Nat.ltb_spec i k), (Nat.ltb_spec i (Datatypes.S k)); try reflexivity; try lia.
    assert (i = k) by lia. subst i. congruence.
Qed.

Lemma writes_elsewhere (k : nat) (t : D) :
  (forall i, (i < k)%nat -> t <> grid ts i) ->
  get_altitude (writes ts orig f b k) t = get_altitude f t.
Proof.
  clear b_lt f_time_step grid_lt.
  induction k as [|k IH]; intros Ht; [reflexivity|].
  simpl writes. rewrite get_altitude_put.
  destruct (decide (grid ts k = t)) as [Heq|Hne].
  - exfalso. apply (Ht k); [lia|]. symmetry. exact Heq.
  - apply IH. intros i Hi. apply Ht. lia.
Qed.

Lemma adjust_altitude_body_at (i : nat) :
  (i < n)%nat ->
  adjust_altitude_body orig (grid ts b) (Z.of_nat i) (adjust_state_at ts orig f b i)
  = if (b <=? i)%nat && (written orig f ts b i >=? get_altitude f (grid ts i))
    then (mk_adjust (adj_last_t (adjust_state_at ts orig f b i))
                    (adj_last_alt (adjust_state_at ts orig f b i))
                    (velocity_integral f ts i) (writes ts orig f b i), true)
    else (adjust_state_at ts orig f b (Datatypes.S i), false).
Proof.
  intros Hi. unfold adjust_altitude_body.
  cbn [adj_fitted adjust_state_at adj_last_t adj_last_alt adj_v_integral].
  unfold get_time_step. rewrite writes_time_step.
  change (of_int (Z.of_nat i) * ts) with (grid ts i).
  rewrite (writes_lookup i i Hi) by lia.
  rewrite Nat.ltb_irrefl.
  rewrite get_velocity_writes.
  rewrite (grid_lt i b Hi b_lt).
  assert (Hint : (match i with O => of_int 0 | Datatypes.S i' => velocity_integral f ts i' end)
                 + get_velocity f (grid ts i) * ts = velocity_integral f ts i)
    by (destruct i; reflexivity).
  rewrite Hint.
  destruct (Nat.ltb_spec i b) as [Hlt|Hge].
  - destruct (Nat.leb_spec b i) as [Hle|_]; [lia|]. cbn [andb].
    assert (Hw : written orig f ts b i = velocity_integral f ts i).
    { destruct i as [|i']; simpl.
      - destruct (Nat.ltb_spec 0 b); [reflexivity|lia].
      - destruct (Nat.ltb_spec (Datatypes.S i') b); [reflexivity|lia]. }
    unfold adjust_state_at. cbn [prev_time writes]. rewrite Hw. reflexivity.
  - destruct (Nat.leb_spec b i) as [_|Hlt]; [|lia]. cbn [andb].
    assert (Hw : (match i with O => of_int 0 | Datatypes.S i' => written orig f ts b i' end)
                 + (get_altitude orig (grid ts i) - get_altitude orig (prev_time ts i))
                 = written orig f ts b i).
    { destruct i as [|i']; simpl.
      - destruct (Nat.ltb_spec 0 b); [lia|reflexivity].
      - destruct (Nat.ltb_spec (Datatypes.S i') b); [lia|reflexivity]. }
    rewrite Hw.
    destruct (written orig f ts b i >=? get_altitude f (grid ts i)); reflexivity.
Qed.

Hypothesis bound_below : forall i : nat,
  (i < n)%nat -> (of_int (Z.of_nat i) <? max_time / ts) = true.
Hypothesis bound_at : (of_int (Z.of_nat n) <? max_time / ts) = false.

Lemma adjust_loop_from (m i : nat) :
  (i + m = n)%nat ->
  adj_fitted (for_loop (Datatypes.S m) (fun i => of_int i <? max_time / ts)
                       (adjust_altitude_body orig (grid ts b))
                       (Z.of_nat i) (adjust_state_at ts orig f b i))
  = writes ts orig f b (stop_from orig f ts b m i).
Proof.
  revert i. induction m as [|m IH]; intros i Him.
  - rewrite Nat.add_0_r in Him. subst i. simpl. rewrite bound_at. reflexivity.
  - cbn [for_loop]. rewrite bound_below by lia.
    rewrite adjust_altitude_body_at by lia. cbn [stop_from].
    destruct ((b <=? i)%nat && _); [reflexivity|].
    replace (Z.of_nat i + 1)%Z with (Z.of_nat (Datatypes.S i)) by lia.
    apply IH. lia.
Qed.

Hypothesis bound_fuel : Z.to_nat (to_int (max_time / ts)) = n.

Lemma adjust_altitude_writes :
  adjust_altitude orig f (grid ts b) max_time
  = writes ts orig f b (stop_index orig f ts b n).
Proof.
  unfold adjust_altitude, get_time_step. rewrite f_time_step, bound_fuel.
  apply (adjust_loop_from n 0). reflexivity.
Qed.

End ReconcileFacts.

Lemma find_seq_Some (p : nat -> bool) (i m k : nat) :
  find p (seq i m) = Some k ->
  (i <= k < i + m)%nat /\ p k = true /\ forall j, (i <= j < k)%nat -> p j = false.
Proof.
  revert i. induction m as [|m IH]; intros i; simpl; [discriminate|].
  destruct (p i) eqn:Hp.
  - intros [= <-]. split; [lia|]. split; [exact Hp|]. intros j Hj. lia.
  - intros Hf. apply IH in Hf as (Hk & Hpk & Hfirst).
    split; [lia|]. split; [exact Hpk|].
    intros j Hj. destruct (decide (j = i)) as [->|Hne]; [exact Hp|].
    apply Hfirst. lia.
Qed.

Lemma find_seq_None (p : nat -> bool) (i m : nat) :
  find p (seq i m) = None -> forall j, (i <= j < i + m)%nat -> p j = false.
Proof.
  revert i. induction m as [|m IH]; intros i; simpl; [intros _ j Hj; lia|].
  destruct (p i) eqn:Hp; [discriminate|].
  intros Hf j Hj. destruct (decide (j = i)) as [->|Hne]; [exact Hp|].
  apply (IH (Datatypes.S i) Hf). lia.
Qed.

Lemma last_cons_default {A : Type} (x : A) (l : list A) (d : A) :
  List.last (x :: l) d = List.last l x.
Proof.
  revert x d. induction l as [|y l IH]; intros x d; [reflexivity|].
  change (List.last (x :: y :: l) d) with (List.last (y :: l) d).
  rewrite (IH y d), (IH y x). reflexivity.
Qed.

Section ScanFacts.
Context {D : Type} `{Arith D} `{HasNaN D} `{Countable D}.
Local Open Scope dbl_scope.
Variables (ts max_time : D) (n : nat).
Variables (orig f : telemetry_flight_profile D) (lct : D) (log : list D).

Lemma scan_body_at (i : nat) :
  scan_body orig ts max_time (Z.of_nat i) (scan_state_at ts f lct log i)
  = if triggers f ts lct i then (corrected_state ts max_time orig f log i, true)
    else (scan_state_at ts f lct log (Datatypes.S i), false).
Proof.
  unfold scan_body, triggers, insufficient_velocity, scan_state_at, corrected_state.
  cbn [scan_fitted scan_last_t scan_last_alt last_corrected_time rec_log scan_valid].
  change (of_int (Z.of_nat i) * ts) with (grid ts i).
  destruct (_ && _); reflexivity.
Qed.

Lemma scan_loop_from (m i : nat) :
  (i + m = n)%nat ->
  for_loop m (fun k => (k <? Z.of_nat n)%Z) (scan_body orig ts max_time)
           (Z.of_nat i) (scan_state_at ts f lct log i)
  = match find (triggers f ts lct) (seq i m) with
    | Some k => corrected_state ts max_time orig f log k
    | None => scan_state_at ts f lct log n
    end.
Proof.
  revert i. induction m as [|m IH]; intros i Him.
  - rewrite Nat.add_0_r in Him. subst i. reflexivity.
  - cbn [for_loop seq find].
    destruct (Z.ltb_spec (Z.of_nat i) (Z.of_nat n)) as [_|Hge]; [|lia].
    rewrite scan_body_at. destruct (triggers f ts lct i); [reflexivity|].
    replace (Z.of_nat i + 1)%Z with (Z.of_nat (Datatypes.S i)) by lia.
    apply IH. lia.
Qed.

Lemma scan_pass_first_trigger :
  scan_pass orig ts max_time (Z.of_nat n) lct f log
  = match first_trigger f ts lct n with
    | Some k => corrected_state ts max_time orig f log k
    | None => scan_state_at ts f lct log n
    end.
Proof.
  unfold scan_pass, first_trigger. rewrite Nat2Z.id.
  apply (scan_loop_from n 0). reflexivity.
Qed.

End ScanFacts.

Lemma increasing_length (n lo : nat) (js : list nat) :
  StronglySorted lt (lo :: js) -> Forall (fun k => (k < n)%nat) js ->
  (lo + length js < n \/ js = [])%nat.
Proof.
  revert lo. induction js as [|k js IH]; intros lo Hs Hb; [right; reflexivity|].
  left. apply StronglySorted_inv in Hs as [Hs Hall].
  apply Forall_cons in Hall as [Hlo _]. apply Forall_cons in Hb as [Hk Hb].
  destruct (IH k Hs Hb) as [Hl| ->]; simpl; lia.
Qed.

Section LoopFacts.
Context {D : Type} `{Arith D} `{HasNaN D} `{Countable D}.
Local Open Scope dbl_scope.
Variables (ts max_time : D) (n : nat).
Hypothesis grid_lt : forall i j : nat,
  (i < n)%nat -> (j < n)%nat -> (grid ts i <? grid ts j) = (i <? j)%nat.
Hypothesis bound_below : forall i : nat,
  (i < n)%nat -> (of_int (Z.of_nat i) <? max_time / ts) = true.
Hypothesis bound_at : (of_int (Z.of_nat n) <? max_time / ts) = false.
Hypothesis bound_fuel : Z.to_nat (to_int (max_time / ts)) = n.
Variable orig : telemetry_flight_profile D.

Lemma reconcile_loop_S (m : nat) (lct : D) (f : telemetry_flight_profile D)
    (log : list D) :
  reconcile_loop (Datatypes.S m) orig ts max_time (Z.of_nat n) lct f log
  = match first_trigger f ts lct n with
    | Some k =>
        reconcile_loop m orig ts max_time (Z.of_nat n) (grid ts k)
                       (adjust_altitude orig f (grid ts k) max_time)
                       (log ++ [grid ts k])
    | None => Some (f, log)
    end.
Proof.
  cbn [reconcile_loop]. rewrite scan_pass_first_trigger.
  destruct (first_trigger f ts lct n); reflexivity.
Qed.

Lemma reconcile_loop_more_fuel (m m' : nat) (lct : D)
    (f : telemetry_flight_profile D) (log : list D)
    (r : telemetry_flight_profile D * list D) :
  (m <= m')%nat ->
  reconcile_loop m orig ts max_time (Z.of_nat n) lct f log = Some r ->
  reconcile_loop m' orig ts max_time (Z.of_nat n) lct f log = Some r.
Proof.
  clear grid_lt bound_below bound_at bound_fuel.
  revert m' lct f log. induction m as [|m IH]; intros m' lct f log Hm; [discriminate|].
  destruct m' as [|m']; [lia|]. rewrite !reconcile_loop_S.
  destruct (first_trigger f ts lct n); [|done]. apply IH. lia.
Qed.

Lemma trigger_is_later (f : telemetry_flight_profile D) (j k : nat) :
  (j < n)%nat ->
  first_trigger f ts (grid ts j) n = Some k -> (j < k < n)%nat.
Proof.
  clear bound_below bound_at bound_fuel.
  intros Hj Hf. apply find_seq_Some in Hf as (Hk & Ht & _).
  unfold triggers in Ht. apply andb_true_iff in Ht as [_ Ht].
  rewrite grid_lt in Ht by lia. apply Nat.ltb_lt in Ht. lia.
Qed.

Lemma adjust_altitude_time_step (f : telemetry_flight_profile D) (k : nat) :
  time_step f = ts -> (k < n)%nat ->
  time_step (adjust_altitude orig f (grid ts k) max_time) = ts.
Proof.
  intros Hf Hk.
  rewrite (adjust_altitude_writes ts max_time n grid_lt orig f k Hf Hk
             bound_below bound_at bound_fuel).
  apply writes_time_step. exact Hf.
Qed.

(** From a last corrected time at step [j], [n - j] passes are enough: the
    corrected steps increase strictly and stay below [n]. *)
Lemma reconcile_loop_terminates (m j : nat) (f : telemetry_flight_profile D)
    (log : list D) :
  (j < n)%nat -> (n - j <= m)%nat -> time_step f = ts ->
  exists (f' : telemetry_flight_profile D) (js : list nat),
    reconcile_loop m orig ts max_time (Z.of_nat n) (grid ts j) f log
      = Some (f', log ++ map (grid ts) js) /\
    StronglySorted lt (j :: js) /\
    Forall (fun k => (k < n)%nat) js /\
    time_step f' = ts /\
    first_trigger f' ts (grid ts (List.last js j)) n = None.
Proof.
  revert j f log. induction m as [|m IH]; intros j f log Hj Hm Hf; [lia|].
  rewrite reconcile_loop_S.
  destruct (first_trigger f ts (grid ts j) n) as [k|] eqn:Hk.
  - pose proof (trigger_is_later f j k Hj Hk) as Hjk.
    destruct (IH k (adjust_altitude orig f (grid ts k) max_time) (log ++ [grid ts k]))
      as (f' & js & Hr & Hs & Hb & Ht & Hv).
    { lia. } { lia. } { apply adjust_altitude_time_step; [exact Hf|lia]. }
    exists f', (k :: js). split; [|split; [|split; [|split]]].
    + rewrite Hr. rewrite <- app_assoc. reflexivity.
    + constructor; [exact Hs|]. constructor; [lia|].
      apply StronglySorted_inv in Hs as [_ Hall].
      eapply Forall_impl; [exact Hall|]. intros x Hx. simpl in Hx. lia.
    + constructor; [lia|exact Hb].
    + exact Ht.
    + rewrite (last_cons_default k js j). exact Hv.
  - exists f, []. rewrite app_nil_r. split; [reflexivity|].
    split; [repeat constructor|]. split; [constructor|]. split; [exact Hf|exact Hk].
Qed.

End LoopFacts.

(** ** The grid of times of [Calc] in IEEE arithmetic

    With [time_step = 1] and [max_time = 500] the times [i * time_step] of
    the 500 steps are exact; the facts about them are checked by
    evaluation. *)

Section CalcGrid.
Local Open Scope dbl_scope.

Lemma Calc_total_steps_500 : Calc_total_steps (D:=float) = Z.of_nat 500.
Proof. vm_compute. reflexivity. Qed.

Lemma Calc_grid_lt (i j : nat) :
  (i < 500)%nat -> (j < 500)%nat ->
  (grid (Calc_time_step : float) i <? grid Calc_time_step j) = (i <? j)%nat.
Proof.
  intros Hi Hj.
  assert (Hall : forallb (fun i => forallb (fun j =>
            Bool.eqb (grid (Calc_time_step : float) i <? grid Calc_time_step j)
                     (i <? j)%nat) (seq 0 500)) (seq 0 500) = true)
    by (vm_compute; reflexivity).
  rewrite forallb_forall in Hall.
  specialize (Hall i (proj2 (in_seq 500 0 i) ltac:(lia))).
  rewrite forallb_forall in Hall.
  specialize (Hall j (proj2 (in_seq 500 0 j) ltac:(lia))).
  apply Bool.eqb_prop in Hall. exact Hall.
Qed.

Lemma Calc_bound_below (i : nat) :
  (i < 500)%nat ->
  (of_int (Z.of_nat i) <? (Calc_max_time : float) / Calc_time_step) = true.
Proof.
  intros Hi.
  assert (Hall : forallb (fun i =>
            of_int (Z.of_nat i) <? (Calc_max_time : float) / Calc_time_step)
            (seq 0 500) = true)
    by (vm_compute; reflexivity).
  rewrite forallb_forall in Hall. apply Hall. apply in_seq. lia.
Qed.

Lemma Calc_bound_at :
  (of_int (Z.of_nat 500) <? (Calc_max_time : float) / Calc_time_step) = false.
Proof. vm_compute. reflexivity. Qed.

Lemma Calc_bound_fuel :
  Z.to_nat (to_int ((Calc_max_time : float) / Calc_time_step)) = 500%nat.
Proof. vm_compute. reflexivity. Qed.

Lemma Calc_grid_zero : grid (Calc_time_step : float) 0 = of_int 0.
Proof. vm_compute. reflexivity. Qed.

End CalcGrid.

Section StopFacts.
Context {D : Type} `{Arith D} `{HasNaN D} `{Countable D}.
Local Open Scope dbl_scope.
Variables (orig f : telemetry_flight_profile D) (ts : D) (b : nat).

Lemma stop_from_le (m i : nat) : (i <= stop_from orig f ts b m i <= i + m)%nat.
Proof.
  revert i. induction m as [|m IH]; intros i; simpl; [lia|].
  destruct ((b <=? i)%nat && _); [lia|]. specialize (IH (Datatypes.S i)). lia.
Qed.

Lemma stop_from_spec (m i : nat) :
  let s := stop_from orig f ts b m i in
  (forall k, (i <= k < s)%nat -> stops_at orig f ts b k = false) /\
  ((s < i + m)%nat -> stops_at orig f ts b s = true).
Proof.
  revert i. induction m as [|m IH]; intros i; simpl.
  - split; intros; lia.
  - fold (stops_at orig f ts b i). destruct (stops_at orig f ts b i) eqn:Hs.
    + split; [intros; lia|]. intros _. exact Hs.
    + destruct (IH (Datatypes.S i)) as [Hbefore Hat]. split.
      * intros k Hk. destruct (decide (k = i)) as [->|Hne]; [exact Hs|].
        apply Hbefore. lia.
      * intros Hlt. apply Hat. lia.
Qed.

Lemma stop_index_ge (n : nat) : (b <= n)%nat -> (b <= stop_index orig f ts b n)%nat.
Proof.
  intros Hb. unfold stop_index.
  destruct (stop_from_spec n 0) as [Hbefore Hat].
  pose proof (stop_from_le n 0) as Hle.
  destruct (Nat.lt_ge_cases (stop_from orig f ts b n 0) b) as [Hlt|Hge]; [|exact Hge].
  assert (Hs : stops_at orig f ts b (stop_from orig f ts b n 0) = true)
    by (apply Hat; lia).
  unfold stops_at in Hs. apply andb_true_iff in Hs as [Hs _].
  apply Nat.leb_le in Hs. exact Hs.
Qed.

End StopFacts.

Section SetupTimeStep.
Context {D : Type} `{Arith D} `{HasNaN D} `{Countable D} {T : TelemProc D}.

Lemma rewrite_middle_time_step (P : polynomial) (ts : list D)
    (f : telemetry_flight_profile D) :
  time_step (rewrite_middle P ts f) = time_step f.
Proof.
  induction ts as [|t ts IH] using rev_ind; [reflexivity|].
  rewrite rewrite_middle_snoc. exact IH.
Qed.

Lemma setup_flight_profile_time_step (raw fitted : telemetry_flight_profile D) :
  time_step (setup_flight_profile raw fitted) = time_step fitted.
Proof.
  unfold setup_flight_profile, setup_flight_profile_trace.
  destruct (collect _ _) as [times legs]. simpl.
  rewrite rewrite_middle_time_step. reflexivity.
Qed.

End SetupTimeStep.

(** ** The conditioning of [run_telemetry_profile::Calc] *)

Section Conditioning.
Local Open Scope dbl_scope.

Abbreviation ts := (Calc_time_step : float).
Abbreviation profile := (telemetry_flight_profile float).

(** C2.  The [while] loop of the conditioning ends for every input: 500
    passes are always enough, and more fuel gives the same result.  The
    values given to [last_corrected_time] are times [j * time_step] of
    steps [j] that increase strictly and stay below [total_steps = 500], so
    fewer than 500 passes correct, and the last pass finds no step to
    correct. *)
Theorem reconciliation_terminates {T : TelemProc float} (raw : profile) :
  exists (f : profile) (js : list nat),
    (forall fuel, (500 <= fuel)%nat ->
       Calc_conditioning fuel raw = Some (f, map (grid ts) js)) /\
    Calc_total_steps (D:=float) = 500%Z /\
    StronglySorted lt (0%nat :: js) /\
    Forall (fun j => (j < 500)%nat) js /\
    (length js < 500)%nat /\
    (forall i j, (i < 500)%nat -> (j < 500)%nat ->
       (grid ts i <? grid ts j) = (i <? j)%nat) /\
    first_trigger f ts (grid ts (List.last js 0%nat)) 500 = None.
Proof.
  unfold Calc_conditioning, reconcile.
  set (fitted := setup_flight_profile raw (new_profile Calc_time_step)).
  assert (Hts : time_step fitted = ts)
    by (subst fitted; rewrite setup_flight_profile_time_step; reflexivity).
  rewrite Calc_total_steps_500, <- Calc_grid_zero.
  destruct (reconcile_loop_terminates ts Calc_max_time 500 Calc_grid_lt
              Calc_bound_below Calc_bound_at Calc_bound_fuel fitted
              500 0 fitted [] ltac:(lia) ltac:(lia) Hts)
    as (f' & js & Hr & Hs & Hb & _ & Hv).
  exists f', js. split; [|split; [|split; [|split; [|split; [|split]]]]].
  - intros fuel Hfuel.
    apply (reconcile_loop_more_fuel ts Calc_max_time 500 fitted 500 fuel); [lia|].
    exact Hr.
  - reflexivity.
  - exact Hs.
  - exact Hb.
  - destruct (increasing_length 500 0 js Hs Hb) as [Hl| ->]; simpl; lia.
  - apply Calc_grid_lt.
  - exact Hv.
Qed.

Lemma written_before (orig f : profile) (b i : nat) :
  (i < b)%nat -> written orig f ts b i = velocity_integral f ts i.
Proof.
  intros Hi. destruct i as [|i]; simpl.
  - destruct (Nat.ltb_spec 0 b); [reflexivity|lia].
  - destruct (Nat.ltb_spec (Datatypes.S i) b); [reflexivity|lia].
Qed.

Lemma written_from (orig f : profile) (b i : nat) :
  (b <= i)%nat -> (0 < i)%nat ->
  written orig f ts b i
  = written orig f ts b (i - 1)
    + (get_altitude orig (grid ts i) - get_altitude orig (grid ts (i - 1))).
Proof.
  intros Hb Hi. destruct i as [|i]; [lia|]. simpl.
  rewrite Nat.sub_0_r.
  destruct (Nat.ltb_spec (Datatypes.S i) b); [lia|reflexivity].
Qed.

Lemma later_than_all (j i : nat) (log : list float) :
  (j < 500)%nat -> (i < 500)%nat ->
  Forall (fun c => exists k, (k <= j)%nat /\ c = grid ts k) log ->
  (grid ts j <? grid ts i) = true <->
  Forall (fun c => (c <? grid ts i) = true) (grid ts j :: log).
Proof.
  intros Hj Hi Hlog. split.
  - intros Hlt. constructor; [exact Hlt|].
    rewrite Calc_grid_lt in Hlt by lia. apply Nat.ltb_lt in Hlt.
    eapply Forall_impl; [exact Hlog|]. intros c (k & Hk & ->).
    rewrite Calc_grid_lt by lia. apply Nat.ltb_lt. lia.
  - intros Hall. apply Forall_cons in Hall as [Hlt _]. exact Hlt.
Qed.

(** C1.  One pass of the reconciliation loop, started with the last
    corrected time at step [j] and the earlier corrected times in [log].
    - The test of a step holds exactly when the fitted velocity is less
      than the slope of the fitted altitude and the time is later than
      every time corrected so far.
    - The pass corrects at the first step [b] where the test holds, and
      [b] is later than [j].  The correction leaves at step [i] the Euler
      integral of the fitted velocity for [i < b]; from [b] on, the value
      written at the step before plus [orig(t_i) - orig(t_{i-1})], up to the
      first step [stop] where that value is [>=] the altitude still in
      the profile; from [stop] on, and at every time off the grid, the
      altitude is unchanged.  The velocity is unchanged.
    - Without such a step the pass changes nothing and is valid.
    - The loop returns after a valid pass and otherwise scans again from
      the first step, with the corrected profile. *)
Theorem reconciliation_pass (orig f : profile) (j : nat) (log : list float) :
  time_step f = ts -> (j < 500)%nat ->
  Forall (fun c => exists k, (k <= j)%nat /\ c = grid ts k) log ->
  let lct := grid ts j in
  let s := scan_pass orig ts Calc_max_time (Calc_total_steps (D:=float)) lct f log in
  (forall i, (i < 500)%nat ->
     triggers f ts lct i = true <->
     insufficient_velocity f ts i = true /\
     Forall (fun c => (c <? grid ts i) = true) (lct :: log)) /\
  match first_trigger f ts lct 500 with
  | Some b =>
      let stop := stop_index orig f ts b 500 in
      (j < b < 500)%nat /\
      triggers f ts lct b = true /\
      (forall i, (i < b)%nat -> triggers f ts lct i = false) /\
      scan_valid s = false /\
      last_corrected_time s = grid ts b /\
      rec_log s = log ++ [grid ts b] /\
      scan_fitted s = adjust_altitude orig f (grid ts b) Calc_max_time /\
      time_step (scan_fitted s) = ts /\
      velocity (scan_fitted s) = velocity f /\
      (forall i, (i < 500)%nat ->
         get_altitude (scan_fitted s) (grid ts i)
         = if (i <? stop)%nat then written orig f ts b i
           else get_altitude f (grid ts i)) /\
      (forall t, (forall i, (i < 500)%nat -> t <> grid ts i) ->
         get_altitude (scan_fitted s) t = get_altitude f t) /\
      (forall i, (i < b)%nat -> written orig f ts b i = velocity_integral f ts i) /\
      (forall i, (b <= i)%nat -> (0 < i)%nat ->
         written orig f ts b i
         = written orig f ts b (i - 1)
           + (get_altitude orig (grid ts i) - get_altitude orig (grid ts (i - 1)))) /\
      (b <= stop <= 500)%nat /\
      (forall i, (b <= i < stop)%nat ->
         (written orig f ts b i >=? get_altitude f (grid ts i)) = false) /\
      ((stop < 500)%nat ->
         (written orig f ts b stop >=? get_altitude f (grid ts stop)) = true) /\
      Forall (fun c => exists k, (k <= b)%nat /\ c = grid ts k) (log ++ [grid ts b])
  | None =>
      (forall i, (i < 500)%nat -> triggers f ts lct i = false) /\
      scan_valid s = true /\ scan_fitted s = f /\ rec_log s = log /\
      last_corrected_time s = lct
  end /\
  (forall fuel,
     reconcile_loop (Datatypes.S fuel) orig ts Calc_max_time
                    (Calc_total_steps (D:=float)) lct f log
     = if scan_valid s then Some (scan_fitted s, rec_log s)
       else reconcile_loop fuel orig ts Calc_max_time (Calc_total_steps (D:=float))
                           (last_corrected_time s) (scan_fitted s) (rec_log s)).
Proof.
  intros Hts Hj Hlog lct s. subst s lct. split; [|split; [|reflexivity]].
  - intros i Hi. unfold triggers. rewrite andb_true_iff.
    rewrite (later_than_all j i log Hj Hi Hlog). reflexivity.
  - rewrite Calc_total_steps_500, scan_pass_first_trigger.
    destruct (first_trigger f ts (grid ts j) 500) as [b|] eqn:Hb.
    + pose proof (trigger_is_later ts 500 Calc_grid_lt f j b Hj Hb) as Hjb.
      apply find_seq_Some in Hb as (_ & Htrig & Hfirst).
      pose proof (adjust_altitude_writes ts Calc_max_time 500 Calc_grid_lt orig f b
                    Hts ltac:(lia) Calc_bound_below Calc_bound_at Calc_bound_fuel)
        as Hadj.
      pose proof (stop_from_le orig f ts b 500 0) as Hle.
      fold (stop_index orig f ts b 500) in Hle.
      pose proof (stop_index_ge orig f ts b 500 ltac:(lia)) as Hge.
      destruct (stop_from_spec orig f ts b 500 0) as [Hbefore Hat].
      fold (stop_index orig f ts b 500) in Hbefore, Hat.
      cbn zeta. unfold corrected_state.
      cbn [scan_valid last_corrected_time rec_log scan_fitted].
      split; [lia|]. split; [exact Htrig|].
      split; [intros i Hi; apply Hfirst; lia|].
      split; [reflexivity|]. split; [reflexivity|]. split; [reflexivity|].
      split; [reflexivity|]. rewrite Hadj.
      split; [apply writes_time_step; exact Hts|].
      split; [apply writes_velocity|].
      split; [intros i Hi; apply (writes_lookup ts 500 Calc_grid_lt); lia|].
      split; [intros t Ht; apply writes_elsewhere; intros i Hi; apply Ht; lia|].
      split; [apply written_before|]. split; [apply written_from|].
      split; [lia|].
      split.
      { intros i Hi. specialize (Hbefore i ltac:(lia)). unfold stops_at in Hbefore.
        destruct (Nat.leb_spec b i); [|lia]. exact Hbefore. }
      split.
      { intros Hlt. specialize (Hat ltac:(lia)). unfold stops_at in Hat.
        apply andb_true_iff in Hat as [_ Hat]. exact Hat. }
      apply Forall_app. split.
      * eapply Forall_impl; [exact Hlog|]. intros c (k & Hk & ->).
        exists k. split; [lia|reflexivity].
      * constructor; [|constructor]. exists b. split; [lia|reflexivity].
    + split; [|done]. intros i Hi. apply (find_seq_None _ 0 500 Hb). lia.
Qed.

(** The hypotheses of the theorem above hold of the first pass on the
    profile [climb_then_descend]. *)
Lemma reconciliation_pass_witness :
  time_step climb_then_descend = ts /\
  (0 < 500)%nat /\
  Forall (fun c => exists k, (k <= 0)%nat /\ c = grid ts k) [] /\
  (forall i, (i < 500)%nat ->
     triggers climb_then_descend ts (grid ts 0) i = true <->
     insufficient_velocity climb_then_descend ts i = true /\
     Forall (fun c => (c <? grid ts i) = true) [grid ts 0]).
Proof.
  split; [reflexivity|]. split; [lia|]. split; [constructor|].
  exact (proj1 (reconciliation_pass climb_then_descend climb_then_descend 0 []
                  eq_refl ltac:(lia) (List.Forall_nil _))).
Defined.





End Conditioning.

(** ** Stage separation *)

Section Separation.
Context {D : Type} `{Arith D} `{Libm D} `{HasNaN D} `{Countable D}.
Local Open Scope dbl_scope.

(** At the step of the separation the base mass becomes the total mass,
    propellant included, less the upper stage; at any other step it is
    unchanged. *)
Lemma thrust_step_mass (profile : velocity_flight_profile D) (t : D)
    (b : rocket D) (out : list (report D)) :
  mass (thrust_step profile t (b, out)).1
  = if t =? of_int 155
    then get_mass b - stage_2_dry_mass_kg - stage_2_fuel_mass_kg - payload_mass_kg
    else mass b.
Proof.
  unfold thrust_step.
  set (tracking := negb (isnan (get_vx profile t)) && negb (isnan (get_vy profile t))).
  set (b1 := if tracking then _ else b).
  assert (Hb1 : mass b1 = mass b /\ prop_mass b1 = prop_mass b)
    by (subst b1; destruct tracking; done).
  destruct Hb1 as [Hm Hp].
  destruct (t =? of_int 155).
  - set (b2 := set_mass _ b1).
    set (b3 := if t >? of_int 155 then _ else b2).
    assert (Hb3 : mass b3 = mass b2) by (subst b3; destruct (t >? of_int 155); done).
    pose proof (thrust_loop_frame (engines b3) (of_int 0) b3) as Hf.
    destruct (thrust_loop (engines b3) (of_int 0) b3) as [tn b4]. simpl in Hf.
    destruct Hf as (_ & _ & _ & Hf & _). simpl.
    rewrite Hf, Hb3. subst b2. simpl. unfold get_mass. rewrite Hm, Hp. reflexivity.
  - set (b3 := if t >? of_int 155 then _ else b1).
    assert (Hb3 : mass b3 = mass b1) by (subst b3; destruct (t >? of_int 155); done).
    pose proof (thrust_loop_frame (engines b3) (of_int 0) b3) as Hf.
    destruct (thrust_loop (engines b3) (of_int 0) b3) as [tn b4]. simpl in Hf.
    destruct Hf as (_ & _ & _ & Hf & _). simpl.
    rewrite Hf, Hb3. exact Hm.
Qed.

End Separation.

(** * Further properties of the sources *)

(** ** [drag.cpp] and [signum] in IEEE arithmetic *)

Lemma float_ltb_true_leb_false (x y : float) :
  (x <? y)%dbl = true -> (y <=? x)%dbl = false.
Proof.
  cbn. rewrite FloatAxioms.ltb_spec, FloatAxioms.leb_spec. unfold SFltb, SFleb.
  rewrite (SFcompare_antisym (Prim2SF x) (Prim2SF y)).
  destruct (SFcompare (Prim2SF x) (Prim2SF y)) as [[]|]; done.
Qed.

Lemma float_ltb_asym (x y : float) :
  (x <? y)%dbl = true -> (y <? x)%dbl = false.
Proof.
  cbn. rewrite !FloatAxioms.ltb_spec. unfold SFltb.
  rewrite (SFcompare_antisym (Prim2SF x) (Prim2SF y)).
  destruct (SFcompare (Prim2SF x) (Prim2SF y)) as [[]|]; done.
Qed.

Lemma float_eqb_not_ltb (x y : float) :
  (x =? y)%dbl = true -> (x <? y)%dbl = false /\ (y <? x)%dbl = false.
Proof.
  cbn. rewrite FloatAxioms.eqb_spec, !FloatAxioms.ltb_spec. unfold SFeqb, SFltb.
  rewrite (SFcompare_antisym (Prim2SF x) (Prim2SF y)).
  destruct (SFcompare (Prim2SF x) (Prim2SF y)) as [[]|]; done.
Qed.

Lemma float_eqb_false_neq (t k : float) :
  isnan t = false -> (t =? k)%dbl = false -> t <> k.
Proof.
  intros Hn He ->. unfold isnan in Hn. rewrite He in Hn. discriminate.
Qed.

Section DragComposition.
Context {L : Libm float}.
Local Open Scope dbl_scope.

(** X4.  In IEEE arithmetic, and whatever [pow] and [exp] compute, the
    density that [calc_rho_earth] returns in a band is the ideal-gas
    density [calc_rho_ideal_state] of the pressure that
    [calc_pressure_earth] returns at the same altitude and of the
    temperature of the band: the two functions select the same band and
    use the same formula for the pressure. *)
Theorem density_is_ideal_gas_of_pressure (alt : float) :
  ((alt >=? of_int 25000) = true ->
     calc_rho_earth alt
     = calc_rho_ideal_state (calc_pressure_earth alt) (- lit 131.21 + lit 0.00299 * alt)) /\
  ((alt >=? of_int 11000) = true -> (alt <? of_int 25000) = true ->
     calc_rho_earth alt = calc_rho_ideal_state (calc_pressure_earth alt) (- lit 56.46)) /\
  ((alt <? of_int 11000) = true ->
     calc_rho_earth alt
     = calc_rho_ideal_state (calc_pressure_earth alt) (lit 15.04 - lit 0.00649 * alt)).
Proof.
  unfold calc_rho_earth, calc_pressure_earth.
  split; [|split].
  - intros ->. reflexivity.
  - intros H11 H25. rewrite (float_ltb_true_leb_false _ _ H25), H11, H25. reflexivity.
  - intros H11.
    assert (H25 : (alt >=? of_int 25000) = false)
      by exact (float_below_11000_not_above_25000 alt H11).
    rewrite H25, (float_ltb_true_leb_false _ _ H11), H11. reflexivity.
Qed.

End DragComposition.

(** X5.  [signum] in IEEE arithmetic: 1 exactly for the numbers above
    zero, -1 exactly for those below, and 0 otherwise, which is the case
    of both zeros and of NaN. *)
Theorem signum_sign (x : float) :
  (signum x = 1 <-> (x >? of_int 0)%dbl = true) /\
  (signum x = -1 <-> (x <? of_int 0)%dbl = true) /\
  (signum x = 0 <-> (x >? of_int 0)%dbl = false /\ (x <? of_int 0)%dbl = false) /\
  ((x =? of_int 0)%dbl = true -> signum x = 0) /\
  (isnan x = true -> signum x = 0).
Proof.
  unfold signum.
  assert (Hasym : (x >? of_int 0)%dbl = true -> (x <? of_int 0)%dbl = false)
    by apply float_ltb_asym.
  split; [|split; [|split; [|split]]].
  - destruct (x >? of_int 0)%dbl eqn:Hp, (x <? of_int 0)%dbl eqn:Hn; cbn [Z.b2z];
      split; intros; try done; try lia.
  - destruct (x >? of_int 0)%dbl eqn:Hp, (x <? of_int 0)%dbl eqn:Hn; cbn [Z.b2z];
      split; intros; try done; try lia.
  - destruct (x >? of_int 0)%dbl eqn:Hp, (x <? of_int 0)%dbl eqn:Hn; cbn [Z.b2z];
      split; intros Hs; try done; try lia; try (destruct Hs; done).
  - intros Hz. apply float_eqb_not_ltb in Hz as [-> ->]. reflexivity.
  - intros Hnan.
    destruct (float_nan_ltb x (of_int 0)) as [-> _]; [auto|].
    destruct (float_nan_ltb (of_int 0) x) as [-> _]; [auto|]. reflexivity.
Qed.

(** ** [adjust_altitude]: what a correction leaves alone *)

Lemma for_loop_invariant {S : Type} (P : S -> Prop) (fuel : nat) (cond : Z -> bool)
    (body : Z -> S -> S * bool) (i : Z) (s : S) :
  (forall k s, i <= k -> cond k = true -> P s -> P (body k s).1) ->
  P s -> P (for_loop fuel cond body i s).
Proof.
  revert i s. induction fuel as [|fuel IH]; intros i s Hbody Hs; [exact Hs|].
  simpl. destruct (cond i) eqn:Hc; [|exact Hs].
  pose proof (Hbody i s ltac:(lia) Hc Hs) as Hs'.
  destruct (body i s) as [s' stop]. simpl in Hs'.
  destruct stop; [exact Hs'|].
  apply IH; [|exact Hs']. intros k s0 Hk. apply Hbody. lia.
Qed.

Section AdjustFrame.
Context {D : Type} `{Arith D} `{HasNaN D} `{Countable D}.
Local Open Scope dbl_scope.

Lemma adjust_altitude_leaves_alone (orig f : telemetry_flight_profile D)
    (break_even max_time : D) :
  let f' := adjust_altitude orig f break_even max_time in
  time_step f' = time_step f /\
  current_time f' = current_time f /\
  ballistic_range f' = ballistic_range f /\
  velocity f' = velocity f /\
  (forall t,
     (forall i : Z, (0 <= i)%Z -> (of_int i <? max_time / time_step f) = true ->
        t <> of_int i * time_step f) ->
     altitude f' !! t = altitude f !! t) /\
  (forall t, is_Some (altitude f !! t) -> is_Some (altitude f' !! t)) /\
  ((of_int 0 <? max_time / time_step f) = false -> f' = f).
Proof.
  intros f'. subst f'. unfold adjust_altitude, get_time_step.
  set (bound := max_time / time_step f).
  set (P := fun s : adjust_state =>
    let g := adj_fitted s in
    time_step g = time_step f /\ current_time g = current_time f /\
    ballistic_range g = ballistic_range f /\ velocity g = velocity f /\
    (forall t,
       (forall i : Z, (0 <= i)%Z -> (of_int i <? bound) = true ->
          t <> of_int i * time_step f) ->
       altitude g !! t = altitude f !! t) /\
    (forall t, is_Some (altitude f !! t) -> is_Some (altitude g !! t))).
  assert (Hput : forall (s : adjust_state) (k : Z) (a : D),
            (0 <= k)%Z -> (of_int k <? bound) = true -> P s ->
            P (mk_adjust (adj_last_t s) (adj_last_alt s) (adj_v_integral s)
                         (put_altitude (of_int k * time_step f) a (adj_fitted s)))).
  { intros s k a Hk Hc (Hts & Hct & Hbr & Hv & Hoff & Hdom).
    unfold P. cbn. repeat split; try assumption.
    - intros t Ht. rewrite lookup_insert_ne; [apply Hoff; exact Ht|].
      intros Heq. apply (Ht k Hk Hc). symmetry. exact Heq.
    - intros t Ht. destruct (decide (of_int k * time_step f = t)) as [->|Hne].
      + rewrite lookup_insert_eq. eauto.
      + rewrite lookup_insert_ne by exact Hne. apply Hdom. exact Ht. }
  assert (Hloop : P (for_loop (Datatypes.S (Z.to_nat (to_int bound)))
                              (fun i => of_int i <? bound)
                              (adjust_altitude_body orig break_even) 0
                              (mk_adjust (of_int 0) (of_int 0) (of_int 0) f))).
  { apply for_loop_invariant; [|unfold P; cbn; repeat split; auto].
    intros k s Hk Hc Hs. pose proof Hs as (Hts & _).
    unfold adjust_altitude_body, get_time_step. rewrite Hts.
    destruct (of_int k * time_step f <? break_even).
    - exact (Hput (mk_adjust _ _ _ (adj_fitted s)) k _ Hk Hc Hs).
    - destruct (_ >=? _).
      + exact Hs.
      + exact (Hput (mk_adjust _ _ _ (adj_fitted s)) k _ Hk Hc Hs). }
  destruct Hloop as (Hts & Hct & Hbr & Hv & Hoff & Hdom).
  repeat split; try assumption.
  intros Hc. cbn [for_loop]. rewrite Hc. reflexivity.
Qed.

End AdjustFrame.

(** X7.  A call of [adjust_altitude] writes altitudes only: the time
    step, the current time, the ballistic range and the whole velocity
    series of the fitted profile are unchanged.  It writes them only at
    the times [i * time_step] of the steps [i >= 0] that pass the loop
    test [i < max_time / time_step]: the altitude at a time that is a
    number and is different from all of these is unchanged, and so the
    profile is returned as it was when step 0 fails the test (a horizon
    that is zero, negative or NaN).  No sample is removed. *)
Theorem adjust_altitude_frame (orig f : telemetry_flight_profile float)
    (break_even max_time : float) :
  let f' := adjust_altitude orig f break_even max_time in
  time_step f' = time_step f /\
  current_time f' = current_time f /\
  ballistic_range f' = ballistic_range f /\
  velocity f' = velocity f /\
  (forall t, isnan t = false ->
     (forall i : Z, (0 <= i)%Z ->
        (of_int i <? max_time / time_step f)%dbl = true ->
        (t =? of_int i * time_step f)%dbl = false) ->
     altitude f' !! t = altitude f !! t) /\
  (forall t, is_Some (altitude f !! t) -> is_Some (altitude f' !! t)) /\
  ((of_int 0 <? max_time / time_step f)%dbl = false -> f' = f).
Proof.
  intros f'.
  destruct (adjust_altitude_leaves_alone orig f break_even max_time)
    as (Hts & Hct & Hbr & Hv & Hoff & Hdom & Hnone).
  fold f' in Hts, Hct, Hbr, Hv, Hoff, Hdom, Hnone.
  repeat split; try assumption.
  intros t Hnan Ht. apply Hoff. intros i Hi Hc.
  apply float_eqb_false_neq; [exact Hnan|]. apply Ht; assumption.
Qed.

(** ** The reconciliation loop: what holds when it ends *)

Section LoopResult.
Context {D : Type} `{Arith D} `{HasNaN D} `{Countable D}.
Local Open Scope dbl_scope.
Variables (ts max_time : D) (n : nat).
Hypothesis grid_lt : forall i j : nat,
  (i < n)%nat -> (j < n)%nat -> (grid ts i <? grid ts j) = (i <? j)%nat.
Hypothesis bound_below : forall i : nat,
  (i < n)%nat -> (of_int (Z.of_nat i) <? max_time / ts) = true.
Hypothesis bound_at : (of_int (Z.of_nat n) <? max_time / ts) = false.
Hypothesis bound_fuel : Z.to_nat (to_int (max_time / ts)) = n.
Variable orig : telemetry_flight_profile D.

Lemma velocity_integral_ext (f f' : telemetry_flight_profile D) (i : nat) :
  velocity f = velocity f' -> velocity_integral f ts i = velocity_integral f' ts i.
Proof.
  clear grid_lt bound_below bound_at bound_fuel.
  intros Hv. induction i as [|i IH]; simpl; unfold get_velocity; rewrite Hv; [reflexivity|].
  rewrite IH. reflexivity.
Qed.

Lemma correction_result (f : telemetry_flight_profile D) (k : nat) :
  time_step f = ts -> (k < n)%nat ->
  let f1 := adjust_altitude orig f (grid ts k) max_time in
  velocity f1 = velocity f /\
  (forall t, (forall i, (i < n)%nat -> t <> grid ts i) ->
     get_altitude f1 t = get_altitude f t) /\
  (forall i, (i < k)%nat -> get_altitude f1 (grid ts i) = velocity_integral f1 ts i).
Proof.
  intros Hf Hk f1. subst f1.
  rewrite (adjust_altitude_writes ts max_time n grid_lt orig f k Hf Hk
             bound_below bound_at bound_fuel).
  pose proof (stop_from_le orig f ts k n 0) as Hle.
  fold (stop_index orig f ts k n) in Hle.
  pose proof (stop_index_ge orig f ts k n ltac:(lia)) as Hge.
  split; [apply writes_velocity|]. split.
  - intros t Ht. apply writes_elsewhere. intros i Hi. apply Ht. lia.
  - intros i Hi.
    rewrite (writes_lookup ts n grid_lt) by lia.
    destruct (Nat.ltb_spec i (stop_index orig f ts k n)) as [_|Hstop]; [|lia].
    rewrite (velocity_integral_ext _ f i) by apply writes_velocity.
    destruct i as [|i]; simpl.
    + destruct (Nat.ltb_spec 0 k); [reflexivity|lia].
    + destruct (Nat.ltb_spec (Datatypes.S i) k); [reflexivity|lia].
Qed.

Lemma reconcile_loop_result (m j : nat) (f : telemetry_flight_profile D)
    (log : list D) :
  (j < n)%nat -> (n - j <= m)%nat -> time_step f = ts ->
  exists (f' : telemetry_flight_profile D) (js : list nat),
    reconcile_loop m orig ts max_time (Z.of_nat n) (grid ts j) f log
      = Some (f', log ++ map (grid ts) js) /\
    time_step f' = ts /\
    velocity f' = velocity f /\
    (forall t, (forall i, (i < n)%nat -> t <> grid ts i) ->
       get_altitude f' t = get_altitude f t) /\
    (js = [] -> f' = f) /\
    Forall (fun b => (j < b < n)%nat) js /\
    (forall b, last js = Some b ->
       forall i, (i < b)%nat -> get_altitude f' (grid ts i) = velocity_integral f' ts i).
Proof.
  revert j f log. induction m as [|m IH]; intros j f log Hj Hm Hf; [lia|].
  rewrite (reconcile_loop_S ts max_time n orig).
  destruct (first_trigger f ts (grid ts j) n) as [k|] eqn:Hk.
  - pose proof (trigger_is_later ts n grid_lt f j k Hj Hk) as Hjk.
    set (f1 := adjust_altitude orig f (grid ts k) max_time).
    assert (Hf1 : time_step f1 = ts).
    { apply (adjust_altitude_time_step ts max_time n grid_lt bound_below bound_at
               bound_fuel orig); [exact Hf|lia]. }
    destruct (correction_result f k Hf ltac:(lia)) as (Hv1 & Hoff1 & Hint1).
    fold f1 in Hv1, Hoff1, Hint1.
    destruct (IH k f1 (log ++ [grid ts k]) ltac:(lia) ltac:(lia) Hf1)
      as (f' & js & Hr & Hts & Hv & Hoff & Hnil & Hbs & Hint).
    exists f', (k :: js). split; [|split; [|split; [|split; [|split; [|split]]]]].
    + rewrite Hr, <- app_assoc. reflexivity.
    + exact Hts.
    + rewrite Hv. exact Hv1.
    + intros t Ht. rewrite (Hoff t Ht). apply Hoff1. exact Ht.
    + discriminate.
    + constructor; [lia|]. eapply Forall_impl; [exact Hbs|]. intros b Hb. simpl in Hb. lia.
    + intros b Hb i Hi. destruct js as [|b' js].
      * injection Hb as <-. rewrite (Hnil eq_refl). apply Hint1. exact Hi.
      * apply (Hint b); [|exact Hi]. rewrite last_cons_cons in Hb. exact Hb.
  - exists f, []. rewrite app_nil_r.
    split; [reflexivity|]. split; [exact Hf|]. split; [reflexivity|].
    split; [reflexivity|]. split; [reflexivity|]. split; [constructor|]. discriminate.
Qed.

End LoopResult.

Section ConditioningResult.
Local Open Scope dbl_scope.

(** X8.  When the conditioning of [run_telemetry_profile::Calc] ends, the
    profile it leaves has the time step and the whole velocity series that
    [setup_flight_profile] produced, and the altitudes of
    [setup_flight_profile] at every time that is a number and is not one
    of the 500 step times.  Without a correction it is that profile unchanged.  After
    corrections, the last of them at step [b], the altitude at every step
    before [b] is the Euler integral of the velocity up to that step. *)
Theorem reconciliation_fixed_point {T : TelemProc float}
    (raw : telemetry_flight_profile float) :
  let ts := (Calc_time_step : float) in
  let fitted := setup_flight_profile raw (new_profile Calc_time_step) in
  exists (f : telemetry_flight_profile float) (js : list nat),
    Calc_conditioning 500 raw = Some (f, map (grid ts) js) /\
    time_step f = ts /\
    velocity f = velocity fitted /\
    (forall t, isnan t = false ->
       (forall i, (i < 500)%nat -> (t =? grid ts i) = false) ->
       get_altitude f t = get_altitude fitted t) /\
    (js = [] -> f = fitted) /\
    Forall (fun b => (0 < b < 500)%nat) js /\
    (forall b, last js = Some b ->
       forall i, (i < b)%nat -> get_altitude f (grid ts i) = velocity_integral f ts i).
Proof.
  intros ts fitted. unfold Calc_conditioning, reconcile. fold fitted.
  assert (Hts : time_step fitted = ts)
    by (subst fitted; rewrite setup_flight_profile_time_step; reflexivity).
  rewrite Calc_total_steps_500, <- Calc_grid_zero.
  destruct (reconcile_loop_result ts Calc_max_time 500 Calc_grid_lt
              Calc_bound_below Calc_bound_at Calc_bound_fuel fitted
              500 0 fitted [] ltac:(lia) ltac:(lia) Hts)
    as (f & js & Hr & Htf & Hv & Hoff & Hnil & Hbs & Hint).
  exists f, js. repeat split; try assumption.
  intros t Hnan Ht. apply Hoff. intros i Hi.
  apply float_eqb_false_neq; [exact Hnan|]. apply Ht. exact Hi.
Qed.

End ConditioningResult.

(** ** [setup_flight_profile]: what the rewrites read and leave alone *)

Section SetupFrame.
Context {D : Type} `{Arith D} `{HasNaN D} `{Countable D} {T : TelemProc D}.
Local Open Scope dbl_scope.

Lemma leg_rewrite_ignores_middle (events : list D) (alt_fit : list polynomial)
    (P : polynomial) (t : D) :
  leg_rewrite events (<[1%nat := P]> alt_fit) t = leg_rewrite events alt_fit t.
Proof.
  unfold leg_rewrite. destruct (first_leg t events 0) as [i|]; [|reflexivity].
  destruct (Nat.eqb_spec i 1) as [_|Hne]; [reflexivity|].
  rewrite list_lookup_insert_ne by congruence. reflexivity.
Qed.

(** X9.  The polynomial fitted to the middle leg in the first loop,
    [alt_fit[1]], is never evaluated: with any other polynomial in its
    place the rewrite of the legs stores the same profile.  The rewrite
    never evaluates a polynomial at a time that is not before an event. *)
Theorem middle_leg_fit_is_not_read (events : list D) (alt_fit : list polynomial)
    (P : polynomial) (f : telemetry_flight_profile D) :
  rewrite_legs events (<[1%nat := P]> alt_fit) f = rewrite_legs events alt_fit f /\
  (forall t, leg_rewrite events (<[1%nat := P]> alt_fit) t = leg_rewrite events alt_fit t) /\
  (forall t, Forall (fun e => (t <? e) = false) events ->
     leg_rewrite events alt_fit t = None).
Proof.
  split; [|split].
  - unfold rewrite_legs. f_equal. apply map_eq. intros t.
    rewrite !map_lookup_imap. destruct (altitude f !! t); [|reflexivity].
    simpl. rewrite leg_rewrite_ignores_middle. reflexivity.
  - apply leg_rewrite_ignores_middle.
  - intros t Hall. unfold leg_rewrite.
    assert (Hnone : forall i, first_leg t events i = None).
    { induction Hall as [|e events He _ IH]; intros i; [reflexivity|].
      simpl. rewrite He. apply IH. }
    rewrite Hnone. reflexivity.
Qed.

Lemma rewrite_middle_frame (P : polynomial) (ts : list D)
    (f : telemetry_flight_profile D) :
  let f' := rewrite_middle P ts f in
  time_step f' = time_step f /\ current_time f' = current_time f /\
  ballistic_range f' = ballistic_range f /\ velocity f' = velocity f /\
  (forall t, t ∉ ts -> altitude f' !! t = altitude f !! t) /\
  (forall t, t ∈ ts -> altitude f' !! t = Some (val P t)).
Proof.
  induction ts as [|t0 ts IH] using rev_ind.
  - simpl. repeat split; try reflexivity. intros t Ht. apply elem_of_nil in Ht. done.
  - rewrite rewrite_middle_snoc. destruct IH as (Hts & Hct & Hbr & Hv & Hout & Hin).
    cbn. repeat split; try assumption.
    + intros t Ht. rewrite not_elem_of_app in Ht. destruct Ht as [Ht Ht0].
      rewrite lookup_insert_ne; [apply Hout; exact Ht|].
      intros ->. apply Ht0. apply list_elem_of_singleton. reflexivity.
    + intros t Ht. destruct (decide (t0 = t)) as [->|Hne].
      * rewrite lookup_insert_eq. reflexivity.
      * rewrite lookup_insert_ne by exact Hne. apply Hin.
        apply elem_of_app in Ht as [Ht|Ht]; [exact Ht|].
        apply list_elem_of_singleton in Ht. congruence.
Qed.

(** X10.  [setup_flight_profile] leaves the time step, the current time
    and the ballistic range of the fitted profile as they were, and its
    velocity series is the one that [interp_lin] built from the raw
    velocities: no later step touches it.  The rewrite of legs 0 and 2
    keeps the sample times of the interpolated altitude series: it adds
    none and removes none.  The rewrite of the middle leg stores the value
    of the interpolating polynomial at every time of [times[1]] and leaves
    the altitude at every other time as the first rewrite left it. *)
Theorem setup_flight_profile_frame (raw fitted : telemetry_flight_profile D) :
  let tr := setup_flight_profile_trace raw fitted in
  let f' := setup_flight_profile raw fitted in
  time_step f' = time_step fitted /\
  current_time f' = current_time fitted /\
  ballistic_range f' = ballistic_range fitted /\
  velocity f' = interp_lin (velocity fitted) (velocity raw) /\
  (forall t, is_Some (altitude (st_rewritten tr) !! t)
             <-> is_Some (altitude (st_interpolated tr) !! t)) /\
  (forall t, t ∉ leg 1 (st_times tr) ->
     altitude f' !! t = altitude (st_rewritten tr) !! t) /\
  (forall t, t ∈ leg 1 (st_times tr) ->
     altitude f' !! t = Some (val (st_lip_fit tr) t)).
Proof.
  unfold setup_flight_profile, setup_flight_profile_trace.
  destruct (collect _ _) as [times legs]. cbn [st_result st_rewritten st_interpolated
    st_times st_lip_fit].
  match goal with |- context [rewrite_middle ?P ?l ?g] =>
    destruct (rewrite_middle_frame P l g) as (Hts & Hct & Hbr & Hv & Hout & Hin) end.
  split; [rewrite Hts; reflexivity|]. split; [rewrite Hct; reflexivity|].
  split; [rewrite Hbr; reflexivity|]. split; [rewrite Hv; reflexivity|].
  split; [|split; [exact Hout|exact Hin]].
  intros t. rewrite rewrite_legs_lookup. cbn [altitude set_altitudes].
  rewrite fmap_is_Some. reflexivity.
Qed.

End SetupFrame.

(** ** The dynamics simulation: the thrust, the drag and the reports *)

Lemma float_sub_self (x : float) :
  isnan x = false -> (x - x)%float = 0%float \/ (x - x)%float = PrimFloat.nan.
Proof.
  intros Hx.
  assert (Hsf : Prim2SF (x - x) = S754_zero false \/ Prim2SF (x - x) = S754_nan).
  { rewrite FloatAxioms.sub_spec. unfold SF64sub.
    destruct (Prim2SF x) as [s|s| |s m e] eqn:E.
    - left. destruct s; reflexivity.
    - right. destruct s; reflexivity.
    - right. reflexivity.
    - left. cbv beta iota zeta delta [SFsub]. rewrite Z.sub_diag. reflexivity. }
  destruct Hsf as [Hsf|Hsf]; [left|right]; apply Prim2SF_inj; rewrite Hsf; reflexivity.
Qed.

Lemma float_nan_mul (x : float) : (PrimFloat.nan * x)%float = PrimFloat.nan.
Proof.
  apply Prim2SF_inj. rewrite FloatAxioms.mul_spec.
  replace (Prim2SF PrimFloat.nan) with S754_nan by reflexivity.
  unfold SF64mul. reflexivity.
Qed.

(** The direction that the thrust is given when the commanded velocity
    is the current one: both components of the velocity error are a zero
    or a NaN, and their quotient by its norm is a NaN. *)
Lemma float_direction_of_no_error (dx dy : float) :
  (dx = 0 \/ dx = PrimFloat.nan)%float -> (dy = 0 \/ dy = PrimFloat.nan)%float ->
  let accel := PrimFloat.sqrt (dx * dx + dy * dy)%float in
  (dx / accel = PrimFloat.nan /\ dy / accel = PrimFloat.nan)%float.
Proof.
  intros [-> | ->] [-> | ->]; split; vm_compute; reflexivity.
Qed.

Section ThrustSlot.
Context {D : Type} `{Arith D} `{HasNaN D} `{Countable D}.
Local Open Scope dbl_scope.

Lemma thrust_step_thrust_slot (profile : velocity_flight_profile D) (t : D)
    (b : rocket D) (out : list (report D)) :
  (3 < length (forces b))%nat ->
  let vx := get_vx profile t in
  let vy := get_vy profile t in
  let dvx := vx - get_x (get_v b) in
  let dvy := vy - get_y (get_v b) in
  let accel := Dsqrt (dvx * dvx + dvy * dvy) in
  exists thrust_net : D,
    forces (thrust_step profile t (b, out)).1 !! 3%nat
    = Some (if negb (isnan vx) && negb (isnan vy)
            then mk_vector (dvx / accel * thrust_net) (dvy / accel * thrust_net) (of_int 0)
            else mk_vector (of_int 0) thrust_net (of_int 0)).
Proof.
  intros Hlen vx vy dvx dvy accel. unfold thrust_step.
  fold vx vy. set (tracking := negb (isnan vx) && negb (isnan vy)).
  fold dvx dvy accel.
  set (b1 := if tracking then _ else b).
  assert (Hb1 : forces b1 = forces b) by (subst b1; destruct tracking; reflexivity).
  destruct (t =? of_int 155).
  - set (b2 := set_mass _ b1).
    set (b3 := if t >? of_int 155 then _ else b2).
    assert (Hb3 : forces b3 = forces b)
      by (subst b3 b2; destruct (t >? of_int 155); simpl; exact Hb1).
    pose proof (thrust_loop_frame (engines b3) (of_int 0) b3) as Hf.
    destruct (thrust_loop (engines b3) (of_int 0) b3) as [tn b4]. simpl in Hf.
    destruct Hf as (_ & _ & Hf & _). exists tn. simpl.
    rewrite list_lookup_insert_eq by (rewrite Hf, Hb3; exact Hlen). reflexivity.
  - set (b3 := if t >? of_int 155 then _ else b1).
    assert (Hb3 : forces b3 = forces b)
      by (subst b3; destruct (t >? of_int 155); simpl; exact Hb1).
    pose proof (thrust_loop_frame (engines b3) (of_int 0) b3) as Hf.
    destruct (thrust_loop (engines b3) (of_int 0) b3) as [tn b4]. simpl in Hf.
    destruct Hf as (_ & _ & Hf & _). exists tn. simpl.
    rewrite list_lookup_insert_eq by (rewrite Hf, Hb3; exact Hlen). reflexivity.
Qed.

Lemma thrust_step_reports (profile : velocity_flight_profile D) (t : D)
    (b : rocket D) (out : list (report D)) :
  (thrust_step profile t (b, out)).2
  = if t =? of_int 155 then out ++ [MECO (get_prop_mass b)] else out.
Proof.
  unfold thrust_step.
  set (tracking := negb (isnan (get_vx profile t)) && negb (isnan (get_vy profile t))).
  set (b1 := if tracking then _ else b).
  assert (Hb1 : get_prop_mass b1 = get_prop_mass b)
    by (subst b1; destruct tracking; reflexivity).
  destruct (t =? of_int 155).
  - set (b2 := set_mass _ b1).
    set (b3 := if t >? of_int 155 then _ else b2).
    destruct (thrust_loop (engines b3) (of_int 0) b3) as [tn b4]. simpl.
    rewrite Hb1. reflexivity.
  - set (b3 := if t >? of_int 155 then _ else b1).
    destruct (thrust_loop (engines b3) (of_int 0) b3) as [tn b4]. reflexivity.
Qed.

End ThrustSlot.

(** X11.  A division by zero in the thrust direction.  When the velocity
    profile holds a sample at the time of the step and that sample is the
    current velocity of the rocket, the velocity error is zero, its norm
    [accel] is zero, and the unit vector [dvx / accel], [dvy / accel] is
    0/0: the thrust vector stored in [forces[3]] has NaN in its x and y
    components, whatever the net thrust of the engines. *)
Theorem thrust_is_nan_on_the_profile (profile : velocity_flight_profile float)
    (t : float) (body : rocket float) (out : list (report float)) :
  (3 < length (forces body))%nat ->
  isnan (get_vx profile t) = false -> isnan (get_vy profile t) = false ->
  get_vx profile t = get_x (get_v body) -> get_vy profile t = get_y (get_v body) ->
  exists u : vector float,
    forces (thrust_step profile t (body, out)).1 !! 3%nat = Some u /\
    isnan (get_x u) = true /\ isnan (get_y u) = true.
Proof.
  intros Hlen Hvx Hvy Hx Hy.
  destruct (thrust_step_thrust_slot profile t body out Hlen) as (tn & Hslot).
  rewrite Hvx, Hvy in Hslot. cbn [negb andb] in Hslot.
  eexists. split; [exact Hslot|].
  rewrite <- Hx, <- Hy. cbn [get_x get_y].
  destruct (float_direction_of_no_error _ _ (float_sub_self _ Hvx) (float_sub_self _ Hvy))
    as [Hux Huy].
  cbn. rewrite Hux, Huy, !float_nan_mul. split; reflexivity.
Qed.

(** The hypotheses of the theorem above hold of the rocket of [Calc] before
    the first step and a profile that is at rest at time 0. *)
Lemma thrust_is_nan_on_the_profile_witness :
  (3 < length (forces (Calc_init : rocket float)))%nat /\
  isnan (get_vx at_rest_profile (of_int 0)) = false /\
  isnan (get_vy at_rest_profile (of_int 0)) = false /\
  get_vx at_rest_profile (of_int 0) = get_x (get_v (Calc_init : rocket float)) /\
  get_vy at_rest_profile (of_int 0) = get_y (get_v (Calc_init : rocket float)) /\
  exists u : vector float,
    forces (thrust_step at_rest_profile (of_int 0) (Calc_init, [])).1 !! 3%nat = Some u /\
    isnan (get_x u) = true /\ isnan (get_y u) = true.
Proof.
  assert (Hlen : (3 < length (forces (Calc_init : rocket float)))%nat) by (simpl; lia).
  assert (Hvx : isnan (get_vx at_rest_profile (of_int 0)) = false) by reflexivity.
  assert (Hvy : isnan (get_vy at_rest_profile (of_int 0)) = false) by reflexivity.
  assert (Hx : get_vx at_rest_profile (of_int 0) = get_x (get_v (Calc_init : rocket float)))
    by reflexivity.
  assert (Hy : get_vy at_rest_profile (of_int 0) = get_y (get_v (Calc_init : rocket float)))
    by reflexivity.
  split; [exact Hlen|]. split; [exact Hvx|]. split; [exact Hvy|].
  split; [exact Hx|]. split; [exact Hy|].
  exact (thrust_is_nan_on_the_profile at_rest_profile (of_int 0) Calc_init [] Hlen
           Hvx Hvy Hx Hy).
Defined.

(** The time of step [i] of the dynamics simulation is [i] exactly, and
    it is 155 at step 155 only. *)
Lemma Calc_step_time (i : nat) :
  (i < 400)%nat ->
  (of_int (Z.of_nat i) * TIME_STEP)%dbl = (of_int (Z.of_nat i) : float) /\
  ((of_int (Z.of_nat i) : float) =? of_int 155)%dbl = (i =? 155)%nat.
Proof.
  intros Hi.
  assert (Hall : forallb (fun i =>
            (if float_eq_dec (of_int (Z.of_nat i) * TIME_STEP)%dbl (of_int (Z.of_nat i))
             then true else false)
            && Bool.eqb ((of_int (Z.of_nat i) : float) =? of_int 155)%dbl (i =? 155)%nat)
            (seq 0 400) = true)
    by (vm_compute; reflexivity).
  rewrite forallb_forall in Hall.
  specialize (Hall i (proj2 (in_seq 400 0 i) ltac:(lia))).
  apply andb_true_iff in Hall as [H1 H2].
  destruct (float_eq_dec _ _) as [Heq|]; [|discriminate].
  split; [exact Heq|]. apply Bool.eqb_prop in H2. exact H2.
Qed.

(** X14.  What a step of the dynamics simulation prints, for each of its
    400 steps: the line "No propellant" with the time of the step when the
    remaining propellant is [<= 0]; otherwise the line "MECO" with the
    propellant that remains before the engines burn, at step 155 and at no
    other step; otherwise nothing.  A rocket that has no propellant left at
    step 155 does not report MECO. *)
Theorem one_report_per_step {L : Libm float} (profile : velocity_flight_profile float)
    (i : nat) (body : rocket float) (out : list (report float)) :
  (i < 400)%nat ->
  (Calc_step profile (Z.of_nat i) (body, out)).2
  = out ++ (if (get_prop_mass body <=? of_int 0)%dbl
            then [No_propellant (of_int (Z.of_nat i))]
            else if (i =? 155)%nat then [MECO (get_prop_mass body)] else []).
Proof.
  intros Hi. destruct (Calc_step_time i Hi) as [Ht H155].
  destruct (Calc_step_cases profile (Z.of_nat i) body out) as [Hstep Hframe].
  rewrite Hstep, Ht.
  destruct (get_prop_mass body <=? of_int 0)%dbl; [reflexivity|].
  match goal with |- context [thrust_step ?p ?t (?b, ?o)] =>
    pose proof (thrust_step_reports p t b o) as Hr;
    destruct (thrust_step p t (b, o)) as [b' o'] end.
  cbn [snd] in *. rewrite Hr, H155.
  destruct Hframe as (_ & _ & _ & _ & Hpm & _).
  unfold get_prop_mass. rewrite Hpm.
  destruct (i =? 155)%nat; [reflexivity|]. rewrite app_nil_r. reflexivity.
Qed.

(** The hypothesis of the theorem above holds of step 155 from the rocket
    of [Calc] before its first step. *)
Lemma one_report_per_step_witness :
  (155 < 400)%nat /\
  forall L : Libm float,
    (Calc_step no_velocity_profile 155 (Calc_init, [])).2
    = [MECO (of_int 395700)].
Proof.
  split; [lia|]. intros L.
  exact (one_report_per_step no_velocity_profile 155 Calc_init [] ltac:(lia)).
Defined.

(** ** The replay loop of [run_telemetry_profile::Calc] *)

Lemma for_loop_all {S : Type} (cond : Z -> bool) (f : Z -> S -> S)
    (n : nat) (i : Z) (s : S) :
  (forall k, i <= k < i + Z.of_nat n -> cond k = true) ->
  for_loop n cond (fun k s => (f k s, false)) i s
  = fold_left (fun s k => f k s) (map (fun k => i + Z.of_nat k) (seq 0 n)) s.
Proof.
  revert i s. induction n as [|n IH]; intros i s Hc; [reflexivity|].
  simpl. rewrite Hc by lia. rewrite IH by (intros k Hk; apply Hc; lia).
  rewrite Z.add_0_r. rewrite <- seq_shift, map_map.
  f_equal. apply map_ext. intros k. lia.
Qed.

(** The times of the 500 steps of the replay are the integers 0 to 499. *)
Lemma Calc_grid_exact (i : nat) :
  (i < 500)%nat -> grid (Calc_time_step : float) i = of_int (Z.of_nat i).
Proof.
  intros Hi.
  assert (Hall : forallb (fun i =>
            if float_eq_dec (grid (Calc_time_step : float) i) (of_int (Z.of_nat i))
            then true else false) (seq 0 500) = true)
    by (vm_compute; reflexivity).
  rewrite forallb_forall in Hall.
  specialize (Hall i (proj2 (in_seq 500 0 i) ltac:(lia))).
  destruct (float_eq_dec _ _) as [Heq|]; [exact Heq|discriminate].
Qed.

Section ReplayFacts.
Context {L : Libm float} {B : VelocityDrivenBody float}.
Local Open Scope dbl_scope.

Lemma replay_step_writes (fitted : telemetry_flight_profile float) (ts : float)
    (i : Z) (st : replay_state float) :
  let st' := replay_step fitted ts i st in
  (exists vx vy : float,
     rp_profile st' = put_vy (of_int i * ts) vy (put_vx (of_int i * ts) vx (rp_profile st))) /\
  (exists d : float, rp_recorded_drag st' = rp_recorded_drag st ++ [d]).
Proof.
  unfold replay_step.
  destruct (negb (isnan (get_velocity fitted (of_int i * ts)))
            && negb (isnan (get_altitude fitted (of_int i * ts))));
    cbn [rp_profile rp_recorded_drag]; split; eauto.
Qed.

Lemma replay_prefix (fitted : telemetry_flight_profile float) (n : nat)
    (st : replay_state float) :
  let ts := (Calc_time_step : float) in
  let st' := fold_left (fun s k => replay_step fitted ts k s)
                       (map (fun k => 0 + Z.of_nat k)%Z (seq 0 n)) st in
  vfp_time_step (rp_profile st') = vfp_time_step (rp_profile st) /\
  (exists ds, rp_recorded_drag st' = rp_recorded_drag st ++ ds /\ length ds = n) /\
  (forall i, (i < n)%nat ->
     is_Some (vfp_vx (rp_profile st') !! grid ts i) /\
     is_Some (vfp_vy (rp_profile st') !! grid ts i)) /\
  (forall t, (forall i, (i < n)%nat -> t <> grid ts i) ->
     vfp_vx (rp_profile st') !! t = vfp_vx (rp_profile st) !! t /\
     vfp_vy (rp_profile st') !! t = vfp_vy (rp_profile st) !! t).
Proof.
  intros ts. induction n as [|n IH].
  - simpl. split; [reflexivity|]. split; [exists []; rewrite app_nil_r; done|].
    split; [intros i Hi; lia|]. done.
  - replace (seq 0 (Datatypes.S n)) with (seq 0 n ++ [n]) by (rewrite seq_S; reflexivity).
    rewrite map_app, fold_left_app. cbn [map fold_left].
    set (stn := fold_left _ _ st) in *. cbn zeta in IH.
    destruct IH as (Hts & (ds & Hds & Hlen) & Hin & Hout).
    destruct (replay_step_writes fitted ts (0 + Z.of_nat n) stn) as ((vx & vy & Hp) & (d & Hd)).
    cbn zeta. rewrite Hp, Hd. change (of_int (0 + Z.of_nat n) * ts) with (grid ts n).
    cbn [rp_profile put_vx put_vy vfp_time_step vfp_vx vfp_vy].
    split; [exact Hts|]. split; [|split].
    + exists (ds ++ [d]). rewrite Hds, <- app_assoc. split; [reflexivity|].
      rewrite length_app. simpl. lia.
    + intros i Hi. destruct (decide (grid ts n = grid ts i)) as [Heq|Hne].
      * rewrite Heq, !lookup_insert_eq. split; eauto.
      * rewrite !lookup_insert_ne by exact Hne. apply Hin.
        destruct (decide (i = n)) as [->|]; [congruence|lia].
    + intros t Ht.
      assert (Hne : grid ts n <> t) by (intros <-; apply (Ht n); [lia|reflexivity]).
      rewrite !lookup_insert_ne by exact Hne. apply Hout. intros i Hi. apply Ht. lia.
Qed.

(** X15.  The replay loop runs its 500 steps and stores a sample of the
    horizontal and of the vertical velocity at the time of each of them,
    the integers 0 to 499; the samples of the result profile at every
    other time, and its time step, are those it had.  It appends one drag
    value a step to [recorded_drag], which starts with one zero.  Every
    time at which the dynamics simulation reads the profile, [i *
    TIME_STEP] for its 400 steps, is a time at which the replay stored a
    sample.  This holds whatever the velocity-driven body computes.
    [Calc] as a whole reaches the replay for every input: the conditioning
    that precedes it ends within 500 passes. *)
Theorem replay_records_every_step (fitted : telemetry_flight_profile float)
    (profile : velocity_flight_profile float) :
  let st := replay fitted profile in
  vfp_time_step (rp_profile st) = vfp_time_step profile /\
  (exists ds, rp_recorded_drag st = of_int 0 :: ds /\ length ds = 500%nat) /\
  (forall i, (i < 500)%nat ->
     is_Some (vfp_vx (rp_profile st) !! of_int (Z.of_nat i)) /\
     is_Some (vfp_vy (rp_profile st) !! of_int (Z.of_nat i))) /\
  (forall t, isnan t = false ->
     (forall i, (i < 500)%nat -> (t =? of_int (Z.of_nat i)) = false) ->
     vfp_vx (rp_profile st) !! t = vfp_vx profile !! t /\
     vfp_vy (rp_profile st) !! t = vfp_vy profile !! t) /\
  (forall i, (i < 400)%nat ->
     is_Some (vfp_vx (rp_profile st) !! (of_int (Z.of_nat i) * TIME_STEP)) /\
     is_Some (vfp_vy (rp_profile st) !! (of_int (Z.of_nat i) * TIME_STEP))) /\
  (forall (T : TelemProc float) (raw : telemetry_flight_profile float),
     exists (f : telemetry_flight_profile float) (log : list float),
       Calc_conditioning 500 raw = Some (f, log) /\
       run_telemetry_profile_Calc 500 raw profile = Some (replay f profile)).
Proof.
  intros st. subst st.
  assert (Hcalc : forall (T : TelemProc float) (raw : telemetry_flight_profile float),
            exists (f : telemetry_flight_profile float) (log : list float),
              Calc_conditioning 500 raw = Some (f, log) /\
              run_telemetry_profile_Calc 500 raw profile = Some (replay f profile)).
  { intros T raw. unfold run_telemetry_profile_Calc, Calc_conditioning, reconcile.
    set (fitted0 := setup_flight_profile raw (new_profile Calc_time_step)).
    assert (Hts0 : time_step fitted0 = (Calc_time_step : float))
      by (subst fitted0; rewrite setup_flight_profile_time_step; reflexivity).
    rewrite Calc_total_steps_500, <- Calc_grid_zero.
    destruct (reconcile_loop_terminates Calc_time_step Calc_max_time 500 Calc_grid_lt
                Calc_bound_below Calc_bound_at Calc_bound_fuel fitted0
                500 0 fitted0 [] ltac:(lia) ltac:(lia) Hts0)
      as (f & js & Hr & _).
    exists f, (map (grid Calc_time_step) js). rewrite Hr. split; reflexivity. }
  unfold replay, replay_steps.
  rewrite Calc_total_steps_500, Nat2Z.id.
  rewrite (for_loop_all _ (replay_step fitted Calc_time_step) 500 0)
    by (intros k Hk; apply Z.ltb_lt; lia).
  destruct (replay_prefix fitted 500 (replay_init profile))
    as (Hts & (ds & Hds & Hlen) & Hin & Hout).
  cbn zeta in Hts, Hds, Hin, Hout.
  set (st := fold_left _ _ _) in *.
  assert (Hgrid : forall i, (i < 500)%nat ->
            is_Some (vfp_vx (rp_profile st) !! of_int (Z.of_nat i)) /\
            is_Some (vfp_vy (rp_profile st) !! of_int (Z.of_nat i))).
  { intros i Hi. rewrite <- (Calc_grid_exact i Hi). apply Hin. exact Hi. }
  split; [exact Hts|]. split; [exists ds; split; [exact Hds|exact Hlen]|].
  split; [exact Hgrid|]. split; [|split; [|exact Hcalc]].
  - intros t Hnan Ht. apply Hout. intros i Hi. rewrite (Calc_grid_exact i Hi).
    apply float_eqb_false_neq; [exact Hnan|]. apply Ht. exact Hi.
  - intros i Hi. destruct (Calc_step_time i Hi) as [-> _]. apply Hgrid. lia.
Qed.

End ReplayFacts.

(** ** The dynamics simulation: the shape of the state and the empty tank *)

Section StepShape.
Context {D : Type} `{Arith D} `{Libm D} `{HasNaN D} `{Countable D}.
Local Open Scope dbl_scope.

Lemma normal_force_step_shape (b : rocket D) :
  shape (normal_force_step b) = shape b.
Proof.
  unfold normal_force_step, shape.
  destruct (get_y (get_p b) <? of_int 0); [|simpl; rewrite length_insert; reflexivity].
  destruct (get_y (get_v b) <? of_int 0); simpl; rewrite !length_insert; reflexivity.
Qed.

Lemma weight_drag_step_shape (b : rocket D) :
  shape (weight_drag_step b) = shape b.
Proof. unfold weight_drag_step, shape. simpl. rewrite !length_insert. reflexivity. Qed.

Lemma thrust_step_shape (profile : velocity_flight_profile D) (t : D)
    (b : rocket D) (out : list (report D)) :
  shape (thrust_step profile t (b, out)).1 = shape b.
Proof.
  unfold thrust_step.
  set (tracking := negb (isnan (get_vx profile t)) && negb (isnan (get_vy profile t))).
  set (b1 := if tracking then _ else b).
  assert (Hb1 : shape b1 = shape b).
  { subst b1. destruct tracking; [|reflexivity]. unfold shape. simpl.
    rewrite length_map. reflexivity. }
  assert (Hloop : forall (b3 : rocket D) (u : D -> vector D),
            shape (set_force 3 (u (thrust_loop (engines b3) (of_int 0) b3).1)
                             (thrust_loop (engines b3) (of_int 0) b3).2)
            = shape b3).
  { intros b3 u.
    pose proof (thrust_loop_frame (engines b3) (of_int 0) b3) as Hf.
    cbn zeta in Hf. destruct Hf as (Hd & _ & Hf & _ & _ & He).
    unfold shape. simpl. rewrite length_insert, Hf, Hd, He. reflexivity. }
  assert (Hoff : forall b2 : rocket D, shape b2 = shape b ->
            shape (if t >? of_int 155
                   then set_engines (map (set_throttle (of_int 0)) (engines b2)) b2
                   else b2) = shape b).
  { intros b2 Hb2. destruct (t >? of_int 155); [|exact Hb2].
    rewrite <- Hb2. unfold shape. simpl. rewrite length_map. reflexivity. }
  destruct (t =? of_int 155).
  - set (b2 := set_mass _ b1).
    assert (Hb2 : shape b2 = shape b) by exact Hb1.
    specialize (Hoff b2 Hb2). set (b3 := if t >? of_int 155 then _ else b2) in *.
    rewrite <- Hoff.
    destruct (thrust_loop (engines b3) (of_int 0) b3) as [tn b4] eqn:E.
    cbn [fst].
    match goal with |- shape (set_force 3 ?w b4) = _ =>
      pose proof (Hloop b3 (fun _ => w)) as Hl end.
    rewrite E in Hl. exact Hl.
  - specialize (Hoff b1 Hb1). set (b3 := if t >? of_int 155 then _ else b1) in *.
    rewrite <- Hoff.
    destruct (thrust_loop (engines b3) (of_int 0) b3) as [tn b4] eqn:E.
    cbn [fst].
    match goal with |- shape (set_force 3 ?w b4) = _ =>
      pose proof (Hloop b3 (fun _ => w)) as Hl end.
    rewrite E in Hl. exact Hl.
Qed.

Lemma integrate_shape (b : rocket D) : shape (integrate b) = shape b.
Proof.
  unfold integrate, post_compute, compute_motion, compute_forces, shape. simpl.
  rewrite !length_insert. reflexivity.
Qed.

Lemma Calc_step_shape (profile : velocity_flight_profile D) (i : Z)
    (body : rocket D) (out : list (report D)) :
  shape (Calc_step profile i (body, out)).1 = shape body.
Proof.
  assert (Hafter : shape (weight_drag_step (normal_force_step (pre_compute body)))
                   = shape body)
    by (rewrite weight_drag_step_shape, normal_force_step_shape; reflexivity).
  unfold Calc_step.
  destruct (get_prop_mass _ <=? of_int 0); [exact Hafter|].
  match goal with |- context [thrust_step ?p ?t (?b, ?o)] =>
    pose proof (thrust_step_shape p t b o) as Ht;
    destruct (thrust_step p t (b, o)) as [b' o'] end.
  cbn [fst] in *. rewrite integrate_shape, Ht. exact Hafter.
Qed.

(** X16.  The rocket of the dynamics simulation keeps its four force
    slots (weight, normal force, drag, thrust), its four derivatives of
    motion and its nine engines through every step of every run, so that
    [forces[0]] to [forces[3]] and [d_mot[0]] to [d_mot[3]] are in range
    each time a step reads or writes them. *)
Theorem simulation_keeps_its_slots (profile : velocity_flight_profile D) (n : nat) :
  shape (Calc_init : rocket D) = (4, 4, 9)%nat /\
  shape (Calc_steps profile n (Calc_init, [])).1 = (4, 4, 9)%nat /\
  shape (run_test_rocket_Calc profile).1 = (4, 4, 9)%nat /\
  (forall (i : Z) (body : rocket D) (out : list (report D)),
     shape (Calc_step profile i (body, out)).1 = shape body).
Proof.
  assert (Hinit : shape (Calc_init : rocket D) = (4, 4, 9)%nat) by reflexivity.
  assert (Hsteps : forall m, shape (Calc_steps profile m (Calc_init, [])).1 = (4, 4, 9)%nat).
  { intros m. unfold Calc_steps.
    apply (for_loop_invariant (fun st : rocket D * list (report D) =>
                                 shape st.1 = (4, 4, 9)%nat)); [|exact Hinit].
    intros k [b o] _ _ Hs. cbn [fst] in *. rewrite Calc_step_shape. exact Hs. }
  split; [exact Hinit|]. split; [apply Hsteps|]. split; [apply Hsteps|].
  apply Calc_step_shape.
Qed.

Lemma depleted_step (profile : velocity_flight_profile D) (k : Z)
    (b : rocket D) (out : list (report D)) :
  (get_prop_mass b <=? of_int 0) = true ->
  let b' := (Calc_step profile k (b, out)).1 in
  get_p b' = get_p b /\ get_a b' = get_a b /\ get_j b' = get_j b /\
  mass b' = mass b /\ prop_mass b' = prop_mass b /\ engines b' = engines b /\
  forces b' !! 3%nat = forces b !! 3%nat.
Proof.
  intros Hdep b'. subst b'.
  destruct (Calc_step_cases profile k b out) as [Hstep Hframe].
  rewrite Hstep, Hdep. cbn [fst]. exact Hframe.
Qed.

(** X17.  Once the remaining propellant is [<= 0] the rocket never moves
    again: every later step ends at the propellant check, so through any
    further steps the position, the acceleration, the jerk, the mass, the
    propellant, the engines and the thrust slot stay what they were when
    the tank ran empty, and each of these steps reports "No propellant". *)
Theorem depleted_rocket_stays_put (profile : velocity_flight_profile D)
    (ks : list Z) (body : rocket D) (out : list (report D)) :
  (get_prop_mass body <=? of_int 0) = true ->
  let st' := fold_left (fun st k => Calc_step profile k st) ks (body, out) in
  get_p st'.1 = get_p body /\ get_a st'.1 = get_a body /\ get_j st'.1 = get_j body /\
  mass st'.1 = mass body /\ prop_mass st'.1 = prop_mass body /\
  engines st'.1 = engines body /\
  forces st'.1 !! 3%nat = forces body !! 3%nat /\
  st'.2 = out ++ map (fun k => No_propellant (of_int k * TIME_STEP)) ks.
Proof.
  intros Hdep. revert body out Hdep.
  induction ks as [|k ks IH]; intros body out Hdep; cbn [fold_left map].
  - rewrite app_nil_r. done.
  - destruct (depleted_step profile k body out Hdep) as (Hp & Ha & Hj & Hm & Hpm & He & Hf).
    assert (Hout : (Calc_step profile k (body, out)).2
                   = out ++ [No_propellant (of_int k * TIME_STEP)]).
    { destruct (Calc_step_cases profile k body out) as [Hstep _].
      rewrite Hstep, Hdep. reflexivity. }
    destruct (Calc_step profile k (body, out)) as [b1 o1]. cbn [fst snd] in *.
    assert (Hdep1 : (get_prop_mass b1 <=? of_int 0) = true)
      by (unfold get_prop_mass in *; rewrite Hpm; exact Hdep).
    specialize (IH b1 o1 Hdep1). cbn zeta in IH.
    destruct IH as (Hp' & Ha' & Hj' & Hm' & Hpm' & He' & Hf' & Ho').
    rewrite Hp', Ha', Hj', Hm', Hpm', He', Hf', Ho', Hout, <- app_assoc.
    repeat split; assumption || reflexivity.
Qed.

End StepShape.

(** The hypothesis of the theorem above holds of the rocket of [Calc] on
    the pad with an empty tank. *)
Lemma depleted_rocket_stays_put_witness :
  (get_prop_mass drained_on_pad <=? of_int 0)%dbl = true /\
  forall L : Libm float,
    get_p (fold_left (fun st k => Calc_step no_velocity_profile k st) [0; 1; 2]%Z
                     (drained_on_pad, [])).1
    = get_p drained_on_pad.
Proof.
  assert (Hdep : (get_prop_mass drained_on_pad <=? of_int 0)%dbl = true) by reflexivity.
  split; [exact Hdep|]. intros L.
  exact (proj1 (depleted_rocket_stays_put no_velocity_profile [0; 1; 2]%Z
                  drained_on_pad [] Hdep)).
Defined.

(** ** [setup_flight_profile]: the rewrite of legs 0 and 2, leg by leg *)

Section RewriteByLeg.
Context {D : Type} `{Arith D} `{HasNaN D} `{Countable D} {T : TelemProc D}.
Local Open Scope dbl_scope.

(** X18.  The first rewrite of [setup_flight_profile] works on three
    events and three fitted polynomials, and replaces the altitude of each
    sample by its leg: before the first event by the value of the
    polynomial of leg 0, clamped at zero; from the first event and before
    the second it is left as interpolated; from the second event and before
    the third by the value of the polynomial of leg 2, clamped at zero; at
    any other time (from the third event on, or a time that compares with
    no event) it is left as interpolated. *)
Theorem legs_are_rewritten_by_leg (raw fitted : telemetry_flight_profile D) :
  let tr := setup_flight_profile_trace raw fitted in
  exists (e0 e1 e2 : D) (P0 P1 P2 : polynomial),
    st_events tr = [e0; e1; e2] /\
    st_alt_fit tr = [P0; P1; P2] /\
    forall t : D,
      altitude (st_rewritten tr) !! t
      = (fun alt =>
           if t <? e0 then (if val P0 t <? of_int 0 then of_int 0 else val P0 t)
           else if t <? e1 then alt
           else if t <? e2 then (if val P2 t <? of_int 0 then of_int 0 else val P2 t)
           else alt)
        <$> altitude (st_interpolated tr) !! t.
Proof.
  unfold setup_flight_profile_trace.
  destruct (collect _ _) as [times legs].
  cbn [st_events st_alt_fit st_rewritten st_interpolated].
  do 6 eexists. split; [reflexivity|]. split; [reflexivity|].
  intros t. rewrite rewrite_legs_lookup.
  match goal with |- _ <$> ?m = _ <$> ?m => destruct m as [alt|]; [|reflexivity] end.
  cbn [fmap option_fmap option_map]. f_equal.
  unfold leg_rewrite. cbn [first_leg].
  destruct (t <? _); [reflexivity|].
  destruct (t <? _); [reflexivity|].
  destruct (t <? _); reflexivity.
Qed.

End RewriteByLeg.

(** ** The dynamics simulation: the mass and the throttle *)

Section MassAndThrottle.
Context {D : Type} `{Arith D} `{Libm D} `{HasNaN D} `{Countable D}.
Local Open Scope dbl_scope.

Lemma thrust_loop_net (es : list (engine D)) (t : D) (b : rocket D) :
  (thrust_loop es t b).1 = fold_left (fun a e => a + get_thrust e) es t.
Proof.
  revert t b. induction es as [|e es IH]; intros t b; [reflexivity|].
  simpl. apply IH.
Qed.

(** X19.  Without a target, that is when the velocity profile has no
    sample (NaN) at the time of the step, and up to the time 155, a step
    that has propellant leaves the throttle of every engine as it was, and
    the thrust it stores in [forces[3]] is vertical: its y component is the
    sum of the thrusts of the engines at that throttle, and its x and z
    components are zero. *)
Theorem no_target_keeps_throttle (profile : velocity_flight_profile D) (t : D)
    (b : rocket D) (out : list (report D)) :
  (3 < length (forces b))%nat ->
  negb (isnan (get_vx profile t)) && negb (isnan (get_vy profile t)) = false ->
  (t >? of_int 155) = false ->
  let b' := (thrust_step profile t (b, out)).1 in
  engines b' = engines b /\
  forces b' !! 3%nat
  = Some (mk_vector (of_int 0)
                    (fold_left (fun a e => a + get_thrust e) (engines b) (of_int 0))
                    (of_int 0)).
Proof.
  intros Hlen Htrack Hafter b'. subst b'. unfold thrust_step.
  rewrite Htrack, Hafter.
  assert (Hgo : forall b2 : rocket D, engines b2 = engines b -> forces b2 = forces b ->
            forall out2 : list (report D),
            let r := (let '(thrust_net, body) := thrust_loop (engines b2) (of_int 0) b2 in
                      (set_force 3 (mk_vector (of_int 0) thrust_net (of_int 0)) body, out2)) in
            engines r.1 = engines b /\
            forces r.1 !! 3%nat
            = Some (mk_vector (of_int 0)
                      (fold_left (fun a e => a + get_thrust e) (engines b) (of_int 0))
                      (of_int 0))).
  { intros b2 He Hf out2.
    pose proof (thrust_loop_frame (engines b2) (of_int 0) b2) as Hfr.
    pose proof (thrust_loop_net (engines b2) (of_int 0) b2) as Hnet.
    destruct (thrust_loop (engines b2) (of_int 0) b2) as [tn b4].
    cbn zeta in Hfr. cbn [fst snd] in *. cbn zeta. cbn [fst set_force engines forces].
    destruct Hfr as (_ & _ & Hf4 & _ & _ & He4).
    split; [rewrite He4; exact He|].
    rewrite list_lookup_insert_eq by (rewrite Hf4, Hf; exact Hlen).
    rewrite Hnet, He. reflexivity. }
  destruct (t =? of_int 155).
  - exact (Hgo (set_mass _ b) eq_refl eq_refl _).
  - exact (Hgo b eq_refl eq_refl _).
Qed.

End MassAndThrottle.

(** The hypotheses of the theorem above hold of the rocket of [Calc] before
    its first step and a velocity profile that has no sample. *)
Lemma no_target_keeps_throttle_witness :
  (3 < length (forces (Calc_init : rocket float)))%nat /\
  negb (isnan (get_vx no_velocity_profile (of_int 0)))
    && negb (isnan (get_vy no_velocity_profile (of_int 0))) = false /\
  ((of_int 0 : float) >? of_int 155)%dbl = false /\
  engines (thrust_step no_velocity_profile (of_int 0) (Calc_init, [])).1
  = engines (Calc_init : rocket float).
Proof.
  assert (Hlen : (3 < length (forces (Calc_init : rocket float)))%nat) by (simpl; lia).
  assert (Htrack : negb (isnan (get_vx no_velocity_profile (of_int 0)))
                   && negb (isnan (get_vy no_velocity_profile (of_int 0))) = false)
    by reflexivity.
  assert (Hafter : ((of_int 0 : float) >? of_int 155)%dbl = false) by reflexivity.
  split; [exact Hlen|]. split; [exact Htrack|]. split; [exact Hafter|].
  exact (proj1 (no_target_keeps_throttle no_velocity_profile (of_int 0) Calc_init []
                  Hlen Htrack Hafter)).
Defined.

(** X20.  The mass that the body holds is written at stage separation
    only.  For each of the 400 steps of the dynamics simulation: a step
    that finds no propellant, and a step other than step 155, leave it as
    it was; step 155, when it has propellant, sets it to the total mass
    [get_mass] less the dry mass and the fuel of the second stage and the
    payload. *)
Theorem mass_is_set_at_separation_only {L : Libm float}
    (profile : velocity_flight_profile float) (i : nat)
    (body : rocket float) (out : list (report float)) :
  (i < 400)%nat ->
  mass (Calc_step profile (Z.of_nat i) (body, out)).1
  = if (get_prop_mass body <=? of_int 0)%dbl then mass body
    else if (i =? 155)%nat
    then (get_mass body - stage_2_dry_mass_kg - stage_2_fuel_mass_kg - payload_mass_kg)%dbl
    else mass body.
Proof.
  intros Hi. destruct (Calc_step_time i Hi) as [Ht H155].
  destruct (Calc_step_cases profile (Z.of_nat i) body out) as [Hstep Hframe].
  destruct Hframe as (_ & _ & _ & Hm & Hpm & _).
  rewrite Hstep, Ht.
  destruct (get_prop_mass body <=? of_int 0)%dbl; [exact Hm|].
  match goal with |- context [thrust_step ?p ?t (?b, ?o)] =>
    pose proof (thrust_step_mass p t b o) as Hmass;
    destruct (thrust_step p t (b, o)) as [b' o'] end.
  cbn [fst] in *. change (mass (integrate b')) with (mass b').
  rewrite Hmass, H155. unfold get_mass. rewrite Hm, Hpm. reflexivity.
Qed.

(** The hypothesis of the theorem above holds of step 155 from the rocket
    of [Calc] before its first step. *)
Lemma mass_is_set_at_separation_only_witness :
  (155 < 400)%nat /\
  forall L : Libm float,
    mass (Calc_step no_velocity_profile 155 (Calc_init, [])).1 = 421300%float.
Proof.
  split; [lia|]. intros L.
  exact (mass_is_set_at_separation_only no_velocity_profile 155 Calc_init [] ltac:(lia)).
Defined.
(** * The arithmetic of [double] in the sources

    The statements of this part are about IEEE-754 binary64 as the
    program computes with it, through the specification [SpecFloat] of the
    primitive floats. *)

(** ** Products by 1 and -1 are exact *)

Lemma digits2_pos_shift (m : positive) (k : nat) :
  Zpos (digits2_pos (Nat.iter k xO m)) = Zpos (digits2_pos m) + Z.of_nat k.
Proof.
  induction k as [|k IH]; [simpl; lia|].
  rewrite Nat.iter_succ. cbn [digits2_pos]. rewrite Pos2Z.inj_succ, IH. lia.
Qed.

Lemma canonical_fexp (m : positive) (e : Z) :
  SpecFloat.bounded prec emax m e = true ->
  fexp prec emax (Zpos (digits2_pos m) + e) = e /\ e <= emax - prec.
Proof.
  unfold SpecFloat.bounded, canonical_mantissa. intros Hb.
  apply andb_true_iff in Hb as [Hc He].
  apply Z.eqb_eq in Hc. apply Z.leb_le in He. split; assumption.
Qed.

Lemma shr_fexp_one_mul (m : positive) (e : Z) :
  SpecFloat.bounded prec emax m e = true ->
  shr_fexp prec emax (Zpos (4503599627370496 * m)) (-52 + e) loc_Exact
  = ({| shr_m := Zpos m; shr_r := false; shr_s := false |}, e).
Proof.
  intros Hb. destruct (canonical_fexp m e Hb) as [Hc He].
  unfold shr_fexp.
  change (4503599627370496 * m)%positive with (Nat.iter 52 xO m).
  unfold Zdigits2. rewrite (digits2_pos_shift m 52).
  replace (Zpos (digits2_pos m) + Z.of_nat 52 + (-52 + e)) with (Zpos (digits2_pos m) + e)
    by lia.
  rewrite Hc. replace (e - (-52 + e)) with 52 by lia.
  unfold shr. replace (-52 + e + 52) with e by lia.
  apply (f_equal (fun r => (r, e))). vm_compute. reflexivity.
Qed.

Lemma shr_fexp_canonical (m : positive) (e : Z) :
  SpecFloat.bounded prec emax m e = true ->
  shr_fexp prec emax (Zpos m) e loc_Exact
  = ({| shr_m := Zpos m; shr_r := false; shr_s := false |}, e).
Proof.
  intros Hb. destruct (canonical_fexp m e Hb) as [Hc He].
  unfold shr_fexp, Zdigits2. rewrite Hc, Z.sub_diag. reflexivity.
Qed.

Lemma binary_round_aux_canonical (s : bool) (m : positive) (e : Z) :
  SpecFloat.bounded prec emax m e = true ->
  binary_round_aux prec emax s (Zpos m) e loc_Exact = S754_finite s m e.
Proof.
  intros Hb. destruct (canonical_fexp m e Hb) as [Hc He].
  unfold binary_round_aux. rewrite (shr_fexp_canonical m e Hb).
  cbn [shr_m loc_of_shr_record round_nearest_even].
  rewrite (shr_fexp_canonical m e Hb). cbn [shr_m].
  apply Z.leb_le in He. rewrite He. reflexivity.
Qed.

Lemma SFmul_one (s0 : bool) (x : spec_float) :
  SpecFloat.valid_binary prec emax x = true ->
  SFmul prec emax (S754_finite s0 4503599627370496 (-52)) x
  = if s0 then SFopp x else x.
Proof.
  intros Hv. destruct x as [s|s| |s m e]; cbn [SFmul SFopp].
  - destruct s0, s; reflexivity.
  - destruct s0, s; reflexivity.
  - destruct s0; reflexivity.
  - cbn [SpecFloat.valid_binary] in Hv. destruct (canonical_fexp m e Hv) as [Hc He].
    unfold binary_round_aux. rewrite (shr_fexp_one_mul m e Hv).
    cbn [shr_m loc_of_shr_record round_nearest_even].
    rewrite (shr_fexp_canonical m e Hv). cbn [shr_m].
    apply Z.leb_le in He. rewrite He. destruct s0, s; reflexivity.
Qed.

Lemma float_one_mul (x : float) : (1 * x)%float = x.
Proof.
  apply Prim2SF_inj. rewrite FloatAxioms.mul_spec.
  replace (Prim2SF 1%float) with (S754_finite false 4503599627370496 (-52))
    by (vm_compute; reflexivity).
  unfold SF64mul. rewrite (SFmul_one false) by apply FloatAxioms.Prim2SF_valid.
  reflexivity.
Qed.

Lemma float_opp_one_mul (x : float) : ((-1) * x)%float = (- x)%float.
Proof.
  apply Prim2SF_inj. rewrite FloatAxioms.mul_spec, FloatAxioms.opp_spec.
  replace (Prim2SF (-1)%float) with (S754_finite true 4503599627370496 (-52))
    by (vm_compute; reflexivity).
  unfold SF64mul. rewrite (SFmul_one true) by apply FloatAxioms.Prim2SF_valid.
  reflexivity.
Qed.

(** ** [adjust_velocity] in [double] *)

(** The test [|r| > m] and the two tests of a clamp, on the specification
    of the comparisons. *)
Lemma clamp_sf (R M : spec_float) :
  SFltb M (S754_zero false) = false ->
  (SFltb M (SFabs R) = true ->
     (SFltb (S754_zero false) R = true /\ SFltb R (S754_zero false) = false /\ SFltb M R = true) \/
     (SFltb (S754_zero false) R = false /\ SFltb R (S754_zero false) = true /\ SFltb M R = false /\
      SFltb R (SFopp M) = true)) /\
  (SFltb M (SFabs R) = false -> SFltb M R = false /\ SFltb R (SFopp M) = false).
Proof.
  unfold SFltb.
  destruct R as [s1|s1| |s1 m1 e1], M as [s2|s2| |s2 m2 e2];
    cbn [SFabs SFopp SFcompare negb];
    try (destruct s1); try (destruct s2); cbn [negb];
    intros H0; try discriminate H0;
    (split; [intros HA; try discriminate HA; auto|intros HA; try discriminate HA; auto]).
  all: try (left; repeat split; reflexivity).
  all: try (right; repeat split; reflexivity).
  all: revert HA; rewrite ?(Z.compare_antisym e1 e2);
    try (change (Pos.compare_cont Eq m2 m1) with (Pos.compare m2 m1);
         rewrite (Pos.compare_antisym m1 m2));
    change (Pos.compare_cont Eq m1 m2) with (Pos.compare m1 m2);
    destruct (e1 ?= e2); cbn [CompOpp]; destruct (m1 ?= m2)%positive; cbn [CompOpp];
    intros HA; try discriminate HA; auto.
  all: try (left; repeat split; reflexivity).
  all: try (right; repeat split; reflexivity).
Qed.

Lemma compare_cont_Eq_antisym (p q : positive) :
  Pos.compare_cont Eq q p = CompOpp (Pos.compare_cont Eq p q).
Proof. change Eq with (CompOpp Eq) at 1. symmetry. apply Pos.compare_cont_antisym. Qed.

Lemma clamp_sf_bounds (R M : spec_float) :
  SFltb M (S754_zero false) = false ->
  let Y := if SFltb M R then M else if SFltb R (SFopp M) then SFopp M else R in
  (R <> S754_nan -> M <> S754_nan -> SFleb (SFabs Y) M = true) /\
  (SFltb (S754_zero false) R = true -> SFleb (S754_zero false) Y = true) /\
  (SFltb R (S754_zero false) = true -> SFleb Y (S754_zero false) = true).
Proof.
  unfold SFltb, SFleb.
  destruct R as [s1|s1| |s1 m1 e1], M as [s2|s2| |s2 m2 e2];
    cbn [SFabs SFopp SFcompare negb];
    try (destruct s1); try (destruct s2); cbn [negb SFabs SFopp SFcompare];
    intros H0; try discriminate H0;
    try (repeat split; intros; try reflexivity; try discriminate; congruence).
  all: rewrite ?Z.compare_refl, ?Pos.compare_cont_refl;
    try (repeat split; intros; try reflexivity; try discriminate; congruence).
  all: rewrite ?(Z.compare_antisym e1 e2), ?(compare_cont_Eq_antisym m1 m2);
    destruct (e1 ?= e2) eqn:He; destruct (Pos.compare_cont Eq m1 m2) eqn:Hm;
    cbn [CompOpp SFabs SFopp SFcompare negb];
    rewrite ?Z.compare_refl, ?Pos.compare_cont_refl, ?He, ?Hm;
    repeat split; intros; try reflexivity; try discriminate; try congruence.
Qed.

Section FloatClamp.
Local Open Scope dbl_scope.

Lemma float_ltb_sf (x y : float) : (x <? y) = SFltb (Prim2SF x) (Prim2SF y).
Proof. cbn. apply FloatAxioms.ltb_spec. Qed.

Lemma float_leb_sf (x y : float) : (x <=? y) = SFleb (Prim2SF x) (Prim2SF y).
Proof. cbn. apply FloatAxioms.leb_spec. Qed.

Lemma float_abs_sf (x : float) : Prim2SF (Dabs x) = SFabs (Prim2SF x).
Proof. cbn. apply FloatAxioms.abs_spec. Qed.

Lemma float_opp_sf (x : float) : Prim2SF (Dopp x) = SFopp (Prim2SF x).
Proof. cbn. apply FloatAxioms.opp_spec. Qed.

Lemma float_zero_sf : Prim2SF (of_int 0) = S754_zero false.
Proof. reflexivity. Qed.

(** The clamp of [adjust_velocity]: for a bound [m] that is not negative,
    replacing [r] by [signum r * m] when [|r| > m] is the clamp of [r] to
    the interval from [- m] to [m]. *)
Lemma float_clamp (r m : float) :
  (m <? of_int 0) = false ->
  (if Dabs r >? m then of_int (signum r) * m else r)
  = (if r >? m then m else if r <? - m then - m else r).
Proof.
  intros Hm. unfold signum.
  pose proof (clamp_sf (Prim2SF r) (Prim2SF m)) as Hc.
  rewrite <- float_zero_sf, <- float_abs_sf, <- float_opp_sf, <- !float_ltb_sf in Hc.
  destruct (Hc Hm) as [Hgt Hle]. clear Hc.
  destruct (Dabs r >? m).
  - destruct (Hgt eq_refl) as [(Hp & Hn & Hrm)|(Hp & Hn & Hrm & Hrn)].
    + rewrite Hp, Hn, Hrm. change (of_int (Z.b2z true - Z.b2z false)) with 1%float.
      apply float_one_mul.
    + rewrite Hp, Hn, Hrm, Hrn. change (of_int (Z.b2z false - Z.b2z true)) with (-1)%float.
      apply float_opp_one_mul.
  - destruct (Hle eq_refl) as [-> ->]. reflexivity.
Qed.

Lemma float_clamp_bounds (r m : float) :
  (m <? of_int 0) = false ->
  let y := if r >? m then m else if r <? - m then - m else r in
  (isnan r = false -> isnan m = false -> (Dabs y <=? m) = true) /\
  ((r >? of_int 0) = true -> (y >=? of_int 0) = true) /\
  ((r <? of_int 0) = true -> (y <=? of_int 0) = true).
Proof.
  intros Hm y.
  pose proof (clamp_sf_bounds (Prim2SF r) (Prim2SF m)) as Hb.
  rewrite <- float_zero_sf, <- float_opp_sf, <- !float_ltb_sf in Hb.
  specialize (Hb Hm). cbn zeta in Hb.
  assert (Hy : Prim2SF y
               = if r >? m then Prim2SF m
                 else if r <? - m then Prim2SF (Dopp m) else Prim2SF r).
  { subst y. destruct (r >? m); [reflexivity|].
    destruct (r <? - m); reflexivity. }
  rewrite <- Hy in Hb. rewrite <- float_abs_sf, <- !float_leb_sf in Hb.
  destruct Hb as (Habs & Hpos & Hneg).
  split; [|split; assumption].
  intros Hr Hmn. apply Habs.
  - intros E. apply float_isnan_spec in E. congruence.
  - intros E. apply float_isnan_spec in E. congruence.
Qed.

Lemma binary_round_aux_not_negative (m e : Z) (l : location) :
  SFltb (binary_round_aux prec emax false m e l) (S754_zero false) = false.
Proof.
  unfold binary_round_aux.
  destruct (shr_fexp prec emax m e l) as [mrs e'].
  destruct (shr_fexp prec emax _ e' loc_Exact) as [mrs' e''].
  destruct (shr_m mrs'); [reflexivity| |reflexivity].
  destruct (e'' <=? emax - prec)%Z; reflexivity.
Qed.

(** [sqrt] never returns a negative number. *)
Lemma float_sqrt_not_negative (z : float) : (Dsqrt z <? of_int 0) = false.
Proof.
  rewrite float_ltb_sf, float_zero_sf. cbn [Dsqrt float_arith].
  rewrite FloatAxioms.sqrt_spec. unfold SF64sqrt, SFsqrt.
  destruct (Prim2SF z) as [s|s| |s m e]; try reflexivity.
  - destruct s; reflexivity.
  - destruct s; [reflexivity|].
    destruct (SFsqrt_core_binary prec emax (Zpos m) e) as [[mz ez] lz].
    apply binary_round_aux_not_negative.
Qed.

(** C3.  In [double], with a commanded speed [mag_v] that is not negative:
    for a nonzero setpoint the vertical command is
    [(setpoint - last_state) / time_step] clamped to the interval from
    [- mag_v] to [mag_v] (its magnitude is at most [mag_v] when neither is
    a NaN, and it is not of the opposite sign of the unclamped value), the
    horizontal command is [sqrt (mag_v * mag_v - v_y * v_y)], which is
    never negative, and the third component is zero; for a zero setpoint
    the command is [(0, mag_v, 0)], whatever the controller's last state
    and [cur_v]. *)
Theorem adjust_velocity_command (pidf : pidf_controller float) (cur_v : vector float)
    (mag_v : float) :
  (mag_v <? of_int 0) = false ->
  let raw := (get_setpoint pidf - get_last_state pidf) / pidf_time_step pidf in
  let cmd := adjust_velocity pidf cur_v mag_v in
  ((get_setpoint pidf =? of_int 0) = false ->
     get_y cmd = (if raw >? mag_v then mag_v
                  else if raw <? - mag_v then - mag_v else raw) /\
     (isnan raw = false -> isnan mag_v = false -> (Dabs (get_y cmd) <=? mag_v) = true) /\
     ((raw >? of_int 0) = true -> (get_y cmd >=? of_int 0) = true) /\
     ((raw <? of_int 0) = true -> (get_y cmd <=? of_int 0) = true) /\
     get_x cmd = Dsqrt (mag_v * mag_v - get_y cmd * get_y cmd) /\
     (get_x cmd <? of_int 0) = false /\
     get_z cmd = of_int 0) /\
  ((get_setpoint pidf =? of_int 0) = true ->
     cmd = mk_vector (of_int 0) mag_v (of_int 0)).
Proof.
  intros Hmag raw cmd. split.
  - intros Hsp. subst cmd. unfold adjust_velocity, compute_error. rewrite Hsp.
    fold raw. cbn [get_x get_y get_z].
    rewrite (float_clamp raw mag_v Hmag).
    destruct (float_clamp_bounds raw mag_v Hmag) as (Habs & Hpos & Hneg).
    cbn zeta in Habs, Hpos, Hneg.
    split; [reflexivity|]. split; [exact Habs|]. split; [exact Hpos|].
    split; [exact Hneg|]. split; [reflexivity|].
    split; [apply float_sqrt_not_negative|reflexivity].
  - intros Hsp. exact (adjust_velocity_zero_setpoint pidf cur_v mag_v Hsp).
Qed.

(** The hypothesis of the theorem above holds of a command at speed 30
    towards a setpoint 18 above the last state, with time step 1: the
    command is [(24, 18, 0)]. *)
Lemma adjust_velocity_command_witness :
  (30%float <? of_int 0) = false /\
  let pidf := (mk_pidf 1 0 0 0 0 18 0)%float in
  let cmd := adjust_velocity pidf zero_vector 30%float in
  get_y cmd = 18%float /\ get_x cmd = 24%float /\ get_z cmd = 0%float.
Proof.
  assert (Hmag : (30%float <? of_int 0) = false) by reflexivity.
  split; [exact Hmag|].
  destruct (adjust_velocity_command (mk_pidf 1 0 0 0 0 18 0)%float zero_vector 30%float Hmag)
    as [Hnz _].
  destruct (Hnz eq_refl) as (Hy & _ & _ & _ & Hx & _ & Hz).
  cbv zeta. rewrite Hx, Hy, Hz. repeat split; vm_compute; reflexivity.
Defined.

End FloatClamp.

(** ** [calc_drag] in [double] *)

Lemma shr_fexp_by (m e n : Z) (l : location) :
  fexp prec emax (Zdigits2 m + e) - e = n ->
  shr_fexp prec emax m e l = shr (shr_record_of_loc m l) e n.
Proof. unfold shr_fexp. intros ->. reflexivity. Qed.

Lemma shr_by_52 (m : positive) (e : Z) :
  shr (shr_record_of_loc (Zpos (Nat.iter 52 xO m)) loc_Exact) e 52
  = ({| shr_m := Zpos m; shr_r := false; shr_s := false |}, e + 52).
Proof. unfold shr. apply (f_equal (fun r => (r, e + 52))). vm_compute. reflexivity. Qed.

Lemma shr_by_53 (m : positive) (e : Z) :
  shr (shr_record_of_loc (Zpos (Nat.iter 52 xO m)) loc_Exact) e 53
  = (shr_1 {| shr_m := Zpos m; shr_r := false; shr_s := false |}, e + 53).
Proof. unfold shr. apply (f_equal (fun r => (r, e + 53))). vm_compute. reflexivity. Qed.

Lemma div_eucl_by (a b q r : Z) :
  0 <= r < b -> a = b * q + r -> Z.div_eucl a b = (q, r).
Proof.
  intros Hr Ha.
  pose proof (Z.div_unique_pos a b q r Hr Ha) as Hq.
  pose proof (Z.mod_unique_pos a b q r Hr Ha) as Hm.
  unfold Z.div, Z.modulo in Hq, Hm.
  destruct (Z.div_eucl a b) as [q' r']. congruence.
Qed.

Lemma fexp_unfold (z : Z) : fexp prec emax z = Z.max (z - 53) (-1074).
Proof. reflexivity. Qed.

Lemma halving_core (s : bool) (m : positive) (e : Z) :
  SpecFloat.bounded prec emax m e = true ->
  (let '(mz, ez, lz) :=
     SFdiv_core_binary prec emax (Zpos m) e (Zpos 4503599627370496) (-51) in
   binary_round_aux prec emax s mz ez lz)
  = binary_round_aux prec emax s (Zpos (4503599627370496 * m)) (-53 + e) loc_Exact.
Proof.
  intros Hb. destruct (canonical_fexp m e Hb) as [Hc He].
  rewrite fexp_unfold in Hc.
  change (4503599627370496 * m)%positive with (Nat.iter 52 xO m).
  unfold SFdiv_core_binary.
  change (Zdigits2 (Zpos m)) with (Zpos (digits2_pos m)).
  change (Zdigits2 (Zpos 4503599627370496)) with 53.
  rewrite fexp_unfold.
  set (d := Zpos (digits2_pos m)) in *.
  assert (Hd : 0 < d) by (subst d; lia).
  destruct (Z_lt_le_dec (-1073) e) as [Hbig|Hsmall]; [|destruct (Z.eq_dec e (-1073)) as [H73|H74]].
  - (* e >= -1072 *)
    replace (Z.min (Z.max (d + e - (53 + -51) - 53) (-1074)) (e - -51)) with (e - 2) by lia.
    replace (e - -51 - (e - 2)) with 53 by lia.
    rewrite (div_eucl_by (Z.shiftl (Zpos m) 53) (Zpos 4503599627370496) (Zpos m~0) 0)
      by (rewrite ?Z.shiftl_mul_pow2; lia).
    change (new_location (Zpos 4503599627370496) 0) with loc_Exact.
    unfold binary_round_aux.
    rewrite (shr_fexp_by (Zpos m~0) (e - 2) 1).
    2:{ rewrite fexp_unfold. change (Zdigits2 (Zpos m~0)) with (Zpos (Pos.succ (digits2_pos m))).
        rewrite Pos2Z.inj_succ. fold d. lia. }
    rewrite (shr_fexp_by (Zpos (Nat.iter 52 xO m)) (-53 + e) 52).
    2:{ rewrite fexp_unfold. unfold Zdigits2. rewrite digits2_pos_shift. fold d. lia. }
    rewrite shr_by_52.
    replace (-53 + e + 52) with (e - 2 + 1) by lia. reflexivity.
  - (* e = -1073 *)
    subst e.
    replace (Z.min (Z.max (d + -1073 - (53 + -51) - 53) (-1074)) (-1073 - -51)) with (-1074) by lia.
    change (-1073 - -51 - -1074) with 52. cbv beta iota.
    rewrite (div_eucl_by (Z.shiftl (Zpos m) 52) (Zpos 4503599627370496) (Zpos m) 0)
      by (rewrite ?Z.shiftl_mul_pow2; lia).
    change (new_location (Zpos 4503599627370496) 0) with loc_Exact.
    unfold binary_round_aux.
    rewrite (shr_fexp_by (Zpos m) (-1074) 0).
    2:{ rewrite fexp_unfold. change (Zdigits2 (Zpos m)) with d. lia. }
    rewrite (shr_fexp_by (Zpos (Nat.iter 52 xO m)) (-53 + -1073) 52).
    2:{ rewrite fexp_unfold. unfold Zdigits2. rewrite digits2_pos_shift. fold d. lia. }
    rewrite shr_by_52. reflexivity.
  - (* e = -1074 *)
    assert (e = -1074) by lia. subst e. clear H74 Hsmall.
    replace (Z.min (Z.max (d + -1074 - (53 + -51) - 53) (-1074)) (-1074 - -51)) with (-1074) by lia.
    change (-1074 - -51 - -1074) with 51. cbv beta iota.
    unfold binary_round_aux.
    rewrite (shr_fexp_by (Zpos (Nat.iter 52 xO m)) (-53 + -1074) 53).
    2:{ rewrite fexp_unfold. unfold Zdigits2. rewrite digits2_pos_shift. fold d. lia. }
    rewrite shr_by_53.
    destruct m as [p|p|].
    + rewrite (div_eucl_by (Z.shiftl (Zpos p~1) 51) (Zpos 4503599627370496) (Zpos p) 2251799813685248)
        by (rewrite ?Z.shiftl_mul_pow2; lia).
      change (new_location (Zpos 4503599627370496) 2251799813685248) with (loc_Inexact Eq).
      rewrite (shr_fexp_by (Zpos p) (-1074) 0).
      2:{ rewrite fexp_unfold. subst d. cbn [digits2_pos Zdigits2] in *. lia. }
      reflexivity.
    + rewrite (div_eucl_by (Z.shiftl (Zpos p~0) 51) (Zpos 4503599627370496) (Zpos p) 0)
        by (rewrite ?Z.shiftl_mul_pow2; lia).
      change (new_location (Zpos 4503599627370496) 0) with loc_Exact.
      rewrite (shr_fexp_by (Zpos p) (-1074) 0).
      2:{ rewrite fexp_unfold. subst d. cbn [digits2_pos Zdigits2] in *. lia. }
      reflexivity.
    + reflexivity.
Qed.

Lemma SFdiv_two (x : spec_float) :
  SpecFloat.valid_binary prec emax x = true ->
  SFdiv prec emax x (S754_finite false 4503599627370496 (-51))
  = SFmul prec emax (S754_finite false 4503599627370496 (-53)) x.
Proof.
  destruct x as [s|s| |s m e]; intros Hv; cbn [SFdiv SFmul].
  - destruct s; reflexivity.
  - destruct s; reflexivity.
  - reflexivity.
  - rewrite xorb_false_r, xorb_false_l. apply halving_core. exact Hv.
Qed.

(** Halving is exact: the quotient by 2 is the product by 0.5. *)
Lemma float_half (x : float) : (x / 2)%float = (0.5 * x)%float.
Proof.
  apply Prim2SF_inj. rewrite FloatAxioms.div_spec, FloatAxioms.mul_spec.
  replace (Prim2SF 2%float) with (S754_finite false 4503599627370496 (-51))
    by (vm_compute; reflexivity).
  replace (Prim2SF 0.5%float) with (S754_finite false 4503599627370496 (-53))
    by (vm_compute; reflexivity).
  unfold SF64div, SF64mul. apply SFdiv_two. apply FloatAxioms.Prim2SF_valid.
Qed.

Lemma binary_round_aux_opp (s : bool) (m e : Z) (l : location) :
  binary_round_aux prec emax (negb s) m e l = SFopp (binary_round_aux prec emax s m e l).
Proof.
  unfold binary_round_aux.
  destruct (shr_fexp prec emax m e l) as [mrs e'].
  destruct (shr_fexp prec emax _ e' loc_Exact) as [mrs' e''].
  destruct (shr_m mrs'); [reflexivity| |reflexivity].
  destruct (e'' <=? emax - prec); reflexivity.
Qed.

Lemma SFmul_opp_r (x y : spec_float) :
  SFmul prec emax x (SFopp y) = SFopp (SFmul prec emax x y).
Proof.
  destruct x as [sx|sx| |sx mx ex], y as [sy|sy| |sy my ey]; cbn [SFmul SFopp];
    try reflexivity; try (destruct sx, sy; reflexivity).
  destruct sx, sy; cbn [xorb negb].
  - exact (binary_round_aux_opp false _ _ _).
  - exact (binary_round_aux_opp true _ _ _).
  - exact (binary_round_aux_opp true _ _ _).
  - exact (binary_round_aux_opp false _ _ _).
Qed.

Lemma SFmul_opp_l (x y : spec_float) :
  SFmul prec emax (SFopp x) y = SFopp (SFmul prec emax x y).
Proof.
  destruct x as [sx|sx| |sx mx ex], y as [sy|sy| |sy my ey]; cbn [SFmul SFopp];
    try reflexivity; try (destruct sx, sy; reflexivity).
  destruct sx, sy; cbn [xorb negb].
  - exact (binary_round_aux_opp false _ _ _).
  - exact (binary_round_aux_opp true _ _ _).
  - exact (binary_round_aux_opp true _ _ _).
  - exact (binary_round_aux_opp false _ _ _).
Qed.

Lemma float_mul_opp_r (x y : float) : (x * - y)%float = (- (x * y))%float.
Proof.
  apply Prim2SF_inj.
  rewrite FloatAxioms.opp_spec, !FloatAxioms.mul_spec, FloatAxioms.opp_spec.
  apply SFmul_opp_r.
Qed.

Lemma float_mul_opp_l (x y : float) : (- x * y)%float = (- (x * y))%float.
Proof.
  apply Prim2SF_inj.
  rewrite FloatAxioms.opp_spec, !FloatAxioms.mul_spec, FloatAxioms.opp_spec.
  apply SFmul_opp_l.
Qed.

Lemma float_opp_involutive (x : float) : (- - x)%float = x.
Proof.
  apply Prim2SF_inj. rewrite !FloatAxioms.opp_spec.
  destruct (Prim2SF x) as [s|s| |s m e]; cbn [SFopp]; rewrite ?negb_involutive; reflexivity.
Qed.

(** The square of a [double] does not depend on its sign, whatever it is
    multiplied into. *)
Lemma float_mul_mul_opp (p v : float) : (p * - v * - v)%float = (p * v * v)%float.
Proof.
  rewrite float_mul_opp_r, float_mul_opp_r, float_mul_opp_l.
  apply float_opp_involutive.
Qed.

Section DragDouble.
Context {L : Libm float}.
Local Open Scope dbl_scope.

Lemma lit_half : (lit 0.5 : float) = 0.5%float.
Proof. vm_compute. reflexivity. Qed.

Lemma calc_drag_halved (cd rho v a : float) :
  calc_drag cd rho v a = lit 0.5 * (cd * rho * v * v) * a.
Proof.
  unfold calc_drag. rewrite lit_half. cbn [Dmul Ddiv float_arith].
  change (of_int 2) with 2%float. rewrite float_half. reflexivity.
Qed.

(** C10, as amended.  In [double], [calc_drag] is half of the product
    [cd * rho * v * v] taken from left to right, times [a]: halving is
    exact, so the quotient by 2 of the source is the factor 0.5 of the
    formula; [calc_drag_earth] is [calc_drag] at the density
    [calc_rho_earth alt]. *)
Theorem calc_drag_in_double (cd rho alt v a : float) :
  calc_drag cd rho v a = lit 0.5 * (cd * rho * v * v) * a /\
  calc_drag_earth cd alt v a = calc_drag cd (calc_rho_earth alt) v a /\
  calc_drag_earth cd alt v a = lit 0.5 * (cd * calc_rho_earth alt * v * v) * a.
Proof.
  split; [apply calc_drag_halved|]. split; [reflexivity|].
  unfold calc_drag_earth. apply calc_drag_halved.
Qed.

End DragDouble.

(** C10, the claim as stated fails in [double]: the formula
    [0.5 * cd * rho * v^2 * a] with its products taken in the order
    written differs from [calc_drag] in the last bit at one input, and is
    finite where [calc_drag] overflows at another. *)
Lemma formula_differs_in_double :
  calc_drag 0.25%float 1.225%float 343%float 21.23%float = 382458.51634375%float /\
  calc_drag_as_claimed 0.25%float 1.225%float 343%float 21.23%float = 382458.51634375006%float /\
  calc_drag 0.25%float 1.225%float 343%float 21.23%float <> calc_drag_as_claimed 0.25%float 1.225%float 343%float 21.23%float /\
  calc_drag 1.7e308%float 1.06%float 1%float 1%float = infinity /\
  calc_drag_as_claimed 1.7e308%float 1.06%float 1%float 1%float = 9.01e307%float /\
  calc_drag 1.7e308%float 1.06%float 1%float 1%float <> calc_drag_as_claimed 1.7e308%float 1.06%float 1%float 1%float.
Proof.
  assert (H1 : calc_drag 0.25%float 1.225%float 343%float 21.23%float = 382458.51634375%float)
    by (vm_compute; reflexivity).
  assert (H2 : calc_drag_as_claimed 0.25%float 1.225%float 343%float 21.23%float = 382458.51634375006%float)
    by (vm_compute; reflexivity).
  assert (H3 : calc_drag 1.7e308%float 1.06%float 1%float 1%float = infinity) by (vm_compute; reflexivity).
  assert (H4 : calc_drag_as_claimed 1.7e308%float 1.06%float 1%float 1%float = 9.01e307%float)
    by (vm_compute; reflexivity).
  split; [exact H1|]. split; [exact H2|]. split.
  { rewrite H1, H2. intros E. apply (f_equal Prim2SF) in E. vm_compute in E. discriminate E. }
  split; [exact H3|]. split; [exact H4|].
  rewrite H3, H4. intros E. apply (f_equal Prim2SF) in E. vm_compute in E. discriminate E.
Qed.

(** ** The sign of a product *)

Lemma binary_round_aux_abs (m e : Z) (l : location) :
  SFabs (binary_round_aux prec emax false m e l) = binary_round_aux prec emax false m e l.
Proof.
  unfold binary_round_aux.
  destruct (shr_fexp prec emax m e l) as [mrs e'].
  destruct (shr_fexp prec emax _ e' loc_Exact) as [mrs' e''].
  destruct (shr_m mrs'); [reflexivity| |reflexivity].
  destruct (e'' <=? emax - prec); reflexivity.
Qed.

Lemma SFmul_abs (x y : spec_float) :
  SFabs x = x -> SFabs y = y -> SFabs (SFmul prec emax x y) = SFmul prec emax x y.
Proof.
  destruct x as [sx|sx| |sx mx ex], y as [sy|sy| |sy my ey]; cbn [SFmul SFabs];
    intros Hx Hy; try reflexivity;
    injection Hx as <-; injection Hy as <-; cbn [xorb]; try reflexivity.
  apply binary_round_aux_abs.
Qed.

Lemma SFmul_square_abs (x : spec_float) :
  SFabs (SFmul prec emax x x) = SFmul prec emax x x.
Proof.
  destruct x as [s|s| |s m e]; cbn [SFmul SFabs]; rewrite ?xorb_nilpotent;
    try reflexivity.
  apply binary_round_aux_abs.
Qed.

Lemma SFabs_not_negative (x : spec_float) :
  SFabs x = x -> SFltb x (S754_zero false) = false.
Proof.
  destruct x as [s|s| |s m e]; cbn [SFabs]; intros Hx; try reflexivity;
    injection Hx as <-; reflexivity.
Qed.

Lemma float_mul_abs (x y : float) :
  abs x = x -> abs y = y -> abs (x * y)%float = (x * y)%float.
Proof.
  intros Hx Hy. apply Prim2SF_inj.
  rewrite FloatAxioms.abs_spec, FloatAxioms.mul_spec.
  apply SFmul_abs.
  - rewrite <- FloatAxioms.abs_spec, Hx. reflexivity.
  - rewrite <- FloatAxioms.abs_spec, Hy. reflexivity.
Qed.

Lemma float_abs_not_negative (x : float) : abs x = x -> (x <? 0)%float = false.
Proof.
  intros Hx. rewrite FloatAxioms.ltb_spec.
  apply SFabs_not_negative. rewrite <- FloatAxioms.abs_spec, Hx. reflexivity.
Qed.

Lemma float_abs_abs (x : float) : abs (abs x) = abs x.
Proof.
  apply Prim2SF_inj. rewrite !FloatAxioms.abs_spec.
  destruct (Prim2SF x); reflexivity.
Qed.

Lemma float_abs_or_opp (x : float) : x = abs x \/ x = (- abs x)%float.
Proof.
  destruct (Prim2SF x) as [s|s| |s m e] eqn:E.
  1,2,4: destruct s; [right|left]; apply Prim2SF_inj;
    rewrite ?FloatAxioms.opp_spec, FloatAxioms.abs_spec, E; reflexivity.
  left. apply Prim2SF_inj. rewrite FloatAxioms.abs_spec, E. reflexivity.
Qed.

(** A product by a square keeps the sign of the other factor. *)
Lemma float_mul_square_abs (p v : float) :
  abs p = p -> abs (p * v * v)%float = (p * v * v)%float.
Proof.
  intros Hp.
  assert (Hw : forall w, abs w = w -> abs (p * w * w)%float = (p * w * w)%float).
  { intros w Hw. apply float_mul_abs; [apply float_mul_abs|]; assumption. }
  destruct (float_abs_or_opp v) as [E|E]; rewrite E.
  - apply Hw. apply float_abs_abs.
  - rewrite float_mul_mul_opp. apply Hw. apply float_abs_abs.
Qed.

Section DragSign.
Context {L : Libm float}.
Local Open Scope dbl_scope.

Lemma calc_drag_flip (cd rho v a : float) :
  calc_drag cd rho (- v) a = calc_drag cd rho v a.
Proof.
  unfold calc_drag. cbn [Dmul Ddiv Dopp float_arith].
  rewrite float_mul_mul_opp. reflexivity.
Qed.

Lemma calc_drag_abs (cd rho v a : float) :
  abs cd = cd -> abs rho = rho -> abs a = a ->
  abs (calc_drag cd rho v a) = calc_drag cd rho v a.
Proof.
  intros Hcd Hrho Ha.
  rewrite calc_drag_halved, lit_half. cbn [Dmul float_arith].
  apply float_mul_abs; [|exact Ha].
  apply float_mul_abs; [reflexivity|].
  apply float_mul_square_abs. apply float_mul_abs; assumption.
Qed.

(** X3.  In [double], for every [pow] and [exp], the drag does not depend
    on the sign of the speed it is given; and when the drag coefficient,
    the density and the area have a clear sign bit or are a NaN
    ([|x| = x]), so has the drag, whatever the speed: it never compares
    below zero. *)
Theorem drag_ignores_direction (cd rho alt v a : float) :
  calc_drag cd rho (- v) a = calc_drag cd rho v a /\
  calc_drag_earth cd alt (- v) a = calc_drag_earth cd alt v a /\
  (Dabs cd = cd -> Dabs rho = rho -> Dabs a = a ->
     Dabs (calc_drag cd rho v a) = calc_drag cd rho v a /\
     (calc_drag cd rho v a <? of_int 0) = false).
Proof.
  split; [apply calc_drag_flip|]. split; [unfold calc_drag_earth; apply calc_drag_flip|].
  intros Hcd Hrho Ha.
  pose proof (calc_drag_abs cd rho v a Hcd Hrho Ha) as Habs.
  split; [exact Habs|]. exact (float_abs_not_negative _ Habs).
Qed.

End DragSign.

(** ** The clamped command *)

Lemma float_sub_self_finite (q : float) :
  abs q = q -> (q <? infinity)%float = true -> (q - q)%float = 0%float.
Proof.
  intros Habs Hlt. apply Prim2SF_inj.
  apply (f_equal Prim2SF) in Habs. rewrite FloatAxioms.abs_spec in Habs.
  rewrite FloatAxioms.ltb_spec in Hlt.
  replace (Prim2SF infinity) with (S754_infinity false) in Hlt by reflexivity.
  rewrite FloatAxioms.sub_spec. unfold SF64sub.
  destruct (Prim2SF q) as [s|s| |s m e].
  - destruct s; reflexivity.
  - destruct s; discriminate.
  - discriminate.
  - cbv beta iota zeta delta [SFsub]. rewrite Z.sub_diag. reflexivity.
Qed.

Lemma float_sub_self_any (q : float) :
  (q - q)%float = 0%float \/ (q - q)%float = PrimFloat.nan.
Proof.
  destruct (isnan q) eqn:Hn; [|exact (float_sub_self q Hn)].
  right. apply float_isnan_spec in Hn.
  apply Prim2SF_inj. rewrite FloatAxioms.sub_spec, Hn. reflexivity.
Qed.

Lemma float_square_abs (m : float) : abs (m * m)%float = (m * m)%float.
Proof.
  apply Prim2SF_inj. rewrite FloatAxioms.abs_spec, FloatAxioms.mul_spec.
  apply SFmul_square_abs.
Qed.

Lemma float_square_opp (m : float) : (- m * - m)%float = (m * m)%float.
Proof. rewrite float_mul_opp_l, float_mul_opp_r. apply float_opp_involutive. Qed.

Section ClampedCommand.
Local Open Scope dbl_scope.

Lemma float_clamped (r m : float) :
  (m <? of_int 0) = false -> (Dabs r >? m) = true ->
  (if Dabs r >? m then of_int (signum r) * m else r)
  = (if r >? of_int 0 then m else - m).
Proof.
  intros Hm Hgt. unfold signum.
  pose proof (clamp_sf (Prim2SF r) (Prim2SF m)) as Hc.
  rewrite <- float_zero_sf, <- float_abs_sf, <- float_opp_sf, <- !float_ltb_sf in Hc.
  destruct (Hc Hm) as [Hc' _]. clear Hc. rewrite Hgt.
  destruct (Hc' Hgt) as [(Hp & Hn & _)|(Hp & Hn & _)]; rewrite Hp, Hn.
  - change (of_int (Z.b2z true - Z.b2z false)) with 1%float. apply float_one_mul.
  - change (of_int (Z.b2z false - Z.b2z true)) with (-1)%float. apply float_opp_one_mul.
Qed.

(** X6.  In [double], with a commanded speed that is not negative and a
    nonzero setpoint: when the clamp applies, [|raw| > mag_v], the vertical
    command is [mag_v] with the sign of [raw], its square is that of
    [mag_v], and the horizontal command is [sqrt (mag_v * mag_v - mag_v *
    mag_v)]: zero, so that the command is exactly vertical, unless
    [mag_v * mag_v] overflows, and then a NaN. *)
Theorem clamped_command_is_vertical (pidf : pidf_controller float) (cur_v : vector float)
    (mag_v : float) :
  let raw := (get_setpoint pidf - get_last_state pidf) / pidf_time_step pidf in
  let cmd := adjust_velocity pidf cur_v mag_v in
  (mag_v <? of_int 0) = false ->
  (get_setpoint pidf =? of_int 0) = false ->
  (Dabs raw >? mag_v) = true ->
  get_y cmd = (if raw >? of_int 0 then mag_v else - mag_v) /\
  get_y cmd * get_y cmd = mag_v * mag_v /\
  (get_x cmd = of_int 0 \/ get_x cmd = PrimFloat.nan) /\
  get_z cmd = of_int 0 /\
  ((mag_v * mag_v <? PrimFloat.infinity) = true ->
     cmd = mk_vector (of_int 0) (if raw >? of_int 0 then mag_v else - mag_v) (of_int 0)).
Proof.
  intros raw cmd Hmag Hsp Hgt. subst cmd. unfold adjust_velocity, compute_error.
  rewrite Hsp. fold raw. cbn [get_x get_y get_z].
  rewrite (float_clamped raw mag_v Hmag Hgt).
  set (y := if raw >? of_int 0 then mag_v else - mag_v).
  assert (Hyy : y * y = mag_v * mag_v).
  { subst y. destruct (raw >? of_int 0); [reflexivity|]. apply float_square_opp. }
  rewrite Hyy. split; [reflexivity|]. split; [reflexivity|]. split; [|split; [reflexivity|]].
  - cbn [Dsub Dsqrt Dmul float_arith].
    destruct (float_sub_self_any (mag_v * mag_v)) as [-> | ->]; [left|right]; reflexivity.
  - intros Hfin. cbn [Dsub Dsqrt Dmul float_arith].
    rewrite (float_sub_self_finite _ (float_square_abs mag_v) Hfin). reflexivity.
Qed.

End ClampedCommand.

(** The hypotheses of the theorem above hold of a command at speed 30
    towards a setpoint 100 above the last state, with time step 1. *)
Lemma clamped_command_is_vertical_witness :
  (30%float <? of_int 0)%dbl = false /\
  adjust_velocity (mk_pidf 1 0 0 0 0 100 0)%float zero_vector 30%float
  = (mk_vector 0 30 0)%float.
Proof.
  assert (Hmag : (30%float <? of_int 0)%dbl = false) by reflexivity.
  split; [exact Hmag|].
  destruct (clamped_command_is_vertical (mk_pidf 1 0 0 0 0 100 0)%float zero_vector 30%float
              Hmag eq_refl eq_refl) as (_ & _ & _ & _ & Hcmd).
  exact (Hcmd eq_refl).
Defined.

(** ** A sum of positive numbers is positive *)

Lemma shr_1_m (r : shr_record) : 0 <= shr_m r -> shr_m (shr_1 r) = shr_m r / 2.
Proof.
  destruct r as [m r s]. cbn [shr_m]. intros Hm.
  destruct m as [|p|p]; [reflexivity| |lia].
  destruct p as [p|p|]; cbn [shr_1 shr_m].
  - apply (Z.div_unique_pos _ _ _ 1); lia.
  - apply (Z.div_unique_pos _ _ _ 0); lia.
  - reflexivity.
Qed.

Lemma iter_shr_1_m (p : positive) (r : shr_record) :
  0 <= shr_m r -> shr_m (SpecFloat.iter_pos shr_1 p r) = shr_m r / 2 ^ Zpos p.
Proof.
  revert r. induction p as [p IH|p IH|]; intros r Hr; cbn [SpecFloat.iter_pos].
  - assert (H1 : 0 <= shr_m (shr_1 r)) by (rewrite shr_1_m by exact Hr; apply Z.div_pos; lia).
    assert (H2 : 0 <= shr_m (SpecFloat.iter_pos shr_1 p (shr_1 r)))
      by (rewrite IH by exact H1; apply Z.div_pos; lia).
    rewrite IH by exact H2. rewrite IH by exact H1. rewrite shr_1_m by exact Hr.
    rewrite !Z.div_div by lia. f_equal.
    replace (Zpos p~1) with (1 + Zpos p + Zpos p) by lia.
    rewrite !Z.pow_add_r, Z.pow_1_r by lia. ring.
  - assert (H2 : 0 <= shr_m (SpecFloat.iter_pos shr_1 p r))
      by (rewrite IH by exact Hr; apply Z.div_pos; lia).
    rewrite IH by exact H2. rewrite IH by exact Hr.
    rewrite !Z.div_div by lia. f_equal.
    replace (Zpos p~0) with (Zpos p + Zpos p) by lia.
    rewrite !Z.pow_add_r by lia. ring.
  - rewrite shr_1_m by exact Hr. reflexivity.
Qed.

Lemma digits2_pos_le (m : positive) : 2 ^ (Zpos (digits2_pos m) - 1) <= Zpos m.
Proof.
  induction m as [p IH|p IH|]; cbn [digits2_pos]; [| |simpl; lia].
  - rewrite Pos2Z.inj_succ. replace (Z.succ (Zpos (digits2_pos p)) - 1)
      with (Z.succ (Zpos (digits2_pos p) - 1)) by lia.
    rewrite Z.pow_succ_r by lia. lia.
  - rewrite Pos2Z.inj_succ. replace (Z.succ (Zpos (digits2_pos p)) - 1)
      with (Z.succ (Zpos (digits2_pos p) - 1)) by lia.
    rewrite Z.pow_succ_r by lia. lia.
Qed.

Lemma shr_record_of_loc_m (m : Z) (l : location) : shr_m (shr_record_of_loc m l) = m.
Proof. destruct l as [|[]]; reflexivity. Qed.

(** Rounding a positive mantissa at an exponent that is at least [emin]
    leaves a positive mantissa. *)
Lemma shr_fexp_positive (m : positive) (e : Z) (l : location) :
  -1074 <= e ->
  0 < shr_m (shr_fexp prec emax (Zpos m) e l).1 /\
  -1074 <= (shr_fexp prec emax (Zpos m) e l).2.
Proof.
  intros He. unfold shr_fexp. rewrite fexp_unfold.
  change (Zdigits2 (Zpos m)) with (Zpos (digits2_pos m)).
  pose proof (digits2_pos_le m) as Hd.
  set (d := Zpos (digits2_pos m)) in *.
  assert (Hd1 : 1 <= d) by (subst d; lia).
  destruct (Z.max (d + e - 53) (-1074) - e) as [|p|p] eqn:En; cbn [shr fst snd].
  - rewrite shr_record_of_loc_m. lia.
  - rewrite iter_shr_1_m by (rewrite shr_record_of_loc_m; lia).
    rewrite shr_record_of_loc_m. split; [|lia].
    apply Z.div_str_pos. split; [lia|].
    apply Z.le_trans with (2 ^ (d - 1)); [|exact Hd].
    apply Z.pow_le_mono_r; lia.
  - rewrite shr_record_of_loc_m. lia.
Qed.

Lemma round_nearest_even_ge (m : Z) (l : location) : m <= round_nearest_even m l.
Proof.
  unfold round_nearest_even. destruct l as [|[]]; try lia.
  destruct (Z.even m); lia.
Qed.

Lemma binary_round_aux_positive (m : positive) (e : Z) (l : location) :
  -1074 <= e ->
  SFltb (S754_zero false) (binary_round_aux prec emax false (Zpos m) e l) = true.
Proof.
  intros He. unfold binary_round_aux.
  destruct (shr_fexp_positive m e l He) as [Hm1 He1].
  destruct (shr_fexp prec emax (Zpos m) e l) as [mrs' e']. cbn [fst snd] in Hm1, He1.
  pose proof (round_nearest_even_ge (shr_m mrs') (loc_of_shr_record mrs')) as Hr.
  destruct (round_nearest_even (shr_m mrs') (loc_of_shr_record mrs')) as [|m1|m1];
    [lia| |lia].
  destruct (shr_fexp_positive m1 e' loc_Exact He1) as [Hm2 _].
  destruct (shr_fexp prec emax (Zpos m1) e' loc_Exact) as [mrs'' e'']. cbn [fst] in Hm2.
  destruct (shr_m mrs'') as [|m2|m2]; [lia| |lia].
  destruct (e'' <=? emax - prec); reflexivity.
Qed.

Lemma binary_round_positive (m : positive) (e : Z) :
  -1074 <= e ->
  SFltb (S754_zero false) (binary_round prec emax false m e) = true.
Proof.
  intros He. unfold binary_round. rewrite fexp_unfold. unfold shl_align.
  destruct (Z.max (Zpos (digits2_pos m) + e - 53) (-1074) - e) eqn:En;
    apply binary_round_aux_positive; lia.
Qed.

Lemma bounded_emin (m : positive) (e : Z) :
  SpecFloat.bounded prec emax m e = true -> -1074 <= e.
Proof.
  intros Hb. destruct (canonical_fexp m e Hb) as [Hc _].
  rewrite fexp_unfold in Hc. lia.
Qed.

Lemma SFadd_positive (a d : spec_float) :
  SpecFloat.valid_binary prec emax a = true ->
  SpecFloat.valid_binary prec emax d = true ->
  SFleb (S754_zero false) a = true ->
  SFltb (S754_zero false) d = true ->
  SFltb (S754_zero false) (SFadd prec emax a d) = true.
Proof.
  intros Hva Hvd Ha Hd.
  destruct a as [[]|[]| |[] ma ea]; try discriminate Ha;
    destruct d as [[]|[]| |[] md ed]; try discriminate Hd; try reflexivity.
  cbn [SFadd cond_Zopp].
  pose proof (bounded_emin ma ea Hva) as Hea.
  pose proof (bounded_emin md ed Hvd) as Hed.
  cbn [Z.add binary_normalize].
  apply binary_round_positive. lia.
Qed.

Lemma float_add_positive (a d : float) :
  (0 <=? a)%float = true -> (0 <? d)%float = true -> (0 <? a + d)%float = true.
Proof.
  rewrite FloatAxioms.leb_spec, !FloatAxioms.ltb_spec, FloatAxioms.add_spec.
  replace (Prim2SF 0%float) with (S754_zero false) by reflexivity.
  apply SFadd_positive; apply FloatAxioms.Prim2SF_valid.
Qed.

(** ** The normal force in [double] *)

Lemma float_ltb_leb (x y : float) : (x <? y)%float = true -> (x <=? y)%float = true.
Proof.
  rewrite FloatAxioms.ltb_spec, FloatAxioms.leb_spec. unfold SFltb, SFleb.
  destruct (SFcompare (Prim2SF x) (Prim2SF y)) as [[]|]; done.
Qed.

Lemma float_negative_opp (y : float) : (y <? 0)%float = true -> (0 <? - y)%float = true.
Proof.
  rewrite !FloatAxioms.ltb_spec, FloatAxioms.opp_spec.
  replace (Prim2SF 0%float) with (S754_zero false) by reflexivity.
  destruct (Prim2SF y) as [[]|[]| |[] m e]; intros Hy; try discriminate Hy; reflexivity.
Qed.

Section NormalForceDouble.
Local Open Scope dbl_scope.

Lemma downward_others_positive (k : nat) (fs : list (vector float)) :
  Forall (fun d => (of_int 0 <? d) = true) (downward_others k fs).
Proof.
  revert k. induction fs as [|force fs IH]; intros k; cbn [downward_others];
    [constructor|].
  destruct (negb (k =? 1)%nat); cbn [andb]; [|apply IH].
  destruct (get_y force <? of_int 0) eqn:Hlt; [|apply IH].
  constructor; [|apply IH]. exact (float_negative_opp _ Hlt).
Qed.

Lemma fold_add_positive (l : list float) (a : float) :
  (of_int 0 <=? a) = true ->
  Forall (fun d => (of_int 0 <? d) = true) l ->
  (of_int 0 <=? fold_left Dadd l a) = true /\
  (l <> [] -> (of_int 0 <? fold_left Dadd l a) = true).
Proof.
  intros Ha Hl. revert a Ha. induction Hl as [|d l Hd Hl IH]; intros a Ha; simpl.
  - split; [exact Ha|congruence].
  - pose proof (float_add_positive a d Ha Hd) as Hpos.
    destruct (IH (PrimFloat.add a d) (float_ltb_leb _ _ Hpos)) as [Hle Hlt].
    split; [exact Hle|]. intros _.
    destruct l as [|d' l']; [exact Hpos|]. apply Hlt. discriminate.
Qed.

Lemma normal_loop_horizontal (k : nat) (fs : list (vector float)) (new_n : vector float) :
  get_x new_n = of_int 0 -> get_z new_n = of_int 0 ->
  get_x (normal_loop k fs new_n) = of_int 0 /\ get_z (normal_loop k fs new_n) = of_int 0.
Proof.
  revert k new_n. induction fs as [|force fs IH]; intros k new_n Hx Hz; [done|].
  cbn [normal_loop]. apply IH.
  - destruct (k =? 1)%nat; [exact Hx|].
    destruct (get_y force <? of_int 0); [|exact Hx].
    cbn [vector_add get_x]. rewrite Hx. reflexivity.
  - destruct (k =? 1)%nat; [exact Hz|].
    destruct (get_y force <? of_int 0); [|exact Hz].
    cbn [vector_add get_z]. rewrite Hz. reflexivity.
Qed.

(** X13.  In [double], the vector that the normal force computation
    builds from the applied forces is vertical and never points down: its
    x and z components are zero and its y component is the sum, in the
    order of the loop, of the magnitudes of the downward y components of
    the forces other than [forces[1]], each of which is positive; the sum
    is positive (possibly infinite, never a NaN) when one of these forces
    points down, and it is zero exactly when none does. *)
Theorem normal_force_points_up (fs : list (vector float)) :
  let new_n := normal_loop 0 fs zero_vector in
  get_x new_n = of_int 0 /\ get_z new_n = of_int 0 /\
  get_y new_n = fold_left Dadd (downward_others 0 fs) (of_int 0) /\
  Forall (fun d => (of_int 0 <? d) = true) (downward_others 0 fs) /\
  (of_int 0 <=? get_y new_n) = true /\
  (downward_others 0 fs <> [] -> (of_int 0 <? get_y new_n) = true) /\
  (get_y new_n = of_int 0 <-> downward_others 0 fs = []).
Proof.
  intros new_n. subst new_n.
  assert (Hx0 : get_x (zero_vector : vector float) = of_int 0) by reflexivity.
  assert (Hz0 : get_z (zero_vector : vector float) = of_int 0) by reflexivity.
  destruct (normal_loop_horizontal 0 fs zero_vector Hx0 Hz0) as [Hx Hz].
  pose proof (normal_loop_y 0 fs (zero_vector : vector float)) as Hy.
  pose proof (downward_others_positive 0 fs) as Hpos.
  change (get_y (zero_vector : vector float)) with (of_int 0 : float) in Hy.
  assert (H00 : ((of_int 0 : float) <=? of_int 0) = true) by reflexivity.
  destruct (fold_add_positive _ _ H00 Hpos) as [Hle Hlt].
  split; [exact Hx|]. split; [exact Hz|]. split; [exact Hy|].
  split; [exact Hpos|]. rewrite Hy.
  split; [exact Hle|]. split; [exact Hlt|]. split.
  - intros H0. destruct (downward_others 0 fs) as [|d l] eqn:E; [reflexivity|].
    assert (Hne : d :: l <> []) by discriminate.
    specialize (Hlt Hne). rewrite H0 in Hlt. discriminate Hlt.
  - intros ->. reflexivity.
Qed.

End NormalForceDouble.

(** ** The drag force against the velocity *)

Lemma SFdiv_abs (x y : spec_float) :
  SFabs x = x -> SFabs y = y -> SFabs (SFdiv prec emax x y) = SFdiv prec emax x y.
Proof.
  destruct x as [sx|sx| |sx mx ex], y as [sy|sy| |sy my ey]; cbn [SFdiv SFabs];
    intros Hx Hy; try reflexivity;
    injection Hx as <-; injection Hy as <-; cbn [xorb]; try reflexivity.
  destruct (SFdiv_core_binary prec emax (Zpos mx) ex (Zpos my) ey) as [[mz ez] lz].
  apply binary_round_aux_abs.
Qed.

Lemma SFdiv_opp_l (x y : spec_float) :
  SFdiv prec emax (SFopp x) y = SFopp (SFdiv prec emax x y).
Proof.
  destruct x as [sx|sx| |sx mx ex], y as [sy|sy| |sy my ey]; cbn [SFdiv SFopp];
    try reflexivity; try (destruct sx, sy; reflexivity).
  destruct (SFdiv_core_binary prec emax (Zpos mx) ex (Zpos my) ey) as [[mz ez] lz].
  destruct sx, sy; cbn [xorb negb].
  - exact (binary_round_aux_opp false _ _ _).
  - exact (binary_round_aux_opp true _ _ _).
  - exact (binary_round_aux_opp true _ _ _).
  - exact (binary_round_aux_opp false _ _ _).
Qed.

Lemma SFadd_abs (x y : spec_float) :
  SFabs x = x -> SFabs y = y -> SFabs (SFadd prec emax x y) = SFadd prec emax x y.
Proof.
  destruct x as [sx|sx| |sx mx ex], y as [sy|sy| |sy my ey]; cbn [SFadd SFabs];
    intros Hx Hy; try reflexivity;
    injection Hx as <-; injection Hy as <-; try reflexivity.
  cbn [cond_Zopp].
  generalize (shl_align mx ex (Z.min ex ey)).1, (shl_align my ey (Z.min ex ey)).1.
  intros m1 m2. change (Zpos m1 + Zpos m2) with (Zpos (m1 + m2)).
  cbn [binary_normalize]. unfold binary_round.
  destruct (shl_align _ _ _) as [mz ez]. apply binary_round_aux_abs.
Qed.

Lemma SFsqrt_abs (x : spec_float) :
  SFabs x = x -> SFabs (SFsqrt prec emax x) = SFsqrt prec emax x.
Proof.
  destruct x as [sx|sx| |sx mx ex]; cbn [SFsqrt SFabs];
    intros Hx; try reflexivity; injection Hx as <-; try reflexivity.
  destruct (SFsqrt_core_binary prec emax (Zpos mx) ex) as [[mz ez] lz].
  apply binary_round_aux_abs.
Qed.

Lemma float_abs_sf_fixed (x : float) : abs x = x <-> SFabs (Prim2SF x) = Prim2SF x.
Proof.
  rewrite <- FloatAxioms.abs_spec. split; [intros ->; reflexivity|apply Prim2SF_inj].
Qed.

Lemma float_div_abs (x y : float) :
  abs x = x -> abs y = y -> abs (x / y)%float = (x / y)%float.
Proof.
  rewrite !float_abs_sf_fixed, FloatAxioms.div_spec. apply SFdiv_abs.
Qed.

Lemma float_add_abs (x y : float) :
  abs x = x -> abs y = y -> abs (x + y)%float = (x + y)%float.
Proof.
  rewrite !float_abs_sf_fixed, FloatAxioms.add_spec. apply SFadd_abs.
Qed.

Lemma float_sqrt_abs (x : float) :
  abs x = x -> abs (PrimFloat.sqrt x) = PrimFloat.sqrt x.
Proof.
  rewrite !float_abs_sf_fixed, FloatAxioms.sqrt_spec. apply SFsqrt_abs.
Qed.

Lemma float_div_opp_l (x y : float) : (- x / y)%float = (- (x / y))%float.
Proof.
  apply Prim2SF_inj.
  rewrite FloatAxioms.opp_spec, !FloatAxioms.div_spec, FloatAxioms.opp_spec.
  apply SFdiv_opp_l.
Qed.

Lemma float_positive_abs (x : float) : (0 <? x)%float = true -> abs x = x.
Proof.
  rewrite float_abs_sf_fixed, FloatAxioms.ltb_spec.
  replace (Prim2SF 0%float) with (S754_zero false) by reflexivity.
  destruct (Prim2SF x) as [[]|[]| |[] m e]; intros Hx; try discriminate Hx; reflexivity.
Qed.

Lemma float_negative_abs (x : float) : (x <? 0)%float = true -> (- x)%float = abs x.
Proof.
  rewrite FloatAxioms.ltb_spec. intros Hx. apply Prim2SF_inj.
  rewrite FloatAxioms.opp_spec, FloatAxioms.abs_spec. revert Hx.
  replace (Prim2SF 0%float) with (S754_zero false) by reflexivity.
  destruct (Prim2SF x) as [[]|[]| |[] m e]; intros Hx; try discriminate Hx; reflexivity.
Qed.

Lemma float_opp_abs_not_positive (q : float) : abs q = q -> (0 <? - q)%float = false.
Proof.
  rewrite float_abs_sf_fixed, FloatAxioms.ltb_spec, FloatAxioms.opp_spec.
  replace (Prim2SF 0%float) with (S754_zero false) by reflexivity.
  destruct (Prim2SF q) as [[]|[]| |[] m e]; intros Hq; try discriminate Hq; reflexivity.
Qed.

(** The magnitude of a vector of [double]s has a clear sign bit or is a
    NaN. *)
Lemma float_magnitude_abs (u : vector float) : abs (magnitude u) = magnitude u.
Proof.
  unfold magnitude. cbn [Dsqrt Dadd Dmul float_arith].
  apply float_sqrt_abs. apply float_add_abs; [apply float_add_abs|]; apply float_square_abs.
Qed.

(** A component [- c * drag / speed] of the drag force is not of the sign
    of [c] when [drag] and [speed] have a clear sign bit. *)
Lemma float_component_opposes (c drag speed : float) :
  abs drag = drag -> abs speed = speed ->
  let f := (- c * drag / speed)%float in
  ((0 <? c)%float = true -> (0 <? f)%float = false) /\
  ((c <? 0)%float = true -> (f <? 0)%float = false).
Proof.
  intros Hd Hs f. subst f. split; intros Hc.
  - rewrite float_mul_opp_l, float_div_opp_l.
    apply float_opp_abs_not_positive.
    apply float_div_abs; [|exact Hs]. apply float_mul_abs; [|exact Hd].
    apply float_positive_abs. exact Hc.
  - rewrite (float_negative_abs c Hc).
    apply float_abs_not_negative.
    apply float_div_abs; [|exact Hs]. apply float_mul_abs; [|exact Hd].
    apply float_abs_abs.
Qed.

Section DragForce.
Context {L : Libm float}.
Local Open Scope dbl_scope.

(** X12.  In [double], for every [pow] and [exp], the steps "recompute
    weight" and "recompute drag" of a rocket with its force slots store in
    [forces[0]] the weight [(0, - g * mass, 0)] of the current total mass
    and in [forces[2]] the zero vector when the speed compares equal to
    zero, and otherwise the vector [(- v_x * drag / speed, - v_y * drag /
    speed, 0)].  When the density at the altitude has a clear sign bit,
    the drag does not compare below zero and no component of the drag
    force has the sign of the same component of the velocity: the drag
    force does not point along the velocity. *)
Theorem drag_opposes_velocity (b : rocket float) :
  (2 < length (forces b))%nat ->
  let b' := weight_drag_step b in
  let v := get_v b in
  let speed := magnitude v in
  let drag := calc_drag_earth F9_CD (get_y (get_p b)) speed F9_A in
  let fx := - get_x v * drag / speed in
  let fy := - get_y v * drag / speed in
  forces b' !! 0%nat = Some (mk_vector (of_int 0) (- ACCEL_G * get_mass b) (of_int 0)) /\
  ((speed =? of_int 0) = true -> forces b' !! 2%nat = Some zero_vector) /\
  ((speed =? of_int 0) = false -> forces b' !! 2%nat = Some (mk_vector fx fy (of_int 0))) /\
  (Dabs (calc_rho_earth (get_y (get_p b))) = calc_rho_earth (get_y (get_p b)) ->
     (drag <? of_int 0) = false /\
     ((of_int 0 <? get_x v) = true -> (of_int 0 <? fx) = false) /\
     ((get_x v <? of_int 0) = true -> (fx <? of_int 0) = false) /\
     ((of_int 0 <? get_y v) = true -> (of_int 0 <? fy) = false) /\
     ((get_y v <? of_int 0) = true -> (fy <? of_int 0) = false)).
Proof.
  intros Hlen b' v speed drag fx fy. subst b'. unfold weight_drag_step.
  cbn [forces set_force].
  change (get_v (set_force 0 _ b)) with v.
  change (get_p (set_force 0 _ b)) with (get_p b).
  fold speed. fold drag. fold fx. fold fy.
  split; [|split; [|split]].
  - rewrite list_lookup_insert_ne by congruence.
    rewrite list_lookup_insert_eq by lia. reflexivity.
  - intros Hs. rewrite list_lookup_insert_eq by (rewrite length_insert; lia).
    rewrite Hs. reflexivity.
  - intros Hs. rewrite list_lookup_insert_eq by (rewrite length_insert; lia).
    rewrite Hs. reflexivity.
  - intros Hrho.
    assert (Hspeed : abs speed = speed) by apply float_magnitude_abs.
    assert (Hcd : Dabs (F9_CD : float) = F9_CD) by (vm_compute; reflexivity).
    assert (Ha : Dabs (F9_A : float) = F9_A) by (vm_compute; reflexivity).
    assert (Hdrag : abs drag = drag)
      by exact (calc_drag_abs F9_CD (calc_rho_earth (get_y (get_p b))) speed F9_A
                  Hcd Hrho Ha).
    pose proof (float_abs_not_negative _ Hdrag) as Hnn.
    destruct (float_component_opposes (get_x v) drag speed Hdrag Hspeed) as [Hx1 Hx2].
    destruct (float_component_opposes (get_y v) drag speed Hdrag Hspeed) as [Hy1 Hy2].
    repeat split; assumption.
Qed.

End DragForce.

(** The hypothesis of the theorem above holds of the rocket of [Calc]
    before the first step. *)
Lemma drag_opposes_velocity_witness :
  (2 < length (forces (Calc_init : rocket float)))%nat /\
  forall L : Libm float,
    forces (weight_drag_step (Calc_init : rocket float)) !! 0%nat
    = Some (mk_vector (of_int 0) (- ACCEL_G * get_mass (Calc_init : rocket float))%dbl
              (of_int 0)).
Proof.
  assert (Hlen : (2 < length (forces (Calc_init : rocket float)))%nat) by (simpl; lia).
  split; [exact Hlen|]. intros L.
  exact (proj1 (drag_opposes_velocity Calc_init Hlen)).
Defined.
